(** * Pump power calculator ([app.py]): unit conversion and power equations

    The script converts a flow, a head, a fluid description and an
    efficiency to SI units and evaluates the pump power equations

      P_hyd = rho * g * Q * H / 1000   [kW]      P_shaft = P_hyd / eta.

    Its numbers are Python floats.  The numeric functions are embedded
    twice, with the same text:

    - [Binary64]: the arithmetic CPython executes, IEEE 754 binary64 with
      round-to-nearest-even, on Rocq's primitive floats.  A decimal literal
      denotes the nearest binary64 number, as in Python; infinities and NaN
      arise as they do in Python.
    - [Exact]: the same expressions over the exact rationals [Q], where a
      decimal literal denotes the rational it spells and nothing is rounded.
      This is the arithmetic the binary64 results approximate.

    What Python raises is modelled by [Py.result]: [KeyError] from a
    dictionary subscript and [ZeroDivisionError] from a float division. *)

From Stdlib Require Import ZArith QArith Qabs Qminmax Lqa Lia Bool String List.
From Stdlib Require Import Floats.
Import ListNotations.

Set Warnings "-inexact-float".

(** ** Python values shared by the two readings *)
Module Py.

Inductive exn : Type :=
| KeyError (key : string)
| ZeroDivisionError.

Inductive result (A : Type) : Type :=
| Ok (a : A)
| Raise (e : exn).

Arguments Ok {A} a.
Arguments Raise {A} e.

Definition bind {A B : Type} (m : result A) (k : A -> result B) : result B :=
  match m with
  | Ok a => k a
  | Raise e => Raise e
  end.

(** A dict literal keeps its insertion order ([list(d.keys())] is used by the
    select boxes), so it is an association list. *)
Definition dict (V : Type) : Type := list (string * V).

(** [d[k]]: the value stored under [k], or [KeyError]. *)
Fixpoint getitem {V : Type} (d : dict V) (k : string) : result V :=
  match d with
  | [] => Raise (KeyError k)
  | (k', v) :: d' => if String.eqb k' k then Ok v else getitem d' k
  end.

(** [list(d.keys())] *)
Definition keys {V : Type} (d : dict V) : list string := map fst d.

End Py.

Import Py.

Declare Scope py_scope.
Notation "x <- m ;; k" := (Py.bind m (fun x => k))
  (at level 61, m at next level, right associativity) : py_scope.
Open Scope py_scope.
Open Scope string_scope.

(** ** The script on IEEE 754 binary64 *)
Module Binary64.

Open Scope float_scope.

(** The builtin [max(a, b)]: the first argument unless the second is greater.
    A NaN never compares greater, so [max(a, nan)] is [a]. *)
Definition max (a b : float) : float := if a <? b then b else a.

(** The builtin [min(a, b)]: the first argument unless the second is smaller. *)
Definition min (a b : float) : float := if b <? a then b else a.

Definition G_SI : float := 9.80665.
Definition RHO_WATER_4C : float := 1000.0.

Definition FLOW_UNITS : dict float :=
  [ ("m³/s", 1.0);
    ("L/s", 1e-3);
    ("L/min", 1e-3 / 60.0);
    ("m³/h", 1.0 / 3600.0);
    ("gpm (US)", 0.003785411784 / 60.0);
    ("ft³/s", 0.028316846592) ].

Definition HEAD_UNITS : dict float :=
  [ ("m", 1.0);
    ("ft", 0.3048) ].

Definition EFF_UNITS : dict float :=
  [ ("%", 0.01);
    ("fraction", 1.0) ].

Definition to_si_flow (value : float) (unit : string) : result float :=
  f <- getitem FLOW_UNITS unit ;; Ok (value * f).

Definition to_si_head (value : float) (unit : string) : result float :=
  f <- getitem HEAD_UNITS unit ;; Ok (value * f).

Definition to_fraction (value : float) (unit : string) : result float :=
  f <- getitem EFF_UNITS unit ;; Ok (max 1e-6 (min 0.999999 (value * f))).

Definition sg_to_density (sg : float) : float :=
  max 1e-6 sg * RHO_WATER_4C.

(** [P_h = rho * g * Q * H] in W, divided by the literal [1000.0]: this
    division cannot raise. *)
Definition hydraulic_power_kw (rho g Q H : float) : float :=
  (rho * g * Q * H) / 1000.0.

(** A float division raises [ZeroDivisionError] when the divisor compares
    equal to zero (either sign); it returns infinities and NaNs otherwise. *)
Definition shaft_power_kw (P_h_kw eff_frac : float) : result float :=
  if eff_frac =? 0 then Raise ZeroDivisionError else Ok (P_h_kw / eff_frac).

Definition kw_to_hp (kw : float) : float :=
  kw * 1.34102209.

(** The values the sidebar widgets hand to the script. *)
Record inputs : Type := mk_inputs {
  Q_val : float;
  Q_unit : string;
  H_val : float;
  H_unit : string;
  sg : float;
  rho_override : bool;
  rho_custom : float;
  eff_val : float;
  eff_unit : string;
  g_val : float
}.

(** The variables the script body binds and then renders. *)
Record outputs : Type := mk_outputs {
  Q_si : float;
  H_si : float;
  eta : float;
  rho : float;
  P_h_kw : float;
  P_shaft_kw : float;
  P_h_hp : float;
  P_shaft_hp : float
}.

(** [rho = rho_custom if rho_override else sg_to_density(sg)] *)
Definition density (override : bool) (custom specific_gravity : float) : float :=
  if override then custom else sg_to_density specific_gravity.

(** The script body from "Convert inputs to SI" to the last power. *)
Definition script (i : inputs) : result outputs :=
  q <- to_si_flow (Q_val i) (Q_unit i) ;;
  h <- to_si_head (H_val i) (H_unit i) ;;
  e <- to_fraction (eff_val i) (eff_unit i) ;;
  let r := density (rho_override i) (rho_custom i) (sg i) in
  let p := hydraulic_power_kw r (g_val i) q h in
  s <- shaft_power_kw p e ;;
  Ok (mk_outputs q h e r p s (kw_to_hp p) (kw_to_hp s)).

(** The sidebar's initial values. *)
Definition defaults : inputs :=
  mk_inputs 0.05 "m³/s" 20.0 "m" 1.0 false 1000.0 70.0 "%" G_SI.

(** The initial values with the efficiency entered as the fraction [0.70]. *)
Definition scenario : inputs :=
  mk_inputs 0.05 "m³/s" 20.0 "m" 1.0 false 1000.0 0.70 "fraction" G_SI.

(** The initial values with the override box ticked and a custom density. *)
Definition with_custom_density (custom : float) : inputs :=
  mk_inputs 0.05 "m³/s" 20.0 "m" 1.0 true custom 70.0 "%" G_SI.

(** The same with the efficiency set to 100 %. *)
Definition full_efficiency_with_custom_density (custom : float) : inputs :=
  mk_inputs 0.05 "m³/s" 20.0 "m" 1.0 true custom 100.0 "%" G_SI.

(** The unit tags come from the select boxes: keys of the unit tables. *)
Definition widget_units (i : inputs) : Prop :=
  In (Q_unit i) (keys FLOW_UNITS) /\ In (H_unit i) (keys HEAD_UNITS) /\
  In (eff_unit i) ["%"; "fraction"].

(** The efficiency widgets say 100 %: [100] with ["%"] or [1] with
    ["fraction"]. *)
Definition full_efficiency (i : inputs) : Prop :=
  (eff_unit i = "%" /\ eff_val i = 100) \/
  (eff_unit i = "fraction" /\ eff_val i = 1).

End Binary64.

(** ** The script over exact rationals

    The text of [Binary64], with [Q] for [float]. *)
Module Exact.

Open Scope Q_scope.

(** [a < b] as a boolean, the test behind Python's [<] and [>]. *)
Definition ltb (a b : Q) : bool := negb (Qle_bool b a).

(** The builtin [max(a, b)]: the first argument unless the second is greater. *)
Definition max (a b : Q) : Q := if ltb a b then b else a.

(** The builtin [min(a, b)]: the first argument unless the second is smaller. *)
Definition min (a b : Q) : Q := if ltb b a then b else a.

Definition G_SI : Q := 9.80665.
Definition RHO_WATER_4C : Q := 1000.0.

Definition FLOW_UNITS : dict Q :=
  [ ("m³/s", 1.0);
    ("L/s", 1e-3);
    ("L/min", 1e-3 / 60.0);
    ("m³/h", 1.0 / 3600.0);
    ("gpm (US)", 0.003785411784 / 60.0);
    ("ft³/s", 0.028316846592) ].

Definition HEAD_UNITS : dict Q :=
  [ ("m", 1.0);
    ("ft", 0.3048) ].

Definition EFF_UNITS : dict Q :=
  [ ("%", 0.01);
    ("fraction", 1.0) ].

Definition to_si_flow (value : Q) (unit : string) : result Q :=
  f <- getitem FLOW_UNITS unit ;; Ok (value * f).

Definition to_si_head (value : Q) (unit : string) : result Q :=
  f <- getitem HEAD_UNITS unit ;; Ok (value * f).

Definition to_fraction (value : Q) (unit : string) : result Q :=
  f <- getitem EFF_UNITS unit ;; Ok (max 1e-6 (min 0.999999 (value * f))).

Definition sg_to_density (sg : Q) : Q :=
  max 1e-6 sg * RHO_WATER_4C.

Definition hydraulic_power_kw : Q -> Q -> Q -> Q -> Q :=
  fun rho g Q H => (rho * g * Q * H) / 1000.0.

(** [ZeroDivisionError] when the divisor equals zero. *)
Definition shaft_power_kw (P_h_kw eff_frac : Q) : result Q :=
  if Qeq_bool eff_frac 0 then Raise ZeroDivisionError else Ok (P_h_kw / eff_frac).

Definition kw_to_hp (kw : Q) : Q :=
  kw * 1.34102209.

Record inputs : Type := mk_inputs {
  Q_val : Q;
  Q_unit : string;
  H_val : Q;
  H_unit : string;
  sg : Q;
  rho_override : bool;
  rho_custom : Q;
  eff_val : Q;
  eff_unit : string;
  g_val : Q
}.

Record outputs : Type := mk_outputs {
  Q_si : Q;
  H_si : Q;
  eta : Q;
  rho : Q;
  P_h_kw : Q;
  P_shaft_kw : Q;
  P_h_hp : Q;
  P_shaft_hp : Q
}.

(** [rho = rho_custom if rho_override else sg_to_density(sg)] *)
Definition density (override : bool) (custom specific_gravity : Q) : Q :=
  if override then custom else sg_to_density specific_gravity.

(** The script body from "Convert inputs to SI" to the last power. *)
Definition script (i : inputs) : result outputs :=
  q <- to_si_flow (Q_val i) (Q_unit i) ;;
  h <- to_si_head (H_val i) (H_unit i) ;;
  e <- to_fraction (eff_val i) (eff_unit i) ;;
  let r := density (rho_override i) (rho_custom i) (sg i) in
  let p := hydraulic_power_kw r (g_val i) q h in
  s <- shaft_power_kw p e ;;
  Ok (mk_outputs q h e r p s (kw_to_hp p) (kw_to_hp s)).

(** What the widgets guarantee: [min_value=0.0] on every number input and
    a select box over the keys of the unit table. *)
Definition widget_values (i : inputs) : Prop :=
  0 <= Q_val i /\ 0 <= H_val i /\ 0 <= sg i /\ 0 <= rho_custom i /\
  0 <= eff_val i /\ 0 <= g_val i /\
  In (Q_unit i) (keys FLOW_UNITS) /\ In (H_unit i) (keys HEAD_UNITS) /\
  In (eff_unit i) ["%"; "fraction"].

(** The sidebar's initial values. *)
Definition defaults : inputs :=
  mk_inputs 0.05 "m³/s" 20.0 "m" 1.0 false 1000.0 70.0 "%" G_SI.

(** The initial values with the efficiency entered as the fraction [0.70]. *)
Definition scenario : inputs :=
  mk_inputs 0.05 "m³/s" 20.0 "m" 1.0 false 1000.0 0.70 "fraction" G_SI.

(** The initial values with the override box ticked and a custom density. *)
Definition with_custom_density (custom : Q) : inputs :=
  mk_inputs 0.05 "m³/s" 20.0 "m" 1.0 true custom 70.0 "%" G_SI.

(** The initial values with the efficiency set to 100 %. *)
Definition at_full_efficiency : inputs :=
  mk_inputs 0.05 "m³/s" 20.0 "m" 1.0 false 1000.0 100.0 "%" G_SI.

(** The efficiency widgets say 100 %: [100] with ["%"] or [1] with
    ["fraction"]. *)
Definition full_efficiency (i : inputs) : Prop :=
  (eff_unit i = "%" /\ eff_val i == 100) \/
  (eff_unit i = "fraction" /\ eff_val i == 1).

End Exact.

(** ** Classes of binary64 values, read on their specification *)
Module Spec64.

(** Zero of either sign, a positive finite number or plus infinity: the
    values [x] with [0 <= x]. *)
Definition nonneg (x : spec_float) : bool :=
  match x with
  | S754_zero _ | S754_finite false _ _ | S754_infinity false => true
  | _ => false
  end.

(** Neither an infinity nor NaN. *)
Definition finite (x : spec_float) : bool :=
  match x with
  | S754_zero _ | S754_finite _ _ _ => true
  | _ => false
  end.

Definition zero (x : spec_float) : bool :=
  match x with
  | S754_zero _ => true
  | _ => false
  end.

(** The mantissa of the literal [0.999999], whose exponent is [-53]. *)
Definition clamp_mantissa : positive := 9007190247541737.

Local Open Scope Z_scope.

(** The position of the fraction [N / W] in the cell from [m] to [m + 1]:
    on [m], below the middle, on the middle or above it. *)
Definition locate (N W m : Z) : location :=
  if N =? m * W then loc_Exact
  else loc_Inexact (2 * N ?= (2 * m + 1) * W).

(** [m] is the integer part of [N / W] and [l] the position of [N / W]
    above it. *)
Definition enc (N W m : Z) (l : location) : Prop :=
  m * W <= N < (m + 1) * W /\ l = locate N W m.

(** A rounded mantissa that has reached [2^53] loses its last bit. *)
Definition renorm (a e : Z) : Z * Z :=
  if a <? 2 ^ 53 then (a, e) else (2 ^ 52, e + 1).

(** The float with mantissa [b] and exponent [e]: plus infinity when the
    exponent is above the largest one. *)
Definition pack (be : Z * Z) : spec_float :=
  match fst be with
  | Zpos m => if snd be <=? 971 then S754_finite false m (snd be)
              else S754_infinity false
  | Z0 => S754_zero false
  | Zneg _ => S754_nan
  end.

End Spec64.

(** * Properties *)

(** ** Exact arithmetic: comparisons, [max], [min] and division *)
Section ExactArithmetic.

Open Scope Q_scope.

Lemma exact_ltb_lt (a b : Q) : Exact.ltb a b = true <-> a < b.
Proof.
  unfold Exact.ltb. rewrite negb_true_iff, <- not_true_iff_false, Qle_bool_iff.
  split; [apply Qnot_le_lt | apply Qlt_not_le].
Qed.

Lemma exact_ltb_ge (a b : Q) : Exact.ltb a b = false <-> b <= a.
Proof.
  unfold Exact.ltb. rewrite negb_false_iff. apply Qle_bool_iff.
Qed.

Lemma exact_max_cases (a b : Q) :
  (a < b /\ Exact.max a b = b) \/ (b <= a /\ Exact.max a b = a).
Proof.
  unfold Exact.max. destruct (Exact.ltb a b) eqn:E.
  - left. split; [now apply exact_ltb_lt | reflexivity].
  - right. split; [now apply exact_ltb_ge | reflexivity].
Qed.

Lemma exact_min_cases (a b : Q) :
  (b < a /\ Exact.min a b = b) \/ (a <= b /\ Exact.min a b = a).
Proof.
  unfold Exact.min. destruct (Exact.ltb b a) eqn:E.
  - left. split; [now apply exact_ltb_lt | reflexivity].
  - right. split; [now apply exact_ltb_ge | reflexivity].
Qed.

(** The clamp of [to_fraction] stays between its two literals. *)
Lemma exact_clamp_bounds (x : Q) :
  1e-6 <= Exact.max 1e-6 (Exact.min 0.999999 x) <= 0.999999.
Proof.
  destruct (exact_max_cases 1e-6 (Exact.min 0.999999 x)) as [[H ->] | [H ->]];
    [ | split; [apply Qle_refl | discriminate] ].
  destruct (exact_min_cases 0.999999 x) as [[G E] | [G E]]; rewrite E in *.
  - split; apply Qlt_le_weak; assumption.
  - split; [discriminate | apply Qle_refl].
Qed.

(** Division by a divisor that is not zero returns the quotient. *)
Lemma exact_shaft_defined (p e : Q) :
  ~ e == 0 -> Exact.shaft_power_kw p e = Ok (p / e).
Proof.
  intros He. unfold Exact.shaft_power_kw.
  destruct (Qeq_bool e 0) eqn:E; [ | reflexivity].
  apply Qeq_bool_iff in E. contradiction.
Qed.

Lemma exact_shaft_raises (p e : Q) :
  e == 0 -> Exact.shaft_power_kw p e = Raise ZeroDivisionError.
Proof.
  intros He. unfold Exact.shaft_power_kw.
  apply Qeq_bool_iff in He. now rewrite He.
Qed.

(** A quotient by a positive divisor, against a bound. *)
Lemma exact_div_lt (a b c : Q) : 0 < c -> a < b * c -> a / c < b.
Proof. intros Hc H. now apply Qlt_shift_div_r. Qed.

Lemma exact_lt_div (a b c : Q) : 0 < c -> a * c < b -> a < b / c.
Proof. intros Hc H. now apply Qlt_shift_div_l. Qed.

Lemma exact_le_div (a b c : Q) : 0 < c -> a * c <= b -> a <= b / c.
Proof. intros Hc H. now apply Qle_shift_div_l. Qed.

(** For a positive numerator the quotient falls as the divisor grows. *)
Lemma exact_div_antitone (h e1 e2 : Q) :
  0 < h -> 0 < e1 -> e1 < e2 -> h / e2 < h / e1.
Proof.
  intros Hh H1 H12.
  assert (H2 : 0 < e2) by (eapply Qlt_trans; eassumption).
  apply exact_lt_div; [assumption | ].
  assert (E : h / e2 * e1 == (h * e1) / e2).
  { field. intro Z. rewrite Z in H2. discriminate. }
  rewrite E. apply exact_div_lt; [assumption | ].
  rewrite (Qmult_comm h e1), (Qmult_comm h e2).
  apply Qmult_lt_compat_r; assumption.
Qed.

End ExactArithmetic.

(** ** Binary64: what the comparisons guarantee, for every float *)
Section Binary64Comparisons.

Open Scope float_scope.

Lemma b64_floor_repr : Prim2SF 1e-6 = S754_finite false 4722366482869645 (-72).
Proof. vm_compute. reflexivity. Qed.

Lemma b64_zero_repr : Prim2SF 0 = S754_zero false.
Proof. vm_compute. reflexivity. Qed.

Lemma b64_ltb_leb (a b : float) : (a <? b) = true -> (a <=? b) = true.
Proof.
  rewrite ltb_spec, leb_spec. unfold SFltb, SFleb.
  destruct (SFcompare (Prim2SF a) (Prim2SF b)) as [[ | | ] | ]; easy.
Qed.

(** A float above the floor [1e-6] does not compare equal to zero. *)
Lemma b64_above_floor_nonzero (x : float) : (1e-6 <? x) = true -> (x =? 0) = false.
Proof.
  rewrite ltb_spec, eqb_spec, b64_floor_repr, b64_zero_repr.
  unfold SFltb, SFeqb.
  destruct (Prim2SF x) as [s | s | | s m e]; simpl; try discriminate.
  - destruct s; reflexivity.
  - destruct s; reflexivity.
Qed.

(** A float that is at most zero is not above the floor. *)
Lemma b64_nonpositive_below_floor (x : float) : (x <=? 0) = true -> (1e-6 <? x) = false.
Proof.
  rewrite ltb_spec, leb_spec, b64_floor_repr, b64_zero_repr.
  unfold SFltb, SFleb.
  destruct (Prim2SF x) as [s | s | | s m e]; simpl; try discriminate;
    destruct s; simpl; try discriminate; reflexivity.
Qed.

(** The clamp of [to_fraction] stays between its two literals and away from
    zero, whatever float it is given (infinities and NaN included). *)
Lemma b64_clamp_bounds (x : float) :
  let r := Binary64.max 1e-6 (Binary64.min 0.999999 x) in
  (1e-6 <=? r) = true /\ (r <=? 0.999999) = true /\ (r =? 0) = false.
Proof.
  unfold Binary64.max, Binary64.min.
  destruct (x <? 0.999999) eqn:A.
  - destruct (1e-6 <? x) eqn:B.
    + repeat split; auto using b64_ltb_leb, b64_above_floor_nonzero.
    + repeat split; vm_compute; reflexivity.
  - repeat split; vm_compute; reflexivity.
Qed.

End Binary64Comparisons.

(** ** Binary64: signs and zeros of products and quotients *)
Section Binary64Signs.

Local Open Scope Z_scope.

Lemma shr_1_nonneg (mrs : shr_record) :
  0 <= shr_m mrs -> 0 <= shr_m (shr_1 mrs).
Proof.
  destruct mrs as [m r s]. destruct m as [ | [p | p | ] | p]; simpl; lia.
Qed.

Lemma iter_pos_invariant {A : Type} (f : A -> A) (P : A -> Prop) :
  (forall x, P x -> P (f x)) -> forall n x, P x -> P (iter_pos f n x).
Proof.
  intros Hf. induction n as [n IH | n IH | ]; simpl; auto.
Qed.

Lemma shr_fexp_nonneg (m e : Z) (l : location) :
  0 <= m -> 0 <= shr_m (fst (shr_fexp prec emax m e l)).
Proof.
  intros Hm. unfold shr_fexp, shr.
  assert (H0 : 0 <= shr_m (shr_record_of_loc m l))
    by (destruct l as [ | [ | | ]]; exact Hm).
  destruct (fexp prec emax (Zdigits2 m + e) - e); simpl; try exact H0.
  apply (iter_pos_invariant shr_1 (fun r => 0 <= shr_m r)); [ | exact H0].
  apply shr_1_nonneg.
Qed.

Lemma round_nearest_even_nonneg (m : Z) (l : location) :
  0 <= m -> 0 <= round_nearest_even m l.
Proof.
  intros Hm. destruct l as [ | [ | | ]]; simpl; try lia.
  destruct (Z.even m); lia.
Qed.

(** Rounding a non-negative mantissa with a positive sign gives zero, a
    positive number or plus infinity: never NaN, never a negative number. *)
Lemma binary_round_aux_nonneg (m e : Z) (l : location) :
  0 <= m -> Spec64.nonneg (binary_round_aux prec emax false m e l) = true.
Proof.
  intros Hm. unfold binary_round_aux.
  pose proof (shr_fexp_nonneg m e l Hm) as H1.
  destruct (shr_fexp prec emax m e l) as [mrs1 e1]. simpl in H1.
  pose proof (shr_fexp_nonneg _ e1 loc_Exact
                (round_nearest_even_nonneg _ (loc_of_shr_record mrs1) H1)) as H2.
  destruct (shr_fexp prec emax _ e1 loc_Exact) as [mrs2 e2]. simpl in H2.
  destruct (shr_m mrs2) as [ | p | p]; [reflexivity | | lia].
  destruct (e2 <=? emax - prec); reflexivity.
Qed.

(** A product of non-negative values is non-negative, unless it is the NaN
    of zero times infinity. *)
Lemma SF64mul_nonneg (x y : spec_float) :
  Spec64.nonneg x = true -> Spec64.nonneg y = true ->
  SF64mul x y = S754_nan \/ Spec64.nonneg (SF64mul x y) = true.
Proof.
  destruct x as [sx | [ | ] | | [ | ] mx ex]; try discriminate;
    destruct y as [sy | [ | ] | | [ | ] my ey]; try discriminate;
    intros _ _; simpl; auto.
  right. apply binary_round_aux_nonneg. lia.
Qed.

(** A finite product has finite factors. *)
Lemma SF64mul_finite_inv (x y : spec_float) :
  Spec64.finite (SF64mul x y) = true ->
  Spec64.finite x = true /\ Spec64.finite y = true.
Proof.
  destruct x as [sx | sx | | sx mx ex]; destruct y as [sy | sy | | sy my ey];
    simpl; auto; discriminate.
Qed.

(** Zero times a finite value is zero. *)
Lemma SF64mul_zero_l (x y : spec_float) :
  Spec64.zero x = true -> Spec64.finite y = true ->
  Spec64.zero (SF64mul x y) = true.
Proof.
  destruct x as [sx | sx | | sx mx ex]; try discriminate;
    destruct y as [sy | sy | | sy my ey]; try discriminate; reflexivity.
Qed.

Lemma SF64mul_zero_r (x y : spec_float) :
  Spec64.finite x = true -> Spec64.zero y = true ->
  Spec64.zero (SF64mul x y) = true.
Proof.
  destruct x as [sx | sx | | sx mx ex]; try discriminate;
    destruct y as [sy | sy | | sy my ey]; try discriminate; reflexivity.
Qed.

Lemma SFdiv_core_binary_nonneg (m1 m2 : positive) (e1 e2 : Z) :
  0 <= fst (fst (SFdiv_core_binary prec emax (Zpos m1) e1 (Zpos m2) e2)).
Proof.
  unfold SFdiv_core_binary.
  set (s := e1 - e2 - _).
  set (m' := match s with Z0 => Zpos m1 | Zpos _ => Z.shiftl (Zpos m1) s | Zneg _ => 0 end).
  assert (Hm' : 0 <= m').
  { subst m'. destruct s; try lia. apply Z.shiftl_nonneg. lia. }
  pose proof (Z.div_pos m' (Zpos m2) Hm' eq_refl) as Hq.
  unfold Z.div in Hq.
  destruct (Z.div_eucl m' (Zpos m2)) as [q r]. exact Hq.
Qed.

(** Dividing by a positive finite number keeps a value non-negative and
    keeps a zero. *)
Lemma SF64div_nonneg (x : spec_float) (m : positive) (e : Z) :
  Spec64.nonneg x = true ->
  Spec64.nonneg (SF64div x (S754_finite false m e)) = true.
Proof.
  destruct x as [sx | [ | ] | | [ | ] mx ex]; try discriminate;
    intros _; try reflexivity.
  unfold SF64div, SFdiv.
  pose proof (SFdiv_core_binary_nonneg mx m ex e) as H.
  destruct (SFdiv_core_binary prec emax (Zpos mx) ex (Zpos m) e) as [[mz ez] lz].
  apply binary_round_aux_nonneg. exact H.
Qed.

Lemma SF64div_zero (x : spec_float) (m : positive) (e : Z) :
  Spec64.zero x = true ->
  Spec64.zero (SF64div x (S754_finite false m e)) = true.
Proof.
  destruct x as [sx | sx | | sx mx ex]; try discriminate; reflexivity.
Qed.

(** A product of finite non-negative values is non-negative: zero, a positive
    number, or plus infinity when it overflows. *)
Lemma SF64mul_finite_nonneg (x y : spec_float) :
  Spec64.nonneg x = true -> Spec64.finite x = true ->
  Spec64.nonneg y = true -> Spec64.finite y = true ->
  Spec64.nonneg (SF64mul x y) = true.
Proof.
  intros Nx Fx Ny Fy.
  destruct (SF64mul_nonneg x y Nx Ny) as [E | E]; [ | exact E].
  destruct x as [sx | sx | | sx mx ex]; try discriminate;
    destruct y as [sy | sy | | sy my ey]; try discriminate.
  destruct sx; try discriminate. destruct sy; try discriminate.
  assert (B : Spec64.nonneg
                (binary_round_aux prec emax false (Zpos (mx * my)) (ex + ey)
                   loc_Exact) = true)
    by (apply binary_round_aux_nonneg; lia).
  change (SF64mul (S754_finite false mx ex) (S754_finite false my ey))
    with (binary_round_aux prec emax false (Zpos (mx * my)) (ex + ey) loc_Exact)
    in E.
  rewrite E in B. discriminate B.
Qed.

End Binary64Signs.

(** ** Binary64: the hydraulic power away from overflow *)
Section Binary64HydraulicPower.

Open Scope float_scope.

Lemma b64_infinity_repr : Prim2SF infinity = S754_infinity false.
Proof. vm_compute. reflexivity. Qed.

Lemma b64_thousand_repr :
  Prim2SF 1000.0 = S754_finite false 8796093022208000 (-43).
Proof. vm_compute. reflexivity. Qed.

Lemma b64_nonneg_spec (x : float) :
  (0 <=? x) = true <-> Spec64.nonneg (Prim2SF x) = true.
Proof.
  rewrite leb_spec, b64_zero_repr. unfold SFleb.
  destruct (Prim2SF x) as [s | [ | ] | | [ | ] m e]; simpl; split; congruence.
Qed.

Lemma b64_zero_spec (x : float) :
  (x =? 0) = true <-> Spec64.zero (Prim2SF x) = true.
Proof.
  rewrite eqb_spec, b64_zero_repr. unfold SFeqb.
  destruct (Prim2SF x) as [s | [ | ] | | [ | ] m e]; simpl; split; congruence.
Qed.

(** Below plus infinity a float is not NaN, and if it is also non-negative
    it is finite. *)
Lemma b64_below_infinity (x : float) :
  (x <? infinity) = true ->
  Prim2SF x <> S754_nan /\
  (Spec64.nonneg (Prim2SF x) = true -> Spec64.finite (Prim2SF x) = true).
Proof.
  rewrite ltb_spec, b64_infinity_repr. unfold SFltb.
  destruct (Prim2SF x) as [s | [ | ] | | [ | ] m e]; simpl; split;
    congruence.
Qed.

Lemma b64_hydraulic_power_sign (rho g flow head : float) :
  (0 <=? rho) = true -> (0 <=? g) = true ->
  (0 <=? flow) = true -> (0 <=? head) = true ->
  (rho * g * flow <? infinity) = true -> (head <? infinity) = true ->
  (0 <=? Binary64.hydraulic_power_kw rho g flow head) = true /\
  ((rho =? 0) = true \/ (flow =? 0) = true \/ (head =? 0) = true ->
   (Binary64.hydraulic_power_kw rho g flow head =? 0) = true).
Proof.
  intros Hr Hg Hq Hh Hfin Hhfin.
  apply b64_nonneg_spec in Hr, Hg, Hq, Hh.
  destruct (b64_below_infinity _ Hfin) as [Hnan2 Hfin2].
  destruct (b64_below_infinity _ Hhfin) as [_ Hhfin'].
  specialize (Hhfin' Hh).
  unfold Binary64.hydraulic_power_kw.
  rewrite b64_nonneg_spec, !b64_zero_spec.
  rewrite div_spec, b64_thousand_repr, !mul_spec.
  rewrite !mul_spec in Hnan2, Hfin2.
  set (R := Prim2SF rho) in *. set (G := Prim2SF g) in *.
  set (F := Prim2SF flow) in *. set (H := Prim2SF head) in *.
  (* the partial products are non-negative and finite *)
  assert (N1 : Spec64.nonneg (SF64mul R G) = true).
  { destruct (SF64mul_nonneg R G Hr Hg) as [E | E]; [ | exact E].
    exfalso. apply Hnan2. rewrite E. reflexivity. }
  assert (N2 : Spec64.nonneg (SF64mul (SF64mul R G) F) = true).
  { destruct (SF64mul_nonneg _ F N1 Hq) as [E | E]; [ | exact E].
    contradiction. }
  specialize (Hfin2 N2).
  destruct (SF64mul_finite_inv _ _ Hfin2) as [F1 FF].
  destruct (SF64mul_finite_inv _ _ F1) as [FR FG].
  split.
  - apply SF64div_nonneg. apply SF64mul_finite_nonneg; assumption.
  - intros Hz. apply SF64div_zero.
    destruct Hz as [Z | [Z | Z]].
    + apply SF64mul_zero_l; [ | exact Hhfin'].
      apply SF64mul_zero_l; [ | exact FF].
      apply SF64mul_zero_l; assumption.
    + apply SF64mul_zero_l; [ | exact Hhfin'].
      apply SF64mul_zero_r; assumption.
    + apply SF64mul_zero_r; assumption.
Qed.

End Binary64HydraulicPower.

(** ** Binary64: dividing a normal number by the clamp [0.999999] *)
Section Binary64Division.
Local Open Scope Z_scope.

Lemma digits2_pos_bounds (p : positive) :
  2 ^ (Zpos (digits2_pos p) - 1) <= Zpos p < 2 ^ Zpos (digits2_pos p).
Proof.
  induction p as [p IH | p IH | ]; simpl digits2_pos.
  - rewrite Pos2Z.inj_succ.
    replace (Z.succ (Zpos (digits2_pos p)) - 1) with (Z.succ (Zpos (digits2_pos p) - 1)) by lia.
    rewrite !Z.pow_succ_r by lia. lia.
  - rewrite Pos2Z.inj_succ.
    replace (Z.succ (Zpos (digits2_pos p)) - 1) with (Z.succ (Zpos (digits2_pos p) - 1)) by lia.
    rewrite !Z.pow_succ_r by lia. lia.
  - simpl. lia.
Qed.

Lemma digits2_pos_unique (p : positive) (k : Z) :
  2 ^ (k - 1) <= Zpos p < 2 ^ k -> Zpos (digits2_pos p) = k.
Proof.
  intros [Hl Hu]. pose proof (digits2_pos_bounds p) as [Dl Du].
  set (d := Zpos (digits2_pos p)) in *.
  assert (0 < k).
  { destruct (Z.lt_trichotomy k 0) as [N | [N | N]]; try lia.
    - rewrite (Z.pow_neg_r 2 k N) in Hu. lia.
    - subst k. simpl in Hu. lia. }
  destruct (Z.lt_trichotomy d k) as [N | [N | N]]; [ | exact N | ].
  - assert (2 ^ d <= 2 ^ (k - 1)) by (apply Z.pow_le_mono_r; lia). lia.
  - assert (2 ^ k <= 2 ^ (d - 1)) by (apply Z.pow_le_mono_r; lia). lia.
Qed.

(** One application of [shr_fexp] to a mantissa of 53 or 54 bits above the
    subnormal range: it is kept, or it loses one bit and the exponent grows. *)
Lemma shr_fexp_normal (q e : Z) (l : location) :
  2 ^ 52 <= q < 2 ^ 54 -> -1074 <= e ->
  exists mrs e',
    shr_fexp prec emax q e l = (mrs, e') /\
    2 ^ 52 <= shr_m mrs < 2 ^ 53 /\
    ((e' = e /\ shr_m mrs = q /\ loc_of_shr_record mrs = l) \/ e' = e + 1).
Proof.
  intros [Hl Hu] He.
  destruct q as [ | p | p]; try lia.
  unfold shr_fexp. cbn [Zdigits2].
  destruct (Z.ltb_spec (Zpos p) (2 ^ 53)) as [Hs | Hs].
  - rewrite (digits2_pos_unique p 53) by (split; [exact Hl | exact Hs]).
    replace (fexp prec emax (53 + e) - e) with 0
      by (unfold fexp, emin, prec, emax; lia).
    eexists _, _. split; [reflexivity | ].
    assert (shr_m (shr_record_of_loc (Zpos p) l) = Zpos p)
      by (destruct l as [ | [ | | ]]; reflexivity).
    assert (loc_of_shr_record (shr_record_of_loc (Zpos p) l) = l)
      by (destruct l as [ | [ | | ]]; reflexivity).
    split; [lia | left; auto].
  - rewrite (digits2_pos_unique p 54) by (split; [exact Hs | exact Hu]).
    replace (fexp prec emax (54 + e) - e) with 1
      by (unfold fexp, emin, prec, emax; lia).
    cbn [shr iter_pos].
    eexists _, _. split; [reflexivity | ].
    split; [ | right; reflexivity].
    destruct l as [ | [ | | ]]; destruct p as [p | p | ]; cbn; lia.
Qed.

Lemma round_nearest_even_bounds (m : Z) (l : location) :
  m <= round_nearest_even m l <= m + 1.
Proof.
  destruct l as [ | [ | | ]]; simpl; try lia. destruct (Z.even m); lia.
Qed.

(** Rounding a mantissa of 53 or 54 bits, above the subnormal range: the
    result is plus infinity, or a positive number whose exponent has grown,
    or one with the same exponent and a mantissa that is not smaller. *)
Lemma binary_round_aux_normal (q e : Z) (l : location) :
  2 ^ 52 <= q < 2 ^ 54 -> -1074 <= e ->
  binary_round_aux prec emax false q e l = S754_infinity false \/
  exists m2 e2,
    binary_round_aux prec emax false q e l = S754_finite false m2 e2 /\
    (e < e2 \/ (e2 = e /\ q <= Zpos m2)).
Proof.
  intros Hq He. unfold binary_round_aux.
  destruct (shr_fexp_normal q e l Hq He) as (mrs1 & e1 & -> & B1 & C1).
  pose proof (round_nearest_even_bounds (shr_m mrs1) (loc_of_shr_record mrs1)) as R.
  set (a := round_nearest_even (shr_m mrs1) (loc_of_shr_record mrs1)) in *.
  assert (Ha : 2 ^ 52 <= a < 2 ^ 54) by lia.
  assert (He1 : -1074 <= e1) by (destruct C1 as [(-> & _) | ->]; lia).
  destruct (shr_fexp_normal a e1 loc_Exact Ha He1) as (mrs2 & e2 & -> & B2 & C2).
  destruct (shr_m mrs2) as [ | m2 | m2] eqn:M2; try lia.
  destruct (e2 <=? emax - prec); [ | left; reflexivity].
  right. exists m2, e2. split; [reflexivity | ].
  destruct C1 as [(-> & Q1 & _) | ->]; destruct C2 as [(-> & Q2 & _) | ->];
    try (left; lia).
  right. split; [reflexivity | ]. lia.
Qed.

(** The quotient of a 53-bit mantissa by the mantissa of [0.999999]. *)
Lemma SFdiv_core_binary_clamp (m : positive) (e : Z) :
  Zpos (digits2_pos m) = 53 -> -1074 <= e ->
  exists q l,
    SFdiv_core_binary prec emax (Zpos m) e (Zpos Spec64.clamp_mantissa) (-53) = (q, e, l) /\
    Zpos m < q < 2 ^ 54.
Proof.
  intros Hd He. unfold SFdiv_core_binary. cbn [Zdigits2]. rewrite Hd.
  replace (Zpos (digits2_pos Spec64.clamp_mantissa)) with 53 by reflexivity.
  replace (Z.min (fexp prec emax (53 + e - (53 + -53))) (e - -53)) with e
    by (unfold fexp, emin, prec, emax; lia).
  replace (e - -53 - e) with 53 by lia. cbv beta iota zeta.
  rewrite Z.shiftl_mul_pow2 by lia.
  pose proof (digits2_pos_bounds m) as [Dl Du]. rewrite Hd in Dl, Du.
  assert (Hq : Zpos m < Zpos m * 2 ^ 53 / Zpos Spec64.clamp_mantissa < 2 ^ 54).
  { assert (Zpos m + 1 <= Zpos m * 2 ^ 53 / Zpos Spec64.clamp_mantissa).
    { apply Z.div_le_lower_bound; [reflexivity | ]. unfold Spec64.clamp_mantissa. lia. }
    assert (Zpos m * 2 ^ 53 / Zpos Spec64.clamp_mantissa < 2 ^ 54).
    { apply Z.div_lt_upper_bound; [reflexivity | ]. unfold Spec64.clamp_mantissa. lia. }
    lia. }
  unfold Z.div in Hq.
  destruct (Z.div_eucl (Zpos m * 2 ^ 53) (Zpos Spec64.clamp_mantissa)) as [q r].
  eexists _, _. split; [reflexivity | exact Hq].
Qed.

(** A positive normal number is below its quotient by [0.999999]. *)
Lemma SF64div_clamp_gt (m : positive) (e : Z) :
  Zpos (digits2_pos m) = 53 -> bounded prec emax m e = true ->
  SFltb (S754_finite false m e)
        (SF64div (S754_finite false m e) (S754_finite false Spec64.clamp_mantissa (-53)))
  = true.
Proof.
  intros Hd Hb. unfold bounded, canonical_mantissa in Hb.
  apply andb_prop in Hb. destruct Hb as [Hc _].
  apply Z.eqb_eq in Hc. rewrite Hd in Hc.
  assert (He : -1074 <= e) by (unfold fexp, emin, prec, emax in Hc; lia).
  unfold SF64div, SFdiv.
  destruct (SFdiv_core_binary_clamp m e Hd He) as (q & l & -> & Hq).
  cbv beta iota zeta. cbn [xorb].
  pose proof (digits2_pos_bounds m) as [Dl _]. rewrite Hd in Dl.
  destruct (binary_round_aux_normal q e l) as [-> | (m2 & e2 & -> & C)];
    [lia | exact He | reflexivity | ].
  unfold SFltb, SFcompare.
  destruct C as [C | [-> C]].
  - apply Z.compare_lt_iff in C. rewrite C. reflexivity.
  - rewrite Z.compare_refl.
    assert (L : (m < m2)%positive) by lia.
    rewrite Pos.compare_cont_spec. simpl. unfold Pos.lt in L. rewrite L. reflexivity.
Qed.
End Binary64Division.

Lemma b64_clamp_repr : Prim2SF 0.999999 = S754_finite false Spec64.clamp_mantissa (-53).
Proof. vm_compute. reflexivity. Qed.

Lemma b64_div_clamp_gt (p : float) :
  classify p = PNormal -> (p <? p / 0.999999)%float = true.
Proof.
  intros Hc. rewrite classify_spec in Hc.
  pose proof (Prim2SF_valid p) as Hv.
  rewrite ltb_spec, div_spec, b64_clamp_repr.
  unfold SF64classify, SFclassify in Hc.
  destruct (Prim2SF p) as [[ | ] | [ | ] | | [ | ] m e]; try discriminate;
    destruct (Z.pos (digits2_pos m) =? prec)%Z eqn:D; try discriminate.
  apply Z.eqb_eq in D.
  apply SF64div_clamp_gt; [exact D | exact Hv].
Qed.

(** ** Binary64: quotients of a normal number by divisors in (0, 1] *)
Section Binary64Quotients.
Local Open Scope Z_scope.

(** The location computed from a remainder. *)
Lemma new_location_spec (W r : Z) :
  0 < W -> 0 <= r < W ->
  new_location W r
  = if r =? 0 then loc_Exact else loc_Inexact (2 * r ?= W).
Proof.
  intros HW Hr. unfold new_location, new_location_even, new_location_odd.
  destruct (Z.even W) eqn:P; [reflexivity | ].
  destruct (r =? 0); [reflexivity | ]. f_equal.
  assert (Z.odd W = true) by (rewrite <- Z.negb_even, P; reflexivity).
  assert (W <> 2 * r).
  { intros ->. rewrite Z.odd_mul in H. discriminate. }
  destruct (Z.compare_spec (2 * r + 1) W), (Z.compare_spec (2 * r) W);
    try reflexivity; lia.
Qed.

(** The quotient and the location the division computes describe the
    fraction. *)
Lemma enc_div_eucl (N W : Z) :
  0 < W -> 0 <= N ->
  Spec64.enc N W (fst (Z.div_eucl N W)) (new_location W (snd (Z.div_eucl N W))).
Proof.
  intros HW HN. pose proof (Z_div_mod N W ltac:(lia)) as D.
  destruct (Z.div_eucl N W) as [q r]. destruct D as [D R]. simpl.
  rewrite new_location_spec by lia. unfold Spec64.enc, Spec64.locate.
  split; [nia | ].
  destruct (Z.eqb_spec r 0), (Z.eqb_spec N (q * W)); try reflexivity; try nia.
  f_equal.
  destruct (Z.compare_spec (2 * r) W), (Z.compare_spec (2 * N) ((2 * q + 1) * W));
    try reflexivity; nia.
Qed.

(** The first [shr_fexp] of the rounding, on a mantissa of 53 or 54 bits
    above the subnormal range: a mantissa of 54 bits loses one, and the
    record still describes the fraction. *)
Lemma shr_fexp_enc (N W q e : Z) (l : location) :
  0 < W -> 2 ^ 52 <= q < 2 ^ 54 -> -1074 <= e -> Spec64.enc N W q l ->
  exists mrs n,
    shr_fexp prec emax q e l = (mrs, e + n) /\
    (n = 0 \/ n = 1) /\ (q < 2 ^ 53 <-> n = 0) /\
    2 ^ 52 <= shr_m mrs < 2 ^ 53 /\
    2 ^ n * shr_m mrs <= q /\
    Spec64.enc N (W * 2 ^ n) (shr_m mrs) (loc_of_shr_record mrs).
Proof.
  intros HW [Hl Hu] He [Hc Hloc].
  destruct q as [ | p | p]; try lia.
  unfold shr_fexp. cbn [Zdigits2].
  destruct (Z.ltb_spec (Zpos p) (2 ^ 53)) as [Hs | Hs].
  - rewrite (digits2_pos_unique p 53) by (split; [exact Hl | exact Hs]).
    replace (fexp prec emax (53 + e) - e) with 0
      by (unfold fexp, emin, prec, emax; lia).
    exists (shr_record_of_loc (Zpos p) l), 0. rewrite Z.add_0_r.
    assert (M : shr_m (shr_record_of_loc (Zpos p) l) = Zpos p)
      by (destruct l as [ | [ | | ]]; reflexivity).
    assert (L : loc_of_shr_record (shr_record_of_loc (Zpos p) l) = l)
      by (destruct l as [ | [ | | ]]; reflexivity).
    rewrite M, L, Z.mul_1_r.
    repeat split; auto; try lia.
  - rewrite (digits2_pos_unique p 54) by (split; [exact Hs | exact Hu]).
    replace (fexp prec emax (54 + e) - e) with 1
      by (unfold fexp, emin, prec, emax; lia).
    cbn [shr iter_pos].
    exists (shr_1 (shr_record_of_loc (Zpos p) l)), 1.
    split; [reflexivity | ]. split; [auto | ]. split; [lia | ].
    unfold Spec64.enc, Spec64.locate in *.
    change (2 ^ 1) with 2.
    destruct (Z.eqb_spec N (Zpos p * W)) as [EN | EN]; subst l.
    + (* the quotient is exact *)
      destruct p as [p | p | ]; try lia; cbn [shr_record_of_loc shr_1 shr_m loc_of_shr_record orb].
      * repeat split; try lia.
        destruct (Z.eqb_spec N (Zpos p * (W * 2))); [nia | ].
        f_equal. symmetry. apply Z.compare_eq_iff. nia.
      * repeat split; try lia.
        destruct (Z.eqb_spec N (Zpos p * (W * 2))); [reflexivity | nia].
    + destruct (2 * N ?= (2 * Zpos p + 1) * W);
        destruct p as [p | p | ]; try lia;
        cbn [shr_record_of_loc shr_1 shr_m loc_of_shr_record orb];
        (repeat split; try lia;
         destruct (Z.eqb_spec N (Zpos p * (W * 2))); [nia | ];
         f_equal; symmetry;
         first [apply Z.compare_gt_iff; nia | apply Z.compare_lt_iff; nia]).
Qed.

(** The second [shr_fexp], on a rounded mantissa of at most [2^53]. *)
Lemma shr_fexp_renorm (a e : Z) :
  2 ^ 52 <= a <= 2 ^ 53 -> -1074 <= e ->
  exists mrs,
    shr_fexp prec emax a e loc_Exact = (mrs, snd (Spec64.renorm a e)) /\
    shr_m mrs = fst (Spec64.renorm a e).
Proof.
  intros [Hl Hu] He. unfold Spec64.renorm.
  destruct (Z.ltb_spec a (2 ^ 53)) as [Hs | Hs].
  - destruct a as [ | p | p]; try lia.
    unfold shr_fexp. cbn [Zdigits2].
    rewrite (digits2_pos_unique p 53) by (split; [exact Hl | exact Hs]).
    replace (fexp prec emax (53 + e) - e) with 0
      by (unfold fexp, emin, prec, emax; lia).
    eexists. split; reflexivity.
  - assert (a = 2 ^ 53) by lia. subst a.
    unfold shr_fexp. cbn [Zdigits2].
    replace (fexp prec emax (Zdigits2 (2 ^ 53) + e) - e) with 1
      by (change (Zdigits2 (2 ^ 53)) with 54;
          unfold fexp, emin, prec, emax; lia).
    eexists. split; reflexivity.
Qed.

(** The rounding of a quotient of 53 or 54 bits, in one formula. *)
Lemma binary_round_aux_enc (N W q e : Z) (l : location) :
  0 < W -> 2 ^ 52 <= q < 2 ^ 54 -> -1074 <= e -> Spec64.enc N W q l ->
  exists m1 l1 n,
    (n = 0 \/ n = 1) /\ (q < 2 ^ 53 <-> n = 0) /\
    2 ^ 52 <= m1 < 2 ^ 53 /\ 2 ^ n * m1 <= q /\
    Spec64.enc N (W * 2 ^ n) m1 l1 /\
    binary_round_aux prec emax false q e l
    = Spec64.pack (Spec64.renorm (round_nearest_even m1 l1) (e + n)).
Proof.
  intros HW Hq He Henc.
  destruct (shr_fexp_enc N W q e l HW Hq He Henc)
    as (mrs & n & E1 & Hn & Hn0 & Hm & Hle & Henc1).
  exists (shr_m mrs), (loc_of_shr_record mrs), n.
  repeat split; try assumption; try apply Hn0; try apply Hm; try apply Henc1.
  unfold binary_round_aux. rewrite E1.
  pose proof (round_nearest_even_bounds (shr_m mrs) (loc_of_shr_record mrs)) as R.
  set (a := round_nearest_even (shr_m mrs) (loc_of_shr_record mrs)) in *.
  destruct (shr_fexp_renorm a (e + n)) as (mrs2 & E2 & M2); [lia | lia | ].
  rewrite E2. unfold Spec64.pack. rewrite M2. reflexivity.
Qed.

(** Within a cell and across cells, the rounded mantissa follows the
    fraction. *)
Lemma round_nearest_even_enc_le (N1 W1 m1 N2 W2 m2 : Z) (l1 l2 : location) :
  0 < W1 -> 0 < W2 ->
  Spec64.enc N1 W1 m1 l1 -> Spec64.enc N2 W2 m2 l2 ->
  N2 * W1 <= N1 * W2 ->
  round_nearest_even m2 l2 <= round_nearest_even m1 l1.
Proof.
  intros HW1 HW2 [C1 L1] [C2 L2] Hle.
  assert (HW : 0 < W1 * W2) by (apply Z.mul_pos_pos; assumption).
  assert (Hm : m2 <= m1).
  { assert (A : m2 * W2 * W1 <= N2 * W1)
      by (apply Z.mul_le_mono_nonneg_r; lia).
    assert (B : N1 * W2 < (m1 + 1) * W1 * W2)
      by (apply Z.mul_lt_mono_pos_r; lia).
    assert (C : m2 * (W1 * W2) < (m1 + 1) * (W1 * W2)) by lia.
    apply Z.mul_lt_mono_pos_r in C; lia. }
  pose proof (round_nearest_even_bounds m1 l1).
  pose proof (round_nearest_even_bounds m2 l2).
  destruct (Z.eq_dec m1 m2) as [-> | Hne]; [ | lia].
  subst l1 l2. unfold Spec64.locate.
  (* both fractions on the common denominator [W1 * W2] *)
  assert (X1 : (2 * N1 ?= (2 * m2 + 1) * W1)
               = (2 * (N1 * W2) ?= (2 * m2 + 1) * (W1 * W2))).
  { rewrite (Zmult_compare_compat_r _ _ W2) by lia. f_equal; ring. }
  assert (X2 : (2 * N2 ?= (2 * m2 + 1) * W2)
               = (2 * (N2 * W1) ?= (2 * m2 + 1) * (W1 * W2))).
  { rewrite (Zmult_compare_compat_r _ _ W1) by lia. f_equal; ring. }
  assert (Y1 : N1 = m2 * W1 <-> N1 * W2 = m2 * (W1 * W2)).
  { split; [intros ->; ring | ].
    intros E. apply (Z.mul_cancel_r _ _ W2); [lia | rewrite E; ring]. }
  assert (Y2 : N2 = m2 * W2 <-> N2 * W1 = m2 * (W1 * W2)).
  { split; [intros ->; ring | ].
    intros E. apply (Z.mul_cancel_r _ _ W1); [lia | rewrite E; ring]. }
  assert (B2 : m2 * (W1 * W2) <= N2 * W1).
  { replace (m2 * (W1 * W2)) with (m2 * W2 * W1) by ring.
    apply Z.mul_le_mono_nonneg_r; lia. }
  rewrite X1, X2.
  set (A := N1 * W2) in *. set (B := N2 * W1) in *.
  set (P := m2 * (W1 * W2)) in *.
  replace ((2 * m2 + 1) * (W1 * W2)) with (2 * P + W1 * W2) by (subst P; ring).
  destruct (Z.eqb_spec N2 (m2 * W2)) as [E2 | E2];
    [simpl; apply round_nearest_even_bounds | ].
  assert (E2' : B <> P) by (intros E; apply E2, Y2; exact E).
  destruct (Z.eqb_spec N1 (m2 * W1)) as [E1 | E1];
    [apply Y1 in E1; exfalso; lia | ].
  destruct (Z.compare_spec (2 * B) (2 * P + W1 * W2)) as [c2 | c2 | c2];
    destruct (Z.compare_spec (2 * A) (2 * P + W1 * W2)) as [c1 | c1 | c1];
    simpl; try lia; destruct (Z.even m2); lia.
Qed.

(** Two described fractions scaled by powers of two: the larger value has
    the larger exponent after the first shift, or the same exponent and the
    larger rounded mantissa. *)
Lemma enc_lex (N1 W1 m1 E1 N2 W2 m2 E2 : Z) (l1 l2 : location) :
  0 < W1 -> 0 < W2 ->
  Spec64.enc N1 W1 m1 l1 -> Spec64.enc N2 W2 m2 l2 ->
  2 ^ 52 <= m1 < 2 ^ 53 -> 2 ^ 52 <= m2 < 2 ^ 53 ->
  (E2 <= E1 -> N2 * W1 <= N1 * W2 * 2 ^ (E1 - E2)) ->
  (E1 < E2 -> N2 * W1 * 2 ^ (E2 - E1) <= N1 * W2) ->
  E2 < E1 \/ (E2 = E1 /\ round_nearest_even m2 l2 <= round_nearest_even m1 l1).
Proof.
  intros HW1 HW2 H1 H2 B1 B2 Hge Hlt.
  destruct (Z.lt_trichotomy E2 E1) as [L | [L | L]]; [left; exact L | | ].
  - right. split; [exact L | ].
    apply (round_nearest_even_enc_le N1 W1 m1 N2 W2 m2); try assumption.
    specialize (Hge ltac:(lia)). subst E2.
    rewrite Z.sub_diag, Z.mul_1_r in Hge. exact Hge.
  - exfalso. specialize (Hlt L).
    destruct H1 as [[_ U1] _]. destruct H2 as [[L2 _] _].
    assert (K : 2 <= 2 ^ (E2 - E1)).
    { change 2 with (2 ^ 1) at 1. apply Z.pow_le_mono_r; lia. }
    assert (HW : 0 < W1 * W2) by (apply Z.mul_pos_pos; assumption).
    assert (A : 2 ^ 52 * (W1 * W2) * 2 <= N2 * W1 * 2 ^ (E2 - E1)).
    { apply Z.mul_le_mono_nonneg; try lia.
      replace (2 ^ 52 * (W1 * W2)) with (2 ^ 52 * W2 * W1) by ring.
      apply Z.mul_le_mono_nonneg_r; [lia | ].
      apply Z.le_trans with (m2 * W2); [ | exact L2].
      apply Z.mul_le_mono_nonneg_r; lia. }
    assert (B : N1 * W2 < 2 ^ 53 * (W1 * W2)).
    { replace (2 ^ 53 * (W1 * W2)) with (2 ^ 53 * W1 * W2) by ring.
      apply Z.mul_lt_mono_pos_r; [exact HW2 | ].
      apply Z.lt_le_trans with ((m1 + 1) * W1); [exact U1 | ].
      apply Z.mul_le_mono_nonneg_r; lia. }
    lia.
Qed.

Lemma SFleb_pack (b1 b2 e1 e2 : Z) :
  0 < b1 -> 0 < b2 -> e2 < e1 \/ (e2 = e1 /\ b2 <= b1) ->
  SFleb (Spec64.pack (b2, e2)) (Spec64.pack (b1, e1)) = true.
Proof.
  intros H1 H2 Hlex.
  destruct b1 as [ | p1 | p1]; try lia. destruct b2 as [ | p2 | p2]; try lia.
  unfold Spec64.pack. cbn [fst snd].
  destruct (Z.leb_spec e1 971) as [O1 | O1].
  - replace (e2 <=? 971) with true by (symmetry; apply Z.leb_le; lia).
    unfold SFleb, SFcompare.
    destruct Hlex as [L | [-> L]].
    + apply Z.compare_lt_iff in L. rewrite L. reflexivity.
    + rewrite Z.compare_refl, Pos.compare_cont_spec. simpl.
      destruct (Pos.compare_spec p2 p1); try reflexivity. lia.
  - destruct (e2 <=? 971); reflexivity.
Qed.

(** Renormalising and packing keep the order. *)
Lemma SFleb_pack_renorm (a1 a2 e1 e2 : Z) :
  2 ^ 52 <= a1 <= 2 ^ 53 -> 2 ^ 52 <= a2 <= 2 ^ 53 ->
  e2 < e1 \/ (e2 = e1 /\ a2 <= a1) ->
  SFleb (Spec64.pack (Spec64.renorm a2 e2)) (Spec64.pack (Spec64.renorm a1 e1))
  = true.
Proof.
  intros H1 H2 Hlex. unfold Spec64.renorm.
  destruct (Z.ltb_spec a1 (2 ^ 53)), (Z.ltb_spec a2 (2 ^ 53));
    apply SFleb_pack; lia.
Qed.

(** The same numerator over two divisors [me1 * 2^ee1 <= me2 * 2^ee2], each
    quotient described after [s] bits of numerator shift and [n] bits of
    mantissa shift: the quotient by the smaller divisor comes out on top. *)
Lemma quotients_lex (mh me1 me2 ee1 ee2 s1 s2 n1 n2 m1 m2 eh : Z)
      (l1 l2 : location) :
  0 < mh -> 0 < me1 -> 0 < me2 ->
  0 <= s1 -> 0 <= s2 -> 0 <= n1 -> 0 <= n2 -> ee1 <= ee2 ->
  me1 <= me2 * 2 ^ (ee2 - ee1) ->
  Spec64.enc (mh * 2 ^ s1) (me1 * 2 ^ n1) m1 l1 ->
  Spec64.enc (mh * 2 ^ s2) (me2 * 2 ^ n2) m2 l2 ->
  2 ^ 52 <= m1 < 2 ^ 53 -> 2 ^ 52 <= m2 < 2 ^ 53 ->
  eh - ee2 - s2 + n2 < eh - ee1 - s1 + n1 \/
  (eh - ee2 - s2 + n2 = eh - ee1 - s1 + n1 /\
   round_nearest_even m2 l2 <= round_nearest_even m1 l1).
Proof.
  intros Hmh Hme1 Hme2 Hs1 Hs2 Hn1 Hn2 Hee Hle H1 H2 B1 B2.
  assert (P : forall k, 0 <= k -> 0 < 2 ^ k) by (intros; apply Z.pow_pos_nonneg; lia).
  apply (enc_lex (mh * 2 ^ s1) (me1 * 2 ^ n1) m1 _ (mh * 2 ^ s2) (me2 * 2 ^ n2) m2 _ l1 l2);
    try assumption.
  - apply Z.mul_pos_pos; [lia | apply P; lia].
  - apply Z.mul_pos_pos; [lia | apply P; lia].
  - intros L.
    set (K := eh - ee1 - s1 + n1 - (eh - ee2 - s2 + n2)).
    assert (HK : 0 <= K) by (subst K; lia).
    assert (E : 2 ^ s1 * 2 ^ n2 * 2 ^ K = 2 ^ s2 * 2 ^ n1 * 2 ^ (ee2 - ee1)).
    { rewrite <- !Z.pow_add_r by lia. f_equal. subst K. lia. }
    replace (mh * 2 ^ s1 * (me2 * 2 ^ n2) * 2 ^ K)
      with (mh * me2 * (2 ^ s1 * 2 ^ n2 * 2 ^ K)) by ring.
    rewrite E.
    replace (mh * 2 ^ s2 * (me1 * 2 ^ n1)) with (mh * 2 ^ s2 * 2 ^ n1 * me1) by ring.
    replace (mh * me2 * (2 ^ s2 * 2 ^ n1 * 2 ^ (ee2 - ee1)))
      with (mh * 2 ^ s2 * 2 ^ n1 * (me2 * 2 ^ (ee2 - ee1))) by ring.
    apply Z.mul_le_mono_nonneg_l; [ | exact Hle].
    pose proof (P s2 Hs2). pose proof (P n1 Hn1).
    apply Z.mul_nonneg_nonneg; [apply Z.mul_nonneg_nonneg | ]; lia.
  - intros L.
    set (K := eh - ee2 - s2 + n2 - (eh - ee1 - s1 + n1)).
    assert (HK : 0 <= K) by (subst K; lia).
    assert (E : 2 ^ s1 * 2 ^ n2 = 2 ^ s2 * 2 ^ n1 * 2 ^ (ee2 - ee1) * 2 ^ K).
    { rewrite <- !Z.pow_add_r by lia. f_equal. subst K. lia. }
    replace (mh * 2 ^ s1 * (me2 * 2 ^ n2))
      with (mh * me2 * (2 ^ s1 * 2 ^ n2)) by ring.
    rewrite E.
    replace (mh * 2 ^ s2 * (me1 * 2 ^ n1) * 2 ^ K)
      with (mh * 2 ^ s2 * 2 ^ n1 * 2 ^ K * me1) by ring.
    replace (mh * me2 * (2 ^ s2 * 2 ^ n1 * 2 ^ (ee2 - ee1) * 2 ^ K))
      with (mh * 2 ^ s2 * 2 ^ n1 * 2 ^ K * (me2 * 2 ^ (ee2 - ee1))) by ring.
    apply Z.mul_le_mono_nonneg_l; [ | exact Hle].
    pose proof (P s2 Hs2). pose proof (P n1 Hn1). pose proof (P K HK).
    repeat apply Z.mul_nonneg_nonneg; lia.
Qed.

(** What [bounded] says of a mantissa and its exponent. *)
Lemma bounded_canonical (m : positive) (e : Z) :
  bounded prec emax m e = true ->
  Zpos (digits2_pos m) <= 53 /\ -1074 <= e <= 971 /\
  (-1074 < e -> Zpos (digits2_pos m) = 53).
Proof.
  unfold bounded, canonical_mantissa. intros H.
  apply andb_prop in H. destruct H as [Hc He].
  apply Z.eqb_eq in Hc. apply Z.leb_le in He.
  unfold fexp, emin, prec, emax in *. lia.
Qed.

(** A positive float that is at most one has a magnitude of at most zero,
    or it is one. *)
Lemma SFleb_one (m : positive) (e : Z) :
  bounded prec emax m e = true ->
  SFleb (S754_finite false m e) (S754_finite false 4503599627370496 (-52)) = true ->
  Zpos (digits2_pos m) + e <= 0 \/ (m = 4503599627370496%positive /\ e = -52).
Proof.
  intros Hb. destruct (bounded_canonical m e Hb) as (Hd & He & Hn).
  clear Hb. unfold SFleb, SFcompare.
  destruct (Z.compare_spec e (-52)) as [E | E | E]; [ | | intros F; discriminate F].
  - rewrite Pos.compare_cont_spec. cbn [Pos.switch_Eq].
    destruct (Pos.compare_spec m 4503599627370496) as [C | C | C];
      [ | | intros F; discriminate F]; intros _.
    + right. split; [exact C | exact E].
    + exfalso. pose proof (digits2_pos_bounds m) as [Dl _].
      assert (D : Zpos (digits2_pos m) = 53) by (apply Hn; rewrite E; reflexivity).
      rewrite D in Dl. change (2 ^ (53 - 1)) with (Zpos 4503599627370496) in Dl.
      apply Pos2Z.pos_lt_pos in C. exact (Z.lt_irrefl _ (Z.lt_le_trans _ _ _ C Dl)).
  - intros _. left. lia.
Qed.

(** The order of two positive floats, on their mantissas. *)
Lemma SFltb_scaled (m1 m2 : positive) (e1 e2 : Z) :
  bounded prec emax m1 e1 = true -> bounded prec emax m2 e2 = true ->
  SFltb (S754_finite false m1 e1) (S754_finite false m2 e2) = true ->
  e1 <= e2 /\ Zpos m1 < Zpos m2 * 2 ^ (e2 - e1).
Proof.
  intros Hb1 Hb2.
  destruct (bounded_canonical m1 e1 Hb1) as (Hd1 & He1 & _).
  destruct (bounded_canonical m2 e2 Hb2) as (_ & He2 & Hn2).
  clear Hb1 Hb2. unfold SFltb, SFcompare.
  destruct (Z.compare_spec e1 e2) as [E | E | E]; [ | | intros F; discriminate F].
  - rewrite Pos.compare_cont_spec. cbn [Pos.switch_Eq].
    destruct (Pos.compare_spec m1 m2) as [C | C | C];
      [intros F; discriminate F | | intros F; discriminate F].
    intros _. subst e2. rewrite Z.sub_diag, Z.pow_0_r. lia.
  - intros _. split; [lia | ].
    pose proof (digits2_pos_bounds m1) as [_ U1].
    pose proof (digits2_pos_bounds m2) as [L2 _].
    assert (D : Zpos (digits2_pos m2) = 53) by (apply Hn2; lia).
    rewrite D in L2. change (2 ^ (53 - 1)) with 4503599627370496 in L2.
    assert (U : 2 ^ Zpos (digits2_pos m1) <= 2 ^ 53) by (apply Z.pow_le_mono_r; lia).
    change (2 ^ 53) with 9007199254740992 in U.
    assert (T : 2 ^ 1 <= 2 ^ (e2 - e1)) by (apply Z.pow_le_mono_r; lia).
    change (2 ^ 1) with 2 in T.
    assert (Zpos m2 * 2 <= Zpos m2 * 2 ^ (e2 - e1))
      by (apply Z.mul_le_mono_nonneg_l; lia).
    lia.
Qed.

(** A positive float that is at most one, on its mantissa. *)
Lemma at_most_one_mantissa (m : positive) (e : Z) :
  Zpos (digits2_pos m) + e <= 0 \/ (Zpos m = 2 ^ 52 /\ e = -52) ->
  e <= 0 /\ Zpos m <= 1 * 2 ^ (0 - e).
Proof.
  pose proof (digits2_pos_bounds m) as [_ U].
  assert (0 < Zpos (digits2_pos m)) by reflexivity.
  intros [T | [M ->]].
  - split; [lia | ].
    assert (2 ^ Zpos (digits2_pos m) <= 2 ^ (0 - e)) by (apply Z.pow_le_mono_r; lia).
    lia.
  - split; [lia | ]. rewrite M. change (0 - -52) with 52. lia.
Qed.

(** The quotient and remainder that [SFdiv_core_binary] hands to the
    rounding, for a 53-bit dividend and a divisor that is at most one: the
    dividend is shifted by [s] bits and the quotient has 53 or 54 bits. *)
Lemma SFdiv_core_binary_shift (mh me : positive) (eh ee : Z) :
  Zpos (digits2_pos mh) = 53 -> -1074 <= eh ->
  Zpos (digits2_pos me) + ee <= 0 \/ (Zpos me = 2 ^ 52 /\ ee = -52) ->
  exists s,
    0 <= s /\ -1074 <= eh - ee - s /\
    2 ^ 52 <= fst (Z.div_eucl (Zpos mh * 2 ^ s) (Zpos me)) < 2 ^ 54 /\
    SFdiv_core_binary prec emax (Zpos mh) eh (Zpos me) ee
    = (fst (Z.div_eucl (Zpos mh * 2 ^ s) (Zpos me)), eh - ee - s,
       new_location (Zpos me) (snd (Z.div_eucl (Zpos mh * 2 ^ s) (Zpos me)))).
Proof.
  intros Hd He Hone.
  pose proof (digits2_pos_bounds mh) as [Hl Hu]. rewrite Hd in Hl, Hu.
  change (2 ^ (53 - 1)) with (2 ^ 52) in Hl.
  pose proof (digits2_pos_bounds me) as [Dl Du].
  assert (Dp : 0 < Zpos (digits2_pos me)) by reflexivity.
  assert (G : -1074 <= eh - (Zpos (digits2_pos me) + ee) ->
              exists s,
                0 <= s /\ -1074 <= eh - ee - s /\
                2 ^ 52 <= fst (Z.div_eucl (Zpos mh * 2 ^ s) (Zpos me)) < 2 ^ 54 /\
                SFdiv_core_binary prec emax (Zpos mh) eh (Zpos me) ee
                = (fst (Z.div_eucl (Zpos mh * 2 ^ s) (Zpos me)), eh - ee - s,
                   new_location (Zpos me)
                     (snd (Z.div_eucl (Zpos mh * 2 ^ s) (Zpos me))))).
  { intros Ht. exists (Zpos (digits2_pos me)).
    split; [lia | ]. split; [lia | ].
    assert (P2 : 2 ^ Zpos (digits2_pos me) = 2 * 2 ^ (Zpos (digits2_pos me) - 1)).
    { rewrite <- Z.pow_succ_r by lia. f_equal. lia. }
    split.
    - change (fst (Z.div_eucl (Zpos mh * 2 ^ Zpos (digits2_pos me)) (Zpos me)))
        with (Zpos mh * 2 ^ Zpos (digits2_pos me) / Zpos me).
      split.
      + apply Z.div_le_lower_bound; [reflexivity | ].
        rewrite Z.mul_comm.
        apply Z.mul_le_mono_nonneg; lia.
      + apply Z.div_lt_upper_bound; [reflexivity | ].
        apply Z.le_lt_trans with (Zpos mh * (2 * Zpos me)).
        * rewrite P2. apply Z.mul_le_mono_nonneg_l; lia.
        * replace (Zpos me * 2 ^ 54) with (2 ^ 53 * (2 * Zpos me))
            by (change (2 ^ 54) with (2 ^ 53 * 2); ring).
          apply Z.mul_lt_mono_pos_r; lia.
    - unfold SFdiv_core_binary. cbn [Zdigits2]. rewrite Hd.
      replace (Z.min (fexp prec emax (53 + eh - (Zpos (digits2_pos me) + ee))) (eh - ee))
        with (eh - ee - Zpos (digits2_pos me))
        by (unfold fexp, emin, prec, emax; lia).
      replace (eh - ee - (eh - ee - Zpos (digits2_pos me)))
        with (Zpos (digits2_pos me)) by lia.
      cbv beta iota zeta.
      rewrite Z.shiftl_mul_pow2 by lia.
      destruct (Z.div_eucl (Zpos mh * 2 ^ Zpos (digits2_pos me)) (Zpos me)) as [q r].
      reflexivity. }
  destruct Hone as [T | [M E]]; [apply G; lia | ].
  destruct (Z.eq_dec eh (-1074)) as [Z | Z].
  - subst eh ee. exists 52.
    assert (Q : Z.div_eucl (Zpos mh * 2 ^ 52) (Zpos me) = (Zpos mh, 0)).
    { pose proof (Z.div_eucl_eq (Zpos mh * 2 ^ 52) (Zpos me)) as Eq.
      pose proof (Z.mod_pos_bound (Zpos mh * 2 ^ 52) (Zpos me)) as Bd.
      unfold Z.modulo, Z.div in *.
      assert (Dv : Zpos mh * 2 ^ 52 / Zpos me = Zpos mh)
        by (rewrite M; apply Z.div_mul; lia).
      assert (Md : (Zpos mh * 2 ^ 52) mod Zpos me = 0)
        by (rewrite M; apply Z.mod_mul; lia).
      unfold Z.modulo, Z.div in Dv, Md.
      destruct (Z.div_eucl (Zpos mh * 2 ^ 52) (Zpos me)) as [q r].
      simpl in Dv, Md. subst q r. reflexivity. }
    rewrite Q. cbn [fst snd].
    split; [lia | ]. split; [lia | ]. split; [lia | ].
    unfold SFdiv_core_binary. cbn [Zdigits2]. rewrite Hd.
    assert (D53 : Zpos (digits2_pos me) = 53)
      by (apply digits2_pos_unique; rewrite M; change (2 ^ (53 - 1)) with (2 ^ 52); lia).
    rewrite D53.
    replace (Z.min (fexp prec emax (53 + -1074 - (53 + -52))) (-1074 - -52))
      with (-1074) by reflexivity.
    change (-1074 - -52 - -1074) with 52. cbv beta iota zeta.
    rewrite Z.shiftl_mul_pow2 by lia. rewrite Q. reflexivity.
  - apply G. assert (Zpos (digits2_pos me) = 53)
      by (apply digits2_pos_unique; rewrite M; change (2 ^ (53 - 1)) with (2 ^ 52); lia).
    lia.
Qed.

(** The quotient of a positive normal float by a positive float that is at
    most one, as a rounded fraction. *)
Lemma SF64div_enc (mh me : positive) (eh ee : Z) :
  Zpos (digits2_pos mh) = 53 -> -1074 <= eh ->
  Zpos (digits2_pos me) + ee <= 0 \/ (Zpos me = 2 ^ 52 /\ ee = -52) ->
  exists s n m1 l1,
    0 <= s /\ 0 <= n /\ 2 ^ 52 <= m1 < 2 ^ 53 /\
    Spec64.enc (Zpos mh * 2 ^ s) (Zpos me * 2 ^ n) m1 l1 /\
    SF64div (S754_finite false mh eh) (S754_finite false me ee)
    = Spec64.pack (Spec64.renorm (round_nearest_even m1 l1) (eh - ee - s + n)).
Proof.
  intros Hd He Hone.
  destruct (SFdiv_core_binary_shift mh me eh ee Hd He Hone) as (s & Hs & Hes & Hq & Hcore).
  unfold SF64div, SFdiv. rewrite Hcore. cbv beta iota zeta. cbn [xorb].
  destruct (binary_round_aux_enc (Zpos mh * 2 ^ s) (Zpos me)
              (fst (Z.div_eucl (Zpos mh * 2 ^ s) (Zpos me))) (eh - ee - s)
              (new_location (Zpos me) (snd (Z.div_eucl (Zpos mh * 2 ^ s) (Zpos me)))))
    as (m1 & l1 & n & Hn & _ & Hm & _ & Henc & Hr);
    [reflexivity | exact Hq | exact Hes
    | apply enc_div_eucl; [reflexivity | apply Z.mul_nonneg_nonneg; [ | apply Z.pow_nonneg]; lia] | ].
  exists s, n, m1, l1.
  split; [exact Hs | ]. split; [lia | ]. split; [exact Hm | ].
  split; [exact Henc | exact Hr].
Qed.

(** Dividing a positive normal float by a larger divisor, both at most one,
    does not give more. *)
Lemma SF64div_antitone (mh me1 me2 : positive) (eh ee1 ee2 : Z) :
  Zpos (digits2_pos mh) = 53 -> bounded prec emax mh eh = true ->
  bounded prec emax me1 ee1 = true -> bounded prec emax me2 ee2 = true ->
  SFltb (S754_finite false me1 ee1) (S754_finite false me2 ee2) = true ->
  SFleb (S754_finite false me2 ee2) (S754_finite false 4503599627370496 (-52)) = true ->
  SFleb (SF64div (S754_finite false mh eh) (S754_finite false me2 ee2))
        (SF64div (S754_finite false mh eh) (S754_finite false me1 ee1)) = true.
Proof.
  intros Hd Hbh Hb1 Hb2 Hlt Hle.
  destruct (bounded_canonical mh eh Hbh) as (_ & Heh & _).
  destruct (SFltb_scaled me1 me2 ee1 ee2 Hb1 Hb2 Hlt) as [Hee Hm].
  assert (One2 : Zpos (digits2_pos me2) + ee2 <= 0 \/ (Zpos me2 = 2 ^ 52 /\ ee2 = -52)).
  { destruct (SFleb_one me2 ee2 Hb2 Hle) as [T | [M E]]; [left; exact T | right].
    split; [rewrite M; reflexivity | exact E]. }
  clear Hbh Hb1 Hb2 Hlt Hle.
  destruct (at_most_one_mantissa me2 ee2 One2) as [N2 M2].
  rewrite Z.mul_1_l in M2.
  assert (One1 : Zpos (digits2_pos me1) + ee1 <= 0 \/ (Zpos me1 = 2 ^ 52 /\ ee1 = -52)).
  { left. pose proof (digits2_pos_bounds me1) as [L1 _].
    assert (S : Zpos me2 * 2 ^ (ee2 - ee1) <= 2 ^ (0 - ee2) * 2 ^ (ee2 - ee1)).
    { apply Z.mul_le_mono_nonneg_r; [apply Z.pow_nonneg; lia | exact M2]. }
    rewrite <- Z.pow_add_r in S by lia.
    replace (0 - ee2 + (ee2 - ee1)) with (0 - ee1) in S by lia.
    assert (P : 2 ^ (Zpos (digits2_pos me1) - 1) < 2 ^ (0 - ee1)) by lia.
    apply Z.pow_lt_mono_r_iff in P; lia. }
  destruct (SF64div_enc mh me1 eh ee1 Hd (proj1 Heh) One1)
    as (s1 & n1 & m1 & l1 & Hs1 & Hn1 & B1 & Enc1 & ->).
  destruct (SF64div_enc mh me2 eh ee2 Hd (proj1 Heh) One2)
    as (s2 & n2 & m2 & l2 & Hs2 & Hn2 & B2 & Enc2 & ->).
  pose proof (round_nearest_even_bounds m1 l1). pose proof (round_nearest_even_bounds m2 l2).
  apply SFleb_pack_renorm; [lia | lia | ].
  apply (quotients_lex (Zpos mh) (Zpos me1) (Zpos me2) ee1 ee2 s1 s2 n1 n2 m1 m2 eh l1 l2);
    try assumption; try reflexivity. lia.
Qed.

(** Dividing a positive normal float by a positive float that is at most one
    does not give less than the float. *)
Lemma SF64div_ge (mh me : positive) (eh ee : Z) :
  Zpos (digits2_pos mh) = 53 -> bounded prec emax mh eh = true ->
  bounded prec emax me ee = true ->
  SFleb (S754_finite false me ee) (S754_finite false 4503599627370496 (-52)) = true ->
  SFleb (S754_finite false mh eh)
        (SF64div (S754_finite false mh eh) (S754_finite false me ee)) = true.
Proof.
  intros Hd Hbh Hb Hle.
  destruct (bounded_canonical mh eh Hbh) as (_ & Heh & _).
  assert (One : Zpos (digits2_pos me) + ee <= 0 \/ (Zpos me = 2 ^ 52 /\ ee = -52)).
  { destruct (SFleb_one me ee Hb Hle) as [T | [M E]]; [left; exact T | right].
    split; [rewrite M; reflexivity | exact E]. }
  clear Hbh Hb Hle.
  destruct (at_most_one_mantissa me ee One) as [N M].
  destruct (SF64div_enc mh me eh ee Hd (proj1 Heh) One)
    as (s1 & n1 & m1 & l1 & Hs1 & Hn1 & B1 & Enc1 & ->).
  pose proof (digits2_pos_bounds mh) as [Hl Hu]. rewrite Hd in Hl, Hu.
  change (2 ^ (53 - 1)) with (2 ^ 52) in Hl.
  assert (Triv : S754_finite false mh eh
                 = Spec64.pack (Spec64.renorm (round_nearest_even (Zpos mh) loc_Exact)
                                              (eh - 0 - 0 + 0))).
  { cbn [round_nearest_even]. unfold Spec64.renorm.
    replace (Zpos mh <? 2 ^ 53) with true by (symmetry; apply Z.ltb_lt; lia).
    unfold Spec64.pack. cbn [fst snd].
    replace (eh - 0 - 0 + 0) with eh by lia.
    replace (eh <=? 971) with true by (symmetry; apply Z.leb_le; lia).
    reflexivity. }
  rewrite Triv at 1.
  pose proof (round_nearest_even_bounds m1 l1).
  apply SFleb_pack_renorm; [lia | cbn [round_nearest_even]; lia | ].
  apply (quotients_lex (Zpos mh) (Zpos me) 1 ee 0 s1 0 n1 0 m1 (Zpos mh) eh l1 loc_Exact);
    try assumption; try reflexivity; try lia.
  unfold Spec64.enc, Spec64.locate.
  replace (Zpos mh * 2 ^ 0) with (Zpos mh) by (rewrite Z.pow_0_r; lia).
  replace (1 * 2 ^ 0) with 1 by reflexivity.
  replace (Zpos mh * 1) with (Zpos mh) by lia.
  rewrite Z.eqb_refl. split; [lia | reflexivity].
Qed.
End Binary64Quotients.

Lemma b64_one_repr : Prim2SF 1 = S754_finite false 4503599627370496 (-52).
Proof. vm_compute. reflexivity. Qed.

(** A float above zero and at most one is a positive finite number. *)
Lemma b64_unit_interval_repr (e : float) :
  (0 <? e)%float = true -> (e <=? 1)%float = true ->
  exists m ee, Prim2SF e = S754_finite false m ee /\
               bounded prec emax m ee = true /\
               SFleb (S754_finite false m ee)
                     (S754_finite false 4503599627370496 (-52)) = true.
Proof.
  intros H0 H1. pose proof (Prim2SF_valid e) as Hv.
  rewrite ltb_spec, b64_zero_repr in H0. rewrite leb_spec, b64_one_repr in H1.
  destruct (Prim2SF e) as [[ | ] | [ | ] | | [ | ] m ee];
    try (exfalso; revert H0; unfold SFltb, SFcompare; discriminate);
    try (exfalso; revert H1; unfold SFleb, SFcompare; discriminate).
  exists m, ee. split; [reflexivity | ]. split; [exact Hv | exact H1].
Qed.

Lemma b64_normal_repr (h : float) :
  classify h = PNormal ->
  exists m e, Prim2SF h = S754_finite false m e /\
              Zpos (digits2_pos m) = 53%Z /\ bounded prec emax m e = true.
Proof.
  intros Hc. rewrite classify_spec in Hc.
  pose proof (Prim2SF_valid h) as Hv.
  unfold SF64classify, SFclassify in Hc.
  destruct (Prim2SF h) as [[ | ] | [ | ] | | [ | ] m e]; try discriminate;
    destruct (Z.pos (digits2_pos m) =? prec)%Z eqn:D; try discriminate.
  apply Z.eqb_eq in D. exists m, e. split; [reflexivity | ]. split; [exact D | exact Hv].
Qed.

(** A float above a float that is above zero is above zero. *)
Lemma b64_ltb_trans (e1 e2 : float) :
  (0 <? e1)%float = true -> (e1 <? e2)%float = true -> (0 <? e2)%float = true.
Proof.
  rewrite !ltb_spec, b64_zero_repr. intros H0 H12.
  destruct (Prim2SF e1) as [[ | ] | [ | ] | | [ | ] m1 ee1];
    try (exfalso; revert H0; unfold SFltb, SFcompare; discriminate);
    destruct (Prim2SF e2) as [[ | ] | [ | ] | | [ | ] m2 ee2];
    try reflexivity; exfalso; revert H12; unfold SFltb, SFcompare; discriminate.
Qed.

(** On binary64 the quotient of a positive normal number does not grow with
    the divisor, for divisors above zero and at most one. *)
Lemma b64_div_antitone (h e1 e2 : float) :
  classify h = PNormal ->
  (0 <? e1)%float = true -> (e1 <? e2)%float = true -> (e2 <=? 1)%float = true ->
  (h / e2 <=? h / e1)%float = true.
Proof.
  intros Hc H0 H12 H1.
  destruct (b64_normal_repr h Hc) as (mh & eh & Rh & Hd & Hbh).
  pose proof (Prim2SF_valid e1) as Hv1.
  assert (H02 : (0 <? e2)%float = true) by (eapply b64_ltb_trans; eassumption).
  destruct (b64_unit_interval_repr e2 H02 H1) as (m2 & ee2 & R2 & Hb2 & Hle2).
  rewrite leb_spec, !div_spec, Rh, R2.
  rewrite ltb_spec, b64_zero_repr in H0. rewrite ltb_spec, R2 in H12.
  destruct (Prim2SF e1) as [[ | ] | [ | ] | | [ | ] m1 ee1];
    try (exfalso; revert H0; unfold SFltb, SFcompare; discriminate);
    try (exfalso; revert H12; unfold SFltb, SFcompare; discriminate).
  apply SF64div_antitone; assumption.
Qed.

(** On binary64 the quotient of a positive normal number by a divisor above
    zero and at most one is not below the number. *)
Lemma b64_div_ge (h e : float) :
  classify h = PNormal ->
  (0 <? e)%float = true -> (e <=? 1)%float = true ->
  (h <=? h / e)%float = true.
Proof.
  intros Hc H0 H1.
  destruct (b64_normal_repr h Hc) as (mh & eh & Rh & Hd & Hbh).
  destruct (b64_unit_interval_repr e H0 H1) as (m & ee & R & Hb & Hle).
  rewrite leb_spec, div_spec, Rh, R.
  apply SF64div_ge; assumption.
Qed.

(** ** The script runs to the end on widget values *)

Lemma py_getitem_in {V : Type} (d : dict V) (k : string) :
  In k (keys d) -> exists v : V, getitem d k = Ok v.
Proof.
  induction d as [ | [k' v] d IH]; simpl; [intros [] | ].
  destruct (String.eqb k' k) eqn:E; [eauto | ].
  intros [H | H]; [ | auto].
  apply String.eqb_neq in E. contradiction.
Qed.

Lemma exact_to_fraction_runs (value : Q) (unit : string) :
  In unit ["%"; "fraction"] ->
  exists f : Q,
    Exact.to_fraction value unit
    = Ok (Exact.max 1e-6 (Exact.min 0.999999 (value * f))).
Proof.
  intros [<- | [<- | []]]; eexists; reflexivity.
Qed.

(** Every subscript finds its key and the division is by a clamped
    efficiency: on widget values the script raises nothing. *)
Lemma exact_script_runs (i : Exact.inputs) :
  Exact.widget_values i ->
  exists q h e : Q,
    Exact.to_si_flow (Exact.Q_val i) (Exact.Q_unit i) = Ok q /\
    Exact.to_si_head (Exact.H_val i) (Exact.H_unit i) = Ok h /\
    Exact.to_fraction (Exact.eff_val i) (Exact.eff_unit i) = Ok e /\
    (1e-6 <= e <= 0.999999)%Q /\
    let r := Exact.density (Exact.rho_override i) (Exact.rho_custom i) (Exact.sg i) in
    let p := Exact.hydraulic_power_kw r (Exact.g_val i) q h in
    Exact.script i
    = Ok (Exact.mk_outputs q h e r p (p / e)%Q
            (Exact.kw_to_hp p) (Exact.kw_to_hp (p / e)%Q)).
Proof.
  intros (_ & _ & _ & _ & _ & _ & HQ & HH & HE).
  destruct (py_getitem_in _ _ HQ) as [fq Eq].
  destruct (py_getitem_in _ _ HH) as [fh Eh].
  destruct (exact_to_fraction_runs (Exact.eff_val i) _ HE) as [fe Ee].
  pose proof (exact_clamp_bounds (Exact.eff_val i * fe)) as B.
  set (e := Exact.max 1e-6 (Exact.min 0.999999 (Exact.eff_val i * fe))) in *.
  exists (Exact.Q_val i * fq)%Q, (Exact.H_val i * fh)%Q, e.
  assert (Fq : Exact.to_si_flow (Exact.Q_val i) (Exact.Q_unit i)
               = Ok (Exact.Q_val i * fq)%Q)
    by (unfold Exact.to_si_flow; now rewrite Eq).
  assert (Fh : Exact.to_si_head (Exact.H_val i) (Exact.H_unit i)
               = Ok (Exact.H_val i * fh)%Q)
    by (unfold Exact.to_si_head; now rewrite Eh).
  repeat split; try assumption; try apply B.
  unfold Exact.script. rewrite Fq, Fh, Ee. simpl.
  rewrite exact_shaft_defined; [reflexivity | ].
  intro Z. destruct B as [B _]. rewrite Z in B.
  apply (Qle_not_lt _ _ B). reflexivity.
Qed.

Lemma py_Ok_inj {A : Type} (a b : A) : Ok a = Ok b -> a = b.
Proof. intros E. injection E as E. exact E. Qed.

Lemma b64_to_fraction_runs (value : float) (unit : string) :
  In unit ["%"; "fraction"] ->
  exists f : float,
    Binary64.to_fraction value unit
    = Ok (Binary64.max 1e-6 (Binary64.min 0.999999 (value * f)))%float.
Proof.
  intros [<- | [<- | []]]; eexists; reflexivity.
Qed.

(** The same on binary64: with unit tags from the select boxes nothing is
    raised, whatever floats the number inputs hold. *)
Lemma b64_script_runs (i : Binary64.inputs) :
  Binary64.widget_units i ->
  exists q h e : float,
    Binary64.to_fraction (Binary64.eff_val i) (Binary64.eff_unit i) = Ok e /\
    let r := Binary64.density (Binary64.rho_override i) (Binary64.rho_custom i)
               (Binary64.sg i) in
    let p := Binary64.hydraulic_power_kw r (Binary64.g_val i) q h in
    Binary64.script i
    = Ok (Binary64.mk_outputs q h e r p (p / e)%float
            (Binary64.kw_to_hp p) (Binary64.kw_to_hp (p / e)%float)).
Proof.
  intros (HQ & HH & HE).
  destruct (py_getitem_in _ _ HQ) as [fq Eq].
  destruct (py_getitem_in _ _ HH) as [fh Eh].
  destruct (b64_to_fraction_runs (Binary64.eff_val i) _ HE) as [fe Ee].
  destruct (b64_clamp_bounds (Binary64.eff_val i * fe)%float) as (_ & _ & B).
  exists (Binary64.Q_val i * fq)%float, (Binary64.H_val i * fh)%float.
  eexists. split; [exact Ee | ].
  unfold Binary64.script, Binary64.to_si_flow, Binary64.to_si_head.
  rewrite Eq, Eh, Ee. simpl.
  unfold Binary64.shaft_power_kw. rewrite B. reflexivity.
Qed.

(** At 100 % the clamp returns its upper literal. *)
Lemma b64_full_efficiency_fraction (i : Binary64.inputs) :
  Binary64.full_efficiency i ->
  Binary64.to_fraction (Binary64.eff_val i) (Binary64.eff_unit i)
  = Ok 0.999999%float.
Proof.
  intros [[-> ->] | [-> ->]]; reflexivity.
Qed.

Lemma exact_full_efficiency_fraction (i : Exact.inputs) :
  Exact.full_efficiency i ->
  Exact.to_fraction (Exact.eff_val i) (Exact.eff_unit i) = Ok 0.999999%Q.
Proof.
  intros [[Hu Hv] | [Hu Hv]]; rewrite Hu; unfold Exact.to_fraction; simpl;
    f_equal.
  - assert (E : Exact.min 0.999999 (Exact.eff_val i * 0.01) = 0.999999%Q).
    { unfold Exact.min.
      replace (Exact.ltb (Exact.eff_val i * 0.01) 0.999999) with false;
        [reflexivity | ].
      symmetry. apply exact_ltb_ge. rewrite Hv. discriminate. }
    rewrite E. reflexivity.
  - assert (E : Exact.min 0.999999 (Exact.eff_val i * 1.0) = 0.999999%Q).
    { unfold Exact.min.
      replace (Exact.ltb (Exact.eff_val i * 1.0) 0.999999) with false;
        [reflexivity | ].
      symmetry. apply exact_ltb_ge. rewrite Hv. discriminate. }
    rewrite E. reflexivity.
Qed.

(** * Binary64 arithmetic and the tables, for every float *)

(** ** Dictionary subscripts that fail *)

(** A subscript with a key the dict does not hold raises [KeyError] with that
    key. *)
Lemma py_getitem_missing {V : Type} (d : dict V) (k : string) :
  ~ In k (keys d) -> getitem d k = Raise (KeyError k).
Proof.
  induction d as [ | [k' v] d IH]; simpl; [reflexivity | ].
  intros H. destruct (String.eqb_spec k' k) as [E | E].
  - exfalso. apply H. left. exact E.
  - apply IH. intros I. apply H. right. exact I.
Qed.

(** ** Binary64: multiplying by one *)
Section Binary64MulOne.
Local Open Scope Z_scope.

Lemma digits2_pos_shift52 (m : positive) :
  Zpos (digits2_pos (4503599627370496 * m)) = Zpos (digits2_pos m) + 52.
Proof.
  apply digits2_pos_unique.
  pose proof (digits2_pos_bounds m) as [L U].
  rewrite Pos2Z.inj_mul.
  replace (Zpos (digits2_pos m) + 52 - 1) with (52 + (Zpos (digits2_pos m) - 1)) by lia.
  assert (0 < Zpos (digits2_pos m)) by reflexivity.
  rewrite (Z.add_comm _ 52), !Z.pow_add_r by lia.
  change (Zpos 4503599627370496) with (2 ^ 52).
  split.
  - apply Z.mul_le_mono_nonneg_l; lia.
  - apply Z.mul_lt_mono_pos_l; lia.
Qed.

(** Multiplying a float by [1.0] changes nothing: the 52 bits the product
    gains are shifted out again and all of them are zero. *)
Lemma SF64mul_one_r (x : spec_float) :
  valid_binary x = true ->
  SF64mul x (S754_finite false 4503599627370496 (-52)) = x.
Proof.
  destruct x as [[ | ] | [ | ] | | s m e]; try reflexivity.
  intros Hb. change (bounded prec emax m e = true) in Hb.
  pose proof Hb as Hb'.
  unfold bounded, canonical_mantissa in Hb'.
  apply andb_prop in Hb'. destruct Hb' as [Hc He].
  apply Z.eqb_eq in Hc. apply Z.leb_le in He.
  unfold SF64mul, SFmul. rewrite Pos.mul_comm.
  unfold binary_round_aux, shr_fexp. cbn [Zdigits2].
  rewrite digits2_pos_shift52.
  replace (fexp prec emax (Zpos (digits2_pos m) + 52 + (e + -52)) - (e + -52))
    with 52 by (replace (Zpos (digits2_pos m) + 52 + (e + -52))
                  with (Zpos (digits2_pos m) + e) by lia; lia).
  assert (S : shr (shr_record_of_loc (Zpos (4503599627370496 * m)) loc_Exact) (e + -52) 52
              = ({| shr_m := Zpos m; shr_r := false; shr_s := false |}, e)).
  { unfold shr. f_equal. lia. }
  rewrite S. cbn [shr_m loc_of_shr_record shr_r shr_s round_nearest_even Zdigits2].
  replace (fexp prec emax (Zpos (digits2_pos m) + e) - e) with 0 by lia.
  cbn [shr shr_record_of_loc shr_m].
  rewrite xorb_false_r.
  replace (e <=? emax - prec) with true by (symmetry; apply Z.leb_le; exact He).
  reflexivity.
Qed.
End Binary64MulOne.

Lemma b64_mul_one_r (x : float) : (x * 1.0)%float = x.
Proof.
  rewrite <- (SF2Prim_Prim2SF (x * 1.0)), mul_spec, b64_one_repr.
  rewrite SF64mul_one_r by apply Prim2SF_valid.
  apply SF2Prim_Prim2SF.
Qed.

(** ** Binary64: rounding a fraction, in general *)
Section Binary64Rounding.
Local Open Scope Z_scope.

(** What a location says of the fraction it belongs to. *)
Lemma locate_cases (N W m : Z) (l : location) :
  l = Spec64.locate N W m ->
  match l with
  | loc_Exact => N = m * W
  | loc_Inexact c => N <> m * W /\ (2 * N ?= (2 * m + 1) * W) = c
  end.
Proof.
  intros ->. unfold Spec64.locate.
  destruct (Z.eqb_spec N (m * W)) as [E | E]; [exact E | split; [exact E | reflexivity]].
Qed.

Lemma locate_exact (N W m : Z) : N = m * W -> loc_Exact = Spec64.locate N W m.
Proof.
  intros E. unfold Spec64.locate.
  destruct (Z.eqb_spec N (m * W)); [reflexivity | contradiction].
Qed.

Lemma locate_inexact (N W m : Z) (c : comparison) :
  N <> m * W -> (2 * N ?= (2 * m + 1) * W) = c ->
  loc_Inexact c = Spec64.locate N W m.
Proof.
  intros E C. unfold Spec64.locate.
  destruct (Z.eqb_spec N (m * W)); [contradiction | rewrite C; reflexivity].
Qed.

(** One right shift of a record that describes [N / W] describes
    [N / (2 W)]. *)
Lemma shr_1_enc (N W : Z) (mrs : shr_record) :
  0 < W -> 0 <= shr_m mrs ->
  Spec64.enc N W (shr_m mrs) (loc_of_shr_record mrs) ->
  0 <= shr_m (shr_1 mrs) /\
  Spec64.enc N (W * 2) (shr_m (shr_1 mrs)) (loc_of_shr_record (shr_1 mrs)).
Proof.
  intros HW Hm [Hc Hl]. apply locate_cases in Hl.
  destruct mrs as [m r s]. cbn [shr_m] in *.
  destruct m as [ | [p | p | ] | p]; try lia;
    destruct r, s; cbn [shr_1 shr_m loc_of_shr_record orb] in *;
    (split; [lia | ]); unfold Spec64.enc; (split; [lia | ]);
    repeat match goal with
           | H : _ /\ _ |- _ => destruct H
           | H : (_ ?= _) = Gt |- _ => apply Z.compare_gt_iff in H
           | H : (_ ?= _) = Lt |- _ => apply Z.compare_lt_iff in H
           | H : (_ ?= _) = Eq |- _ => apply Z.compare_eq_iff in H
           end;
    first [ apply locate_exact; lia
          | apply locate_inexact;
            [lia | first [apply Z.compare_gt_iff; lia
                         | apply Z.compare_lt_iff; lia
                         | apply Z.compare_eq_iff; lia]] ].
Qed.

(** [n] right shifts describe [N / (2^n W)]. *)
Lemma iter_shr_1_enc (n : positive) :
  forall (N W : Z) (mrs : shr_record),
    0 < W -> 0 <= shr_m mrs ->
    Spec64.enc N W (shr_m mrs) (loc_of_shr_record mrs) ->
    0 <= shr_m (iter_pos shr_1 n mrs) /\
    Spec64.enc N (W * 2 ^ Zpos n) (shr_m (iter_pos shr_1 n mrs))
      (loc_of_shr_record (iter_pos shr_1 n mrs)).
Proof.
  assert (P : forall k, 0 < 2 ^ Zpos k) by (intros; apply Z.pow_pos_nonneg; lia).
  induction n as [n IH | n IH | ]; intros N W mrs HW Hm He; cbn [iter_pos].
  - destruct (shr_1_enc N W mrs HW Hm He) as [M1 E1].
    destruct (IH N (W * 2) _ ltac:(lia) M1 E1) as [M2 E2].
    pose proof (P n).
    destruct (IH N (W * 2 * 2 ^ Zpos n) _ ltac:(nia) M2 E2) as [M3 E3].
    split; [exact M3 | ].
    replace (W * 2 ^ Zpos n~1) with (W * 2 * 2 ^ Zpos n * 2 ^ Zpos n); [exact E3 | ].
    replace (Zpos n~1) with (1 + Zpos n + Zpos n) by lia.
    rewrite !Z.pow_add_r, Z.pow_1_r by lia. ring.
  - destruct (IH N W _ HW Hm He) as [M2 E2].
    pose proof (P n).
    destruct (IH N (W * 2 ^ Zpos n) _ ltac:(nia) M2 E2) as [M3 E3].
    split; [exact M3 | ].
    replace (W * 2 ^ Zpos n~0) with (W * 2 ^ Zpos n * 2 ^ Zpos n); [exact E3 | ].
    replace (Zpos n~0) with (Zpos n + Zpos n) by lia.
    rewrite !Z.pow_add_r by lia. ring.
  - change (2 ^ 1) with 2. apply shr_1_enc; assumption.
Qed.

(** The first [shr_fexp] of a rounding, in general: the mantissa is shifted
    right by the number [n] of bits the format cannot hold, and the record
    describes the same fraction on the coarser grid. *)
Lemma shr_fexp_enc_general (N W q e : Z) (l : location) :
  0 < W -> 0 <= q -> Spec64.enc N W q l ->
  0 <= fexp prec emax (Zdigits2 q + e) - e ->
  exists mrs,
    shr_fexp prec emax q e l = (mrs, fexp prec emax (Zdigits2 q + e)) /\
    0 <= shr_m mrs /\
    Spec64.enc N (W * 2 ^ (fexp prec emax (Zdigits2 q + e) - e))
      (shr_m mrs) (loc_of_shr_record mrs).
Proof.
  intros HW Hq He Hn. unfold shr_fexp, shr.
  assert (M : shr_m (shr_record_of_loc q l) = q)
    by (destruct l as [ | [ | | ]]; reflexivity).
  assert (L : loc_of_shr_record (shr_record_of_loc q l) = l)
    by (destruct l as [ | [ | | ]]; reflexivity).
  destruct (fexp prec emax (Zdigits2 q + e) - e) as [ | n | n] eqn:D; try lia.
  - exists (shr_record_of_loc q l). rewrite M, L, Z.pow_0_r, Z.mul_1_r.
    split; [f_equal; lia | ]. split; assumption.
  - exists (iter_pos shr_1 n (shr_record_of_loc q l)).
    split; [f_equal; lia | ].
    apply iter_shr_1_enc; rewrite ?M, ?L; assumption.
Qed.

(** After that shift the mantissa fits in 53 bits, and it has exactly 53
    above the smallest exponent. *)
Lemma enc_shift_bounds (N W q e m1 : Z) (l l1 : location) :
  0 < W -> 0 <= q -> Spec64.enc N W q l ->
  0 <= fexp prec emax (Zdigits2 q + e) - e ->
  0 <= m1 ->
  Spec64.enc N (W * 2 ^ (fexp prec emax (Zdigits2 q + e) - e)) m1 l1 ->
  m1 < 2 ^ 53 /\
  (0 < q -> -1074 < fexp prec emax (Zdigits2 q + e) -> 2 ^ 52 <= m1).
Proof.
  intros HW Hq [Hc _] Hn Hm [Hc1 _].
  set (n := fexp prec emax (Zdigits2 q + e) - e) in *.
  assert (P : 0 < 2 ^ n) by (apply Z.pow_pos_nonneg; lia).
  assert (HWn : 0 < W * 2 ^ n) by (apply Z.mul_pos_pos; assumption).
  destruct q as [ | p | p]; try lia.
  - split; [ | lia].
    assert (N < 1 * (W * 2 ^ n)).
    { rewrite Z.mul_1_l. apply Z.lt_le_trans with (W * 1); [lia | ].
      apply Z.mul_le_mono_nonneg_l; lia. }
    assert (m1 * (W * 2 ^ n) < 1 * (W * 2 ^ n)) by lia.
    apply Z.mul_lt_mono_pos_r in H0; lia.
  - cbn [Zdigits2] in *.
    pose proof (digits2_pos_bounds p) as [Dl Du].
    set (d := Zpos (digits2_pos p)) in *.
    assert (Dp : 0 < d) by reflexivity.
    assert (Fx : fexp prec emax (d + e) = Z.max (d + e - 53) (-1074)) by reflexivity.
    split.
    + assert (A : 2 ^ d <= 2 ^ 53 * 2 ^ n).
      { rewrite <- Z.pow_add_r by lia. apply Z.pow_le_mono_r; lia. }
      assert (B : (Zpos p + 1) * W <= 2 ^ d * W)
        by (apply Z.mul_le_mono_nonneg_r; lia).
      assert (C : 2 ^ d * W <= 2 ^ 53 * 2 ^ n * W)
        by (apply Z.mul_le_mono_nonneg_r; lia).
      assert (E : m1 * (W * 2 ^ n) < 2 ^ 53 * (W * 2 ^ n)).
      { replace (2 ^ 53 * (W * 2 ^ n)) with (2 ^ 53 * 2 ^ n * W) by ring. lia. }
      apply Z.mul_lt_mono_pos_r in E; lia.
    + intros _ Hnorm.
      assert (Hd : d = n + 53) by lia.
      assert (A : 2 ^ (d - 1) = 2 ^ 52 * 2 ^ n).
      { rewrite <- Z.pow_add_r by lia. f_equal. lia. }
      assert (B : 2 ^ (d - 1) * W <= Zpos p * W)
        by (apply Z.mul_le_mono_nonneg_r; lia).
      assert (E : 2 ^ 52 * (W * 2 ^ n) < (m1 + 1) * (W * 2 ^ n)).
      { replace (2 ^ 52 * (W * 2 ^ n)) with (2 ^ 52 * 2 ^ n * W) by ring.
        rewrite <- A. lia. }
      apply Z.mul_lt_mono_pos_r in E; lia.
Qed.

(** The second [shr_fexp] leaves a rounded mantissa below [2^53] alone. *)
Lemma shr_fexp_small (a e : Z) :
  0 <= a < 2 ^ 53 -> -1074 <= e ->
  exists mrs, shr_fexp prec emax a e loc_Exact = (mrs, e) /\ shr_m mrs = a.
Proof.
  intros [Hl Hu] He. unfold shr_fexp, shr.
  assert (Hn : fexp prec emax (Zdigits2 a + e) - e <= 0).
  { destruct a as [ | p | p]; try lia; cbn [Zdigits2].
    - unfold fexp, emin, prec, emax. lia.
    - pose proof (digits2_pos_bounds p) as [Dl _].
      assert (Zpos (digits2_pos p) - 1 < 53)
        by (apply (Z.pow_lt_mono_r_iff 2); lia).
      unfold fexp, emin, prec, emax. lia. }
  destruct (fexp prec emax (Zdigits2 a + e) - e) as [ | n | n]; try lia;
    eexists; split; reflexivity.
Qed.

(** The rounding of a described fraction, in one formula. *)
Lemma binary_round_aux_enc_general (N W q e : Z) (l : location) :
  0 < W -> 0 <= q -> Spec64.enc N W q l ->
  0 < q \/ e <= -1074 ->
  0 <= fexp prec emax (Zdigits2 q + e) - e ->
  exists m1 l1,
    0 <= m1 < 2 ^ 53 /\
    (-1074 < fexp prec emax (Zdigits2 q + e) -> 2 ^ 52 <= m1) /\
    Spec64.enc N (W * 2 ^ (fexp prec emax (Zdigits2 q + e) - e)) m1 l1 /\
    binary_round_aux prec emax false q e l
    = Spec64.pack (Spec64.renorm (round_nearest_even m1 l1)
                     (fexp prec emax (Zdigits2 q + e))).
Proof.
  intros HW Hq He Hpos Hn.
  destruct (shr_fexp_enc_general N W q e l HW Hq He Hn) as (mrs & E1 & M1 & Enc1).
  destruct (enc_shift_bounds N W q e (shr_m mrs) l (loc_of_shr_record mrs)
              HW Hq He Hn M1 Enc1) as [U1 L1].
  exists (shr_m mrs), (loc_of_shr_record mrs).
  split; [lia | ]. split.
  { intros Hnorm. destruct (Z.eq_dec q 0) as [Z | Z]; [ | apply L1; lia].
    exfalso. subst q. cbn [Zdigits2] in Hnorm.
    unfold fexp, emin, prec, emax in Hnorm. lia. }
  split; [exact Enc1 | ].
  unfold binary_round_aux. rewrite E1.
  pose proof (round_nearest_even_bounds (shr_m mrs) (loc_of_shr_record mrs)) as R.
  set (a := round_nearest_even (shr_m mrs) (loc_of_shr_record mrs)) in *.
  set (e1 := fexp prec emax (Zdigits2 q + e)) in *.
  assert (He1 : -1074 <= e1) by (subst e1; unfold fexp, emin, prec, emax; lia).
  destruct (Z.ltb_spec a (2 ^ 53)) as [Hs | Hs].
  - destruct (shr_fexp_small a e1) as (mrs2 & E2 & M2); [lia | exact He1 | ].
    rewrite E2, M2. unfold Spec64.renorm.
    replace (a <? 2 ^ 53) with true by (symmetry; apply Z.ltb_lt; exact Hs).
    reflexivity.
  - destruct (shr_fexp_renorm a e1) as (mrs2 & E2 & M2); [lia | exact He1 | ].
    rewrite E2. unfold Spec64.pack. rewrite M2. reflexivity.
Qed.

(** Two described fractions after their shifts: the larger value has the
    larger exponent, or the same exponent and the larger rounded mantissa. *)
Lemma enc_lex_general (N1 W1 m1 E1 N2 W2 m2 E2 : Z) (l1 l2 : location) :
  0 < W1 -> 0 < W2 ->
  Spec64.enc N1 W1 m1 l1 -> Spec64.enc N2 W2 m2 l2 ->
  0 <= m1 < 2 ^ 53 -> 0 <= m2 -> (E1 < E2 -> 2 ^ 52 <= m2) ->
  (E2 <= E1 -> N2 * W1 <= N1 * W2 * 2 ^ (E1 - E2)) ->
  (E1 < E2 -> N2 * W1 * 2 ^ (E2 - E1) <= N1 * W2) ->
  E2 < E1 \/ (E2 = E1 /\ round_nearest_even m2 l2 <= round_nearest_even m1 l1).
Proof.
  intros HW1 HW2 H1 H2 B1 B2 Hn2 Hge Hlt.
  destruct (Z.lt_trichotomy E2 E1) as [L | [L | L]]; [left; exact L | | ].
  - right. split; [exact L | ].
    apply (round_nearest_even_enc_le N1 W1 m1 N2 W2 m2); try assumption.
    specialize (Hge ltac:(lia)). subst E2.
    rewrite Z.sub_diag, Z.mul_1_r in Hge. exact Hge.
  - exfalso. specialize (Hlt L). specialize (Hn2 L).
    destruct H1 as [[_ U1] _]. destruct H2 as [[L2 _] _].
    assert (K : 2 <= 2 ^ (E2 - E1)).
    { change 2 with (2 ^ 1) at 1. apply Z.pow_le_mono_r; lia. }
    assert (HW : 0 < W1 * W2) by (apply Z.mul_pos_pos; assumption).
    assert (A : 2 ^ 52 * (W1 * W2) * 2 <= N2 * W1 * 2 ^ (E2 - E1)).
    { apply Z.mul_le_mono_nonneg; try lia.
      replace (2 ^ 52 * (W1 * W2)) with (2 ^ 52 * W2 * W1) by ring.
      apply Z.mul_le_mono_nonneg_r; [lia | ].
      apply Z.le_trans with (m2 * W2); [ | exact L2].
      apply Z.mul_le_mono_nonneg_r; lia. }
    assert (B : N1 * W2 < 2 ^ 53 * (W1 * W2)).
    { replace (2 ^ 53 * (W1 * W2)) with (2 ^ 53 * W1 * W2) by ring.
      apply Z.mul_lt_mono_pos_r; [exact HW2 | ].
      apply Z.lt_le_trans with ((m1 + 1) * W1); [exact U1 | ].
      apply Z.mul_le_mono_nonneg_r; lia. }
    lia.
Qed.

(** Packing keeps the order, zero included. *)
Lemma SFleb_pack_general (b1 b2 e1 e2 : Z) :
  0 <= b1 -> 0 <= b2 -> (b1 = 0 -> b2 = 0) ->
  e2 < e1 \/ (e2 = e1 /\ b2 <= b1) ->
  SFleb (Spec64.pack (b2, e2)) (Spec64.pack (b1, e1)) = true.
Proof.
  intros H1 H2 Hz Hlex.
  destruct (Z.eq_dec b2 0) as [-> | N2].
  - unfold Spec64.pack. cbn [fst snd].
    destruct b1 as [ | p1 | p1]; try lia; [reflexivity | ].
    destruct (e1 <=? 971); reflexivity.
  - apply SFleb_pack; lia.
Qed.

(** The order of two rounded fractions follows from the order of their
    exponents and rounded mantissas. *)
Lemma SFleb_pack_renorm_general (a1 a2 e1 e2 : Z) :
  0 <= a1 <= 2 ^ 53 -> 0 <= a2 <= 2 ^ 53 ->
  -1074 <= e2 -> (-1074 < e1 -> 2 ^ 52 <= a1) ->
  e2 < e1 \/ (e2 = e1 /\ a2 <= a1) ->
  SFleb (Spec64.pack (Spec64.renorm a2 e2)) (Spec64.pack (Spec64.renorm a1 e1))
  = true.
Proof.
  intros H1 H2 He2 Hn1 Hlex. unfold Spec64.renorm.
  destruct (Z.ltb_spec a1 (2 ^ 53)), (Z.ltb_spec a2 (2 ^ 53));
    apply SFleb_pack_general; lia.
Qed.

(** Rounding is monotone: of two described fractions scaled by powers of
    two, the smaller value does not round to the larger float. *)
Lemma rounded_le (N1 W1 m1 E1 N2 W2 m2 E2 : Z) (l1 l2 : location) :
  0 < W1 -> 0 < W2 ->
  Spec64.enc N1 W1 m1 l1 -> Spec64.enc N2 W2 m2 l2 ->
  0 <= m1 < 2 ^ 53 -> 0 <= m2 < 2 ^ 53 ->
  -1074 <= E1 -> -1074 <= E2 ->
  (-1074 < E1 -> 2 ^ 52 <= m1) -> (-1074 < E2 -> 2 ^ 52 <= m2) ->
  (E2 <= E1 -> N2 * W1 <= N1 * W2 * 2 ^ (E1 - E2)) ->
  (E1 < E2 -> N2 * W1 * 2 ^ (E2 - E1) <= N1 * W2) ->
  SFleb (Spec64.pack (Spec64.renorm (round_nearest_even m2 l2) E2))
        (Spec64.pack (Spec64.renorm (round_nearest_even m1 l1) E1)) = true.
Proof.
  intros HW1 HW2 H1 H2 B1 B2 L1 L2 Nm1 Nm2 Hge Hlt.
  pose proof (round_nearest_even_bounds m1 l1) as R1.
  pose proof (round_nearest_even_bounds m2 l2) as R2.
  assert (Lex : E2 < E1 \/
                (E2 = E1 /\ round_nearest_even m2 l2 <= round_nearest_even m1 l1)).
  { apply (enc_lex_general N1 W1 m1 E1 N2 W2 m2 E2 l1 l2); try assumption; lia. }
  apply SFleb_pack_renorm_general; [lia | lia | exact L2 | lia | exact Lex].
Qed.

(** The product of two mantissas has at least the bits of both, less one. *)
Lemma digits2_pos_mul (a b : positive) :
  Zpos (digits2_pos a) + Zpos (digits2_pos b) - 1 <= Zpos (digits2_pos (a * b)).
Proof.
  pose proof (digits2_pos_bounds a) as [La _].
  pose proof (digits2_pos_bounds b) as [Lb _].
  pose proof (digits2_pos_bounds (a * b)) as [_ U].
  assert (0 < Zpos (digits2_pos a)) by reflexivity.
  assert (0 < Zpos (digits2_pos b)) by reflexivity.
  assert (P : 2 ^ (Zpos (digits2_pos a) - 1) * 2 ^ (Zpos (digits2_pos b) - 1)
              <= Zpos a * Zpos b).
  { apply Z.mul_le_mono_nonneg; try assumption; apply Z.pow_nonneg; lia. }
  rewrite <- Z.pow_add_r in P by lia. rewrite Pos2Z.inj_mul in U.
  assert (L : 2 ^ (Zpos (digits2_pos a) - 1 + (Zpos (digits2_pos b) - 1))
              < 2 ^ Zpos (digits2_pos (a * b))) by lia.
  apply Z.pow_lt_mono_r_iff in L; lia.
Qed.

(** The order of two positive floats, on their mantissas. *)
Lemma SFleb_scaled (m1 m2 : positive) (e1 e2 : Z) :
  bounded prec emax m1 e1 = true -> bounded prec emax m2 e2 = true ->
  SFleb (S754_finite false m1 e1) (S754_finite false m2 e2) = true ->
  e1 <= e2 /\ Zpos m1 <= Zpos m2 * 2 ^ (e2 - e1).
Proof.
  intros Hb1 Hb2.
  destruct (bounded_canonical m1 e1 Hb1) as (Hd1 & He1 & _).
  destruct (bounded_canonical m2 e2 Hb2) as (_ & He2 & Hn2).
  clear Hb1 Hb2. unfold SFleb, SFcompare.
  destruct (Z.compare_spec e1 e2) as [E | E | E]; [ | | intros F; discriminate F].
  - rewrite Pos.compare_cont_spec. cbn [Pos.switch_Eq].
    destruct (Pos.compare_spec m1 m2) as [C | C | C];
      [ | | intros F; discriminate F]; intros _; subst e2;
      rewrite Z.sub_diag, Z.pow_0_r; lia.
  - intros _. split; [lia | ].
    pose proof (digits2_pos_bounds m1) as [_ U1].
    pose proof (digits2_pos_bounds m2) as [L2 _].
    assert (D : Zpos (digits2_pos m2) = 53) by (apply Hn2; lia).
    rewrite D in L2. change (2 ^ (53 - 1)) with 4503599627370496 in L2.
    assert (U : 2 ^ Zpos (digits2_pos m1) <= 2 ^ 53) by (apply Z.pow_le_mono_r; lia).
    change (2 ^ 53) with 9007199254740992 in U.
    assert (T : 2 ^ 1 <= 2 ^ (e2 - e1)) by (apply Z.pow_le_mono_r; lia).
    change (2 ^ 1) with 2 in T.
    assert (Zpos m2 * 2 <= Zpos m2 * 2 ^ (e2 - e1))
      by (apply Z.mul_le_mono_nonneg_l; lia).
    lia.
Qed.

(** The product of two positive floats, as a rounded fraction: the exact
    product of the mantissas loses [n] bits. *)
Lemma SF64mul_enc (mx mc : positive) (ex ec : Z) :
  bounded prec emax mx ex = true -> bounded prec emax mc ec = true ->
  exists n m1 l1,
    0 <= n /\ 0 <= m1 < 2 ^ 53 /\ -1074 <= ex + ec + n /\
    (-1074 < ex + ec + n -> 2 ^ 52 <= m1) /\
    Spec64.enc (Zpos mx * Zpos mc) (2 ^ n) m1 l1 /\
    SF64mul (S754_finite false mx ex) (S754_finite false mc ec)
    = Spec64.pack (Spec64.renorm (round_nearest_even m1 l1) (ex + ec + n)).
Proof.
  intros Hbx Hbc.
  destruct (bounded_canonical mx ex Hbx) as (Hdx & Hex & Hnx).
  destruct (bounded_canonical mc ec Hbc) as (Hdc & Hec & Hnc).
  clear Hbx Hbc.
  pose proof (digits2_pos_mul mx mc) as Hd.
  assert (0 < Zpos (digits2_pos mx)) by reflexivity.
  assert (0 < Zpos (digits2_pos mc)) by reflexivity.
  set (d := Zpos (digits2_pos (mx * mc))) in *.
  assert (Fx : fexp prec emax (d + (ex + ec)) = Z.max (d + (ex + ec) - 53) (-1074))
    by reflexivity.
  assert (Hn : 0 <= fexp prec emax (d + (ex + ec)) - (ex + ec)) by lia.
  destruct (binary_round_aux_enc_general (Zpos (mx * mc)) 1 (Zpos (mx * mc))
              (ex + ec) loc_Exact) as (m1 & l1 & Bm & Nm & Enc & R).
  - lia.
  - lia.
  - split; [lia | ]. apply locate_exact. lia.
  - left. reflexivity.
  - exact Hn.
  - cbn [Zdigits2] in *. fold d in Bm, Nm, Enc, R.
    exists (fexp prec emax (d + (ex + ec)) - (ex + ec)), m1, l1.
    replace (ex + ec + (fexp prec emax (d + (ex + ec)) - (ex + ec)))
      with (fexp prec emax (d + (ex + ec))) by lia.
    rewrite Z.mul_1_l, Pos2Z.inj_mul in Enc.
    split; [exact Hn | ]. split; [exact Bm | ]. split; [lia | ].
    split; [exact Nm | ]. split; [exact Enc | ].
    cbn [SF64mul SFmul xorb]. exact R.
Qed.

(** Multiplying by a positive float keeps the order of positive floats. *)
Lemma SF64mul_mono (mx1 mx2 mc : positive) (ex1 ex2 ec : Z) :
  bounded prec emax mx1 ex1 = true -> bounded prec emax mx2 ex2 = true ->
  bounded prec emax mc ec = true ->
  SFleb (S754_finite false mx1 ex1) (S754_finite false mx2 ex2) = true ->
  SFleb (SF64mul (S754_finite false mx1 ex1) (S754_finite false mc ec))
        (SF64mul (S754_finite false mx2 ex2) (S754_finite false mc ec)) = true.
Proof.
  intros Hb1 Hb2 Hbc Hle.
  destruct (SFleb_scaled mx1 mx2 ex1 ex2 Hb1 Hb2 Hle) as [Hee Hm].
  destruct (SF64mul_enc mx1 mc ex1 ec Hb1 Hbc)
    as (n1 & m1 & l1 & Hn1 & B1 & L1 & N1 & Enc1 & ->).
  destruct (SF64mul_enc mx2 mc ex2 ec Hb2 Hbc)
    as (n2 & m2 & l2 & Hn2 & B2 & L2 & N2 & Enc2 & ->).
  clear Hb1 Hb2 Hbc Hle.
  assert (P : forall k, 0 <= k -> 0 < 2 ^ k) by (intros; apply Z.pow_pos_nonneg; lia).
  pose proof (P n1 Hn1). pose proof (P n2 Hn2).
  apply (rounded_le (Zpos mx2 * Zpos mc) (2 ^ n2) m2 _ (Zpos mx1 * Zpos mc) (2 ^ n1) m1 _
           l2 l1); try assumption.
  - intros L.
    set (K := ex2 + ec + n2 - (ex1 + ec + n1)).
    assert (HK : 0 <= K) by (subst K; lia).
    assert (E : 2 ^ n1 * 2 ^ K = 2 ^ (ex2 - ex1) * 2 ^ n2).
    { rewrite <- !Z.pow_add_r by lia. f_equal. subst K. lia. }
    replace (Zpos mx2 * Zpos mc * 2 ^ n1 * 2 ^ K)
      with (Zpos mx2 * Zpos mc * (2 ^ n1 * 2 ^ K)) by ring.
    rewrite E.
    replace (Zpos mx1 * Zpos mc * 2 ^ n2) with (Zpos mx1 * (Zpos mc * 2 ^ n2)) by ring.
    replace (Zpos mx2 * Zpos mc * (2 ^ (ex2 - ex1) * 2 ^ n2))
      with (Zpos mx2 * 2 ^ (ex2 - ex1) * (Zpos mc * 2 ^ n2)) by ring.
    apply Z.mul_le_mono_nonneg_r; [ | exact Hm].
    apply Z.mul_nonneg_nonneg; lia.
  - intros L.
    set (K := ex1 + ec + n1 - (ex2 + ec + n2)).
    assert (HK : 0 <= K) by (subst K; lia).
    assert (E : 2 ^ n1 = 2 ^ (ex2 - ex1) * 2 ^ n2 * 2 ^ K).
    { rewrite <- !Z.pow_add_r by lia. f_equal. subst K. lia. }
    pose proof (P K HK).
    rewrite E.
    replace (Zpos mx1 * Zpos mc * 2 ^ n2 * 2 ^ K)
      with (Zpos mx1 * (Zpos mc * 2 ^ n2 * 2 ^ K)) by ring.
    replace (Zpos mx2 * Zpos mc * (2 ^ (ex2 - ex1) * 2 ^ n2 * 2 ^ K))
      with (Zpos mx2 * 2 ^ (ex2 - ex1) * (Zpos mc * 2 ^ n2 * 2 ^ K)) by ring.
    apply Z.mul_le_mono_nonneg_r; [ | exact Hm].
    repeat apply Z.mul_nonneg_nonneg; lia.
Qed.

(** The quotient of two positive floats, as a rounded fraction: the dividend
    is shifted left by [s] bits before the division and the quotient loses
    [n] bits in the rounding. *)
Lemma SF64div_enc_general (mx mc : positive) (ex ec : Z) :
  bounded prec emax mx ex = true -> bounded prec emax mc ec = true ->
  exists s n m1 l1,
    0 <= s /\ 0 <= n /\ 0 <= m1 < 2 ^ 53 /\ -1074 <= ex - ec - s + n /\
    (-1074 < ex - ec - s + n -> 2 ^ 52 <= m1) /\
    Spec64.enc (Zpos mx * 2 ^ s) (Zpos mc * 2 ^ n) m1 l1 /\
    SF64div (S754_finite false mx ex) (S754_finite false mc ec)
    = Spec64.pack (Spec64.renorm (round_nearest_even m1 l1) (ex - ec - s + n)).
Proof.
  intros Hbx Hbc.
  destruct (bounded_canonical mx ex Hbx) as (Hdx & Hex & Hnx).
  destruct (bounded_canonical mc ec Hbc) as (Hdc & Hec & Hnc).
  clear Hbx Hbc.
  pose proof (digits2_pos_bounds mx) as [Lx Ux].
  pose proof (digits2_pos_bounds mc) as [Lc Uc].
  set (dx := Zpos (digits2_pos mx)) in *. set (dc := Zpos (digits2_pos mc)) in *.
  assert (Px : 0 < dx) by reflexivity. assert (Pc : 0 < dc) by reflexivity.
  set (e' := Z.min (fexp prec emax (dx + ex - (dc + ec))) (ex - ec)).
  assert (Fx : fexp prec emax (dx + ex - (dc + ec))
               = Z.max (dx + ex - (dc + ec) - 53) (-1074)) by reflexivity.
  set (s := ex - ec - e').
  assert (Hs : 0 <= s) by (subst s e'; lia).
  assert (Core : SFdiv_core_binary prec emax (Zpos mx) ex (Zpos mc) ec
                 = (fst (Z.div_eucl (Zpos mx * 2 ^ s) (Zpos mc)), e',
                    new_location (Zpos mc) (snd (Z.div_eucl (Zpos mx * 2 ^ s) (Zpos mc))))).
  { unfold SFdiv_core_binary. cbn [Zdigits2]. fold dx dc. fold e'. fold s.
    cbv zeta.
    assert (M : forall z, 0 <= z ->
                match z with
                | 0 => Zpos mx
                | Zpos _ => Z.shiftl (Zpos mx) z
                | Zneg _ => 0
                end = Zpos mx * 2 ^ z).
    { intros [ | p | p] Hz; [rewrite Z.mul_1_r; reflexivity | | lia].
      rewrite Z.shiftl_mul_pow2 by lia. reflexivity. }
    rewrite (M s Hs).
    destruct (Z.div_eucl (Zpos mx * 2 ^ s) (Zpos mc)) as [q r]. reflexivity. }
  set (q := fst (Z.div_eucl (Zpos mx * 2 ^ s) (Zpos mc))) in *.
  assert (P2 : 0 < 2 ^ s) by (apply Z.pow_pos_nonneg; lia).
  assert (HN : 0 <= Zpos mx * 2 ^ s) by (apply Z.mul_nonneg_nonneg; lia).
  assert (Hq : 0 <= q) by (apply Z.div_pos; [exact HN | reflexivity]).
  assert (Enc : Spec64.enc (Zpos mx * 2 ^ s) (Zpos mc) q
                  (new_location (Zpos mc) (snd (Z.div_eucl (Zpos mx * 2 ^ s) (Zpos mc)))))
    by (apply enc_div_eucl; [reflexivity | exact HN]).
  (* above the smallest exponent the quotient has at least 53 bits *)
  assert (Big : -1074 < e' -> 2 ^ 52 <= q).
  { intros Hn. assert (Se : s = 53 - dx + dc) by (subst s e'; lia).
    apply Z.div_le_lower_bound; [reflexivity | ].
    assert (A : 2 ^ (dx - 1) * 2 ^ s = 2 ^ dc * 2 ^ 52).
    { rewrite <- !Z.pow_add_r by lia. f_equal. lia. }
    apply Z.le_trans with (2 ^ dc * 2 ^ 52).
    - apply Z.mul_le_mono_nonneg_r; lia.
    - rewrite <- A. apply Z.mul_le_mono_nonneg_r; lia. }
  assert (He' : e' <= -1074 \/ -1074 < e') by lia.
  assert (Hpos : 0 < q \/ e' <= -1074) by (destruct He'; [right | left]; lia).
  assert (Hn : 0 <= fexp prec emax (Zdigits2 q + e') - e').
  { destruct He' as [L | L].
    - unfold fexp, emin, prec, emax. lia.
    - specialize (Big L). destruct q as [ | p | p] eqn:Q; try lia.
      cbn [Zdigits2]. pose proof (digits2_pos_bounds p) as [_ U].
      assert (52 < Zpos (digits2_pos p))
        by (apply (Z.pow_lt_mono_r_iff 2); lia).
      unfold fexp, emin, prec, emax. lia. }
  destruct (binary_round_aux_enc_general (Zpos mx * 2 ^ s) (Zpos mc) q e' _
              ltac:(reflexivity) Hq Enc Hpos Hn) as (m1 & l1 & Bm & Nm & Enc1 & R).
  exists s, (fexp prec emax (Zdigits2 q + e') - e'), m1, l1.
  replace (ex - ec - s + (fexp prec emax (Zdigits2 q + e') - e'))
    with (fexp prec emax (Zdigits2 q + e')) by (subst s; lia).
  split; [exact Hs | ]. split; [exact Hn | ]. split; [exact Bm | ].
  split; [unfold fexp, emin, prec, emax; lia | ].
  split; [exact Nm | ]. split; [exact Enc1 | ].
  unfold SF64div, SFdiv. rewrite Core. cbv beta iota zeta. cbn [xorb]. exact R.
Qed.

(** Dividing by a positive float keeps the order of positive floats. *)
Lemma SF64div_mono (mx1 mx2 mc : positive) (ex1 ex2 ec : Z) :
  bounded prec emax mx1 ex1 = true -> bounded prec emax mx2 ex2 = true ->
  bounded prec emax mc ec = true ->
  SFleb (S754_finite false mx1 ex1) (S754_finite false mx2 ex2) = true ->
  SFleb (SF64div (S754_finite false mx1 ex1) (S754_finite false mc ec))
        (SF64div (S754_finite false mx2 ex2) (S754_finite false mc ec)) = true.
Proof.
  intros Hb1 Hb2 Hbc Hle.
  destruct (SFleb_scaled mx1 mx2 ex1 ex2 Hb1 Hb2 Hle) as [Hee Hm].
  destruct (SF64div_enc_general mx1 mc ex1 ec Hb1 Hbc)
    as (s1 & n1 & m1 & l1 & Hs1 & Hn1 & B1 & L1 & N1 & Enc1 & ->).
  destruct (SF64div_enc_general mx2 mc ex2 ec Hb2 Hbc)
    as (s2 & n2 & m2 & l2 & Hs2 & Hn2 & B2 & L2 & N2 & Enc2 & ->).
  clear Hb1 Hb2 Hbc Hle.
  assert (P : forall k, 0 <= k -> 0 < 2 ^ k) by (intros; apply Z.pow_pos_nonneg; lia).
  pose proof (P n1 Hn1). pose proof (P n2 Hn2).
  pose proof (P s1 Hs1). pose proof (P s2 Hs2).
  apply (rounded_le (Zpos mx2 * 2 ^ s2) (Zpos mc * 2 ^ n2) m2 _
                    (Zpos mx1 * 2 ^ s1) (Zpos mc * 2 ^ n1) m1 _ l2 l1);
    try assumption; try (apply Z.mul_pos_pos; lia).
  - intros L.
    set (K := ex2 - ec - s2 + n2 - (ex1 - ec - s1 + n1)).
    assert (HK : 0 <= K) by (subst K; lia).
    assert (E : 2 ^ s2 * 2 ^ n1 * 2 ^ K = 2 ^ (ex2 - ex1) * (2 ^ s1 * 2 ^ n2)).
    { rewrite <- !Z.pow_add_r by lia. f_equal. subst K. lia. }
    replace (Zpos mx2 * 2 ^ s2 * (Zpos mc * 2 ^ n1) * 2 ^ K)
      with (Zpos mx2 * Zpos mc * (2 ^ s2 * 2 ^ n1 * 2 ^ K)) by ring.
    rewrite E.
    replace (Zpos mx1 * 2 ^ s1 * (Zpos mc * 2 ^ n2))
      with (Zpos mx1 * (Zpos mc * (2 ^ s1 * 2 ^ n2))) by ring.
    replace (Zpos mx2 * Zpos mc * (2 ^ (ex2 - ex1) * (2 ^ s1 * 2 ^ n2)))
      with (Zpos mx2 * 2 ^ (ex2 - ex1) * (Zpos mc * (2 ^ s1 * 2 ^ n2))) by ring.
    apply Z.mul_le_mono_nonneg_r; [ | exact Hm].
    repeat apply Z.mul_nonneg_nonneg; lia.
  - intros L.
    set (K := ex1 - ec - s1 + n1 - (ex2 - ec - s2 + n2)).
    assert (HK : 0 <= K) by (subst K; lia).
    assert (E : 2 ^ s2 * 2 ^ n1 = 2 ^ (ex2 - ex1) * (2 ^ s1 * 2 ^ n2 * 2 ^ K)).
    { rewrite <- !Z.pow_add_r by lia. f_equal. subst K. lia. }
    pose proof (P K HK).
    replace (Zpos mx2 * 2 ^ s2 * (Zpos mc * 2 ^ n1))
      with (Zpos mx2 * Zpos mc * (2 ^ s2 * 2 ^ n1)) by ring.
    rewrite E.
    replace (Zpos mx1 * 2 ^ s1 * (Zpos mc * 2 ^ n2) * 2 ^ K)
      with (Zpos mx1 * (Zpos mc * (2 ^ s1 * 2 ^ n2 * 2 ^ K))) by ring.
    replace (Zpos mx2 * Zpos mc * (2 ^ (ex2 - ex1) * (2 ^ s1 * 2 ^ n2 * 2 ^ K)))
      with (Zpos mx2 * 2 ^ (ex2 - ex1) * (Zpos mc * (2 ^ s1 * 2 ^ n2 * 2 ^ K))) by ring.
    apply Z.mul_le_mono_nonneg_r; [ | exact Hm].
    repeat apply Z.mul_nonneg_nonneg; lia.
Qed.

(** Dividing a positive float by a larger positive float does not give
    more. *)
Lemma SF64div_antitone_general (mh me1 me2 : positive) (eh ee1 ee2 : Z) :
  bounded prec emax mh eh = true ->
  bounded prec emax me1 ee1 = true -> bounded prec emax me2 ee2 = true ->
  SFleb (S754_finite false me1 ee1) (S754_finite false me2 ee2) = true ->
  SFleb (SF64div (S754_finite false mh eh) (S754_finite false me2 ee2))
        (SF64div (S754_finite false mh eh) (S754_finite false me1 ee1)) = true.
Proof.
  intros Hbh Hb1 Hb2 Hle.
  destruct (SFleb_scaled me1 me2 ee1 ee2 Hb1 Hb2 Hle) as [Hee Hm].
  destruct (SF64div_enc_general mh me1 eh ee1 Hbh Hb1)
    as (s1 & n1 & m1 & l1 & Hs1 & Hn1 & B1 & L1 & N1 & Enc1 & ->).
  destruct (SF64div_enc_general mh me2 eh ee2 Hbh Hb2)
    as (s2 & n2 & m2 & l2 & Hs2 & Hn2 & B2 & L2 & N2 & Enc2 & ->).
  clear Hbh Hb1 Hb2 Hle.
  assert (P : forall k, 0 <= k -> 0 < 2 ^ k) by (intros; apply Z.pow_pos_nonneg; lia).
  pose proof (P n1 Hn1). pose proof (P n2 Hn2).
  pose proof (P s1 Hs1). pose proof (P s2 Hs2).
  apply (rounded_le (Zpos mh * 2 ^ s1) (Zpos me1 * 2 ^ n1) m1 _
                    (Zpos mh * 2 ^ s2) (Zpos me2 * 2 ^ n2) m2 _ l1 l2);
    try assumption; try (apply Z.mul_pos_pos; lia).
  - intros L.
    set (K := eh - ee1 - s1 + n1 - (eh - ee2 - s2 + n2)).
    assert (HK : 0 <= K) by (subst K; lia).
    assert (E : 2 ^ s1 * 2 ^ n2 * 2 ^ K = 2 ^ s2 * 2 ^ n1 * 2 ^ (ee2 - ee1)).
    { rewrite <- !Z.pow_add_r by lia. f_equal. subst K. lia. }
    replace (Zpos mh * 2 ^ s1 * (Zpos me2 * 2 ^ n2) * 2 ^ K)
      with (Zpos mh * Zpos me2 * (2 ^ s1 * 2 ^ n2 * 2 ^ K)) by ring.
    rewrite E.
    replace (Zpos mh * 2 ^ s2 * (Zpos me1 * 2 ^ n1))
      with (Zpos mh * 2 ^ s2 * 2 ^ n1 * Zpos me1) by ring.
    replace (Zpos mh * Zpos me2 * (2 ^ s2 * 2 ^ n1 * 2 ^ (ee2 - ee1)))
      with (Zpos mh * 2 ^ s2 * 2 ^ n1 * (Zpos me2 * 2 ^ (ee2 - ee1))) by ring.
    apply Z.mul_le_mono_nonneg_l; [ | exact Hm].
    repeat apply Z.mul_nonneg_nonneg; lia.
  - intros L.
    set (K := eh - ee2 - s2 + n2 - (eh - ee1 - s1 + n1)).
    assert (HK : 0 <= K) by (subst K; lia).
    assert (E : 2 ^ s1 * 2 ^ n2 = 2 ^ s2 * 2 ^ n1 * 2 ^ (ee2 - ee1) * 2 ^ K).
    { rewrite <- !Z.pow_add_r by lia. f_equal. subst K. lia. }
    pose proof (P K HK).
    replace (Zpos mh * 2 ^ s1 * (Zpos me2 * 2 ^ n2))
      with (Zpos mh * Zpos me2 * (2 ^ s1 * 2 ^ n2)) by ring.
    rewrite E.
    replace (Zpos mh * 2 ^ s2 * (Zpos me1 * 2 ^ n1) * 2 ^ K)
      with (Zpos mh * 2 ^ s2 * 2 ^ n1 * 2 ^ K * Zpos me1) by ring.
    replace (Zpos mh * Zpos me2 * (2 ^ s2 * 2 ^ n1 * 2 ^ (ee2 - ee1) * 2 ^ K))
      with (Zpos mh * 2 ^ s2 * 2 ^ n1 * 2 ^ K * (Zpos me2 * 2 ^ (ee2 - ee1))) by ring.
    apply Z.mul_le_mono_nonneg_l; [ | exact Hm].
    repeat apply Z.mul_nonneg_nonneg; lia.
Qed.
End Binary64Rounding.

(** ** Binary64: the order of values that are at least zero *)
Section Binary64Order.
Local Open Scope Z_scope.

Lemma SFleb_finite_iff (m1 m2 : positive) (e1 e2 : Z) :
  SFleb (S754_finite false m1 e1) (S754_finite false m2 e2) = true <->
  e1 < e2 \/ (e1 = e2 /\ Zpos m1 <= Zpos m2).
Proof.
  unfold SFleb, SFcompare. rewrite Pos.compare_cont_spec. cbn [Pos.switch_Eq].
  destruct (Z.compare_spec e1 e2) as [E | E | E].
  - destruct (Pos.compare_spec m1 m2) as [C | C | C]; split; intros H;
      try reflexivity; try (right; split; [exact E | ]; lia);
      try (exfalso; discriminate H); destruct H as [H | [_ H]]; lia.
  - split; [left; exact E | reflexivity].
  - split; [intros H; discriminate H | lia].
Qed.

Lemma SFltb_finite_iff (m1 m2 : positive) (e1 e2 : Z) :
  SFltb (S754_finite false m1 e1) (S754_finite false m2 e2) = true <->
  e1 < e2 \/ (e1 = e2 /\ Zpos m1 < Zpos m2).
Proof.
  unfold SFltb, SFcompare. rewrite Pos.compare_cont_spec. cbn [Pos.switch_Eq].
  destruct (Z.compare_spec e1 e2) as [E | E | E].
  - destruct (Pos.compare_spec m1 m2) as [C | C | C]; split; intros H;
      try reflexivity; try (right; split; [exact E | ]; lia);
      try (exfalso; discriminate H); destruct H as [H | [_ H]]; lia.
  - split; [left; exact E | reflexivity].
  - split; [intros H; discriminate H | lia].
Qed.

(** Among values that are at least zero the comparisons compose. *)
Lemma SFleb_trans_nonneg (x y z : spec_float) :
  Spec64.nonneg x = true ->
  SFleb x y = true -> SFleb y z = true -> SFleb x z = true.
Proof.
  intros Nx Hxy Hyz.
  destruct x as [sx | [ | ] | | [ | ] mx ex]; try discriminate Nx;
    destruct y as [sy | [ | ] | | [ | ] my ey]; try discriminate Hxy;
    destruct z as [sz | [ | ] | | [ | ] mz ez]; try discriminate Hyz;
    try reflexivity.
  apply SFleb_finite_iff in Hxy, Hyz. apply SFleb_finite_iff. lia.
Qed.

Lemma SFltb_leb_trans_nonneg (x y z : spec_float) :
  Spec64.nonneg x = true ->
  SFltb x y = true -> SFleb y z = true -> SFltb x z = true.
Proof.
  intros Nx Hxy Hyz.
  destruct x as [sx | [ | ] | | [ | ] mx ex]; try discriminate Nx;
    destruct y as [sy | [ | ] | | [ | ] my ey]; try discriminate Hxy;
    destruct z as [sz | [ | ] | | [ | ] mz ez]; try discriminate Hyz;
    try reflexivity.
  apply SFltb_finite_iff in Hxy. apply SFleb_finite_iff in Hyz.
  apply SFltb_finite_iff. lia.
Qed.

Lemma SFleb_ltb_trans_nonneg (x y z : spec_float) :
  Spec64.nonneg x = true ->
  SFleb x y = true -> SFltb y z = true -> SFltb x z = true.
Proof.
  intros Nx Hxy Hyz.
  destruct x as [sx | [ | ] | | [ | ] mx ex]; try discriminate Nx;
    destruct y as [sy | [ | ] | | [ | ] my ey]; try discriminate Hxy;
    destruct z as [sz | [ | ] | | [ | ] mz ez]; try discriminate Hyz;
    try reflexivity.
  apply SFleb_finite_iff in Hxy. apply SFltb_finite_iff in Hyz.
  apply SFltb_finite_iff. lia.
Qed.

(** What is at least a value that is at least zero is at least zero. *)
Lemma SFleb_nonneg (x y : spec_float) :
  Spec64.nonneg x = true -> SFleb x y = true -> Spec64.nonneg y = true.
Proof.
  intros Nx Hxy.
  destruct x as [sx | [ | ] | | [ | ] mx ex]; try discriminate Nx;
    destruct y as [sy | [ | ] | | [ | ] my ey]; try discriminate Hxy;
    reflexivity.
Qed.

Lemma SFleb_zero_nonneg (s : bool) (y : spec_float) :
  Spec64.nonneg y = true -> SFleb (S754_zero s) y = true.
Proof.
  destruct y as [sy | [ | ] | | [ | ] my ey]; try discriminate; reflexivity.
Qed.

Lemma SFleb_nonneg_infinity (x : spec_float) :
  Spec64.nonneg x = true -> SFleb x (S754_infinity false) = true.
Proof.
  destruct x as [sx | [ | ] | | [ | ] mx ex]; try discriminate; reflexivity.
Qed.

Lemma SF64mul_comm (x y : spec_float) : SF64mul x y = SF64mul y x.
Proof.
  destruct x as [sx | sx | | sx mx ex]; destruct y as [sy | sy | | sy my ey];
    cbn [SF64mul SFmul]; rewrite ?(xorb_comm sx sy); try reflexivity.
  rewrite (Pos.mul_comm mx my), (Z.add_comm ex ey). reflexivity.
Qed.

(** Multiplying by a value that is at least zero keeps the order of values
    that are at least zero, as long as neither product is the NaN of zero
    times infinity. *)
Lemma SF64mul_mono_nonneg (x1 x2 c : spec_float) :
  valid_binary x1 = true -> valid_binary x2 = true -> valid_binary c = true ->
  Spec64.nonneg x1 = true -> SFleb x1 x2 = true -> Spec64.nonneg c = true ->
  SF64mul x1 c <> S754_nan -> SF64mul x2 c <> S754_nan ->
  SFleb (SF64mul x1 c) (SF64mul x2 c) = true.
Proof.
  intros V1 V2 Vc N1 Hle Nc Hn1 Hn2.
  pose proof (SFleb_nonneg x1 x2 N1 Hle) as N2.
  assert (P1 : Spec64.nonneg (SF64mul x1 c) = true)
    by (destruct (SF64mul_nonneg x1 c N1 Nc); [contradiction | assumption]).
  assert (P2 : Spec64.nonneg (SF64mul x2 c) = true)
    by (destruct (SF64mul_nonneg x2 c N2 Nc); [contradiction | assumption]).
  destruct c as [sc | [ | ] | | [ | ] mc ec]; try discriminate Nc.
  - (* a zero multiplier *)
    destruct x1 as [s1 | [ | ] | | [ | ] m1 e1]; try discriminate N1;
      try (exfalso; apply Hn1; reflexivity);
      destruct x2 as [s2 | [ | ] | | [ | ] m2 e2]; try discriminate N2;
      try (exfalso; apply Hn2; reflexivity); reflexivity.
  - (* an infinite multiplier *)
    destruct x1 as [s1 | [ | ] | | [ | ] m1 e1]; try discriminate N1;
      try (exfalso; apply Hn1; reflexivity);
      destruct x2 as [s2 | [ | ] | | [ | ] m2 e2]; try discriminate N2;
      try (exfalso; apply Hn2; reflexivity); try reflexivity;
      discriminate Hle.
  - destruct x1 as [s1 | [ | ] | | [ | ] m1 e1]; try discriminate N1.
    + apply SFleb_zero_nonneg. exact P2.
    + destruct x2 as [s2 | [ | ] | | [ | ] m2 e2]; try discriminate N2;
        try discriminate Hle. reflexivity.
    + destruct x2 as [s2 | [ | ] | | [ | ] m2 e2]; try discriminate N2;
        try discriminate Hle.
      * apply SFleb_nonneg_infinity. exact P1.
      * apply SF64mul_mono; assumption.
Qed.

(** Dividing by a positive finite value keeps the order of values that are
    at least zero. *)
Lemma SF64div_mono_nonneg (x1 x2 : spec_float) (mc : positive) (ec : Z) :
  valid_binary x1 = true -> valid_binary x2 = true ->
  bounded prec emax mc ec = true ->
  Spec64.nonneg x1 = true -> SFleb x1 x2 = true ->
  SFleb (SF64div x1 (S754_finite false mc ec))
        (SF64div x2 (S754_finite false mc ec)) = true.
Proof.
  intros V1 V2 Vc N1 Hle.
  pose proof (SFleb_nonneg x1 x2 N1 Hle) as N2.
  pose proof (SF64div_nonneg x1 mc ec N1) as P1.
  pose proof (SF64div_nonneg x2 mc ec N2) as P2.
  destruct x1 as [s1 | [ | ] | | [ | ] m1 e1]; try discriminate N1.
  - apply SFleb_zero_nonneg. exact P2.
  - destruct x2 as [s2 | [ | ] | | [ | ] m2 e2]; try discriminate N2;
      try discriminate Hle. reflexivity.
  - destruct x2 as [s2 | [ | ] | | [ | ] m2 e2]; try discriminate N2;
      try discriminate Hle.
    + apply SFleb_nonneg_infinity. exact P1.
    + apply SF64div_mono; assumption.
Qed.

(** A value that is at least zero, divided by a larger positive finite
    divisor, does not give more. *)
Lemma SF64div_antitone_nonneg (h : spec_float) (m1 m2 : positive) (e1 e2 : Z) :
  valid_binary h = true -> Spec64.nonneg h = true ->
  bounded prec emax m1 e1 = true -> bounded prec emax m2 e2 = true ->
  SFleb (S754_finite false m1 e1) (S754_finite false m2 e2) = true ->
  SFleb (SF64div h (S754_finite false m2 e2))
        (SF64div h (S754_finite false m1 e1)) = true.
Proof.
  intros Vh Nh Hb1 Hb2 Hle.
  destruct h as [s | [ | ] | | [ | ] mh eh]; try discriminate Nh;
    try reflexivity.
  apply SF64div_antitone_general; assumption.
Qed.
End Binary64Order.

(** ** Binary64: a quotient by a divisor that is at most one *)
Section Binary64Quotient.
Local Open Scope Z_scope.

(** A positive float divided by a positive float that is at most one is not
    below the float, subnormal numbers included. *)
Lemma SF64div_ge_general (mh me : positive) (eh ee : Z) :
  bounded prec emax mh eh = true -> bounded prec emax me ee = true ->
  SFleb (S754_finite false me ee) (S754_finite false 4503599627370496 (-52)) = true ->
  SFleb (S754_finite false mh eh)
        (SF64div (S754_finite false mh eh) (S754_finite false me ee)) = true.
Proof.
  intros Hbh Hb Hle.
  destruct (bounded_canonical mh eh Hbh) as (Hdh & Heh & Hnh).
  assert (One : Zpos (digits2_pos me) + ee <= 0 \/ (Zpos me = 2 ^ 52 /\ ee = -52)).
  { destruct (SFleb_one me ee Hb Hle) as [T | [M E]]; [left; exact T | right].
    split; [rewrite M; reflexivity | exact E]. }
  destruct (at_most_one_mantissa me ee One) as [N M].
  rewrite Z.mul_1_l in M.
  destruct (SF64div_enc_general mh me eh ee Hbh Hb)
    as (s1 & n1 & m1 & l1 & Hs1 & Hn1 & B1 & L1 & N1 & Enc1 & ->).
  clear Hbh Hb Hle.
  pose proof (digits2_pos_bounds mh) as [Hl Hu].
  assert (Hu53 : Zpos mh < 2 ^ 53).
  { apply Z.lt_le_trans with (2 ^ Zpos (digits2_pos mh)); [exact Hu | ].
    apply Z.pow_le_mono_r; lia. }
  assert (Triv : S754_finite false mh eh
                 = Spec64.pack (Spec64.renorm (round_nearest_even (Zpos mh) loc_Exact) eh)).
  { cbn [round_nearest_even]. unfold Spec64.renorm.
    replace (Zpos mh <? 2 ^ 53) with true by (symmetry; apply Z.ltb_lt; lia).
    unfold Spec64.pack. cbn [fst snd].
    replace (eh <=? 971) with true by (symmetry; apply Z.leb_le; lia).
    reflexivity. }
  rewrite Triv at 1.
  assert (P : forall k, 0 <= k -> 0 < 2 ^ k) by (intros; apply Z.pow_pos_nonneg; lia).
  pose proof (P n1 Hn1). pose proof (P s1 Hs1).
  assert (W1 : 0 < Zpos me * 2 ^ n1) by (apply Z.mul_pos_pos; lia).
  assert (EncT : Spec64.enc (Zpos mh) 1 (Zpos mh) loc_Exact)
    by (split; [lia | apply locate_exact; lia]).
  assert (NT : -1074 < eh -> 2 ^ 52 <= Zpos mh).
  { intros Hn. specialize (Hnh Hn). rewrite Hnh in Hl. exact Hl. }
  assert (Ge : eh <= eh - ee - s1 + n1 ->
               Zpos mh * (Zpos me * 2 ^ n1)
               <= Zpos mh * 2 ^ s1 * 1 * 2 ^ (eh - ee - s1 + n1 - eh)).
  { intros L.
    set (K := eh - ee - s1 + n1 - eh).
    assert (HK : 0 <= K) by (subst K; lia).
    assert (E : 2 ^ s1 * 2 ^ K = 2 ^ n1 * 2 ^ (0 - ee)).
    { rewrite <- !Z.pow_add_r by lia. f_equal. subst K. lia. }
    replace (Zpos mh * 2 ^ s1 * 1 * 2 ^ K) with (Zpos mh * (2 ^ s1 * 2 ^ K)) by ring.
    rewrite E.
    replace (Zpos mh * (Zpos me * 2 ^ n1)) with (Zpos mh * 2 ^ n1 * Zpos me) by ring.
    replace (Zpos mh * (2 ^ n1 * 2 ^ (0 - ee))) with (Zpos mh * 2 ^ n1 * 2 ^ (0 - ee)) by ring.
    apply Z.mul_le_mono_nonneg_l; [ | exact M].
    apply Z.mul_nonneg_nonneg; lia. }
  assert (Lt : eh - ee - s1 + n1 < eh ->
               Zpos mh * (Zpos me * 2 ^ n1) * 2 ^ (eh - (eh - ee - s1 + n1))
               <= Zpos mh * 2 ^ s1 * 1).
  { intros L.
    set (K := eh - (eh - ee - s1 + n1)).
    assert (HK : 0 <= K) by (subst K; lia).
    assert (E : 2 ^ s1 = 2 ^ n1 * 2 ^ K * 2 ^ (0 - ee)).
    { rewrite <- !Z.pow_add_r by lia. f_equal. subst K. lia. }
    pose proof (P K HK).
    rewrite E.
    replace (Zpos mh * (Zpos me * 2 ^ n1) * 2 ^ K)
      with (Zpos mh * 2 ^ n1 * 2 ^ K * Zpos me) by ring.
    replace (Zpos mh * (2 ^ n1 * 2 ^ K * 2 ^ (0 - ee)) * 1)
      with (Zpos mh * 2 ^ n1 * 2 ^ K * 2 ^ (0 - ee)) by ring.
    apply Z.mul_le_mono_nonneg_l; [ | exact M].
    repeat apply Z.mul_nonneg_nonneg; lia. }
  apply (rounded_le (Zpos mh * 2 ^ s1) (Zpos me * 2 ^ n1) m1 (eh - ee - s1 + n1)
                    (Zpos mh) 1 (Zpos mh) eh l1 loc_Exact);
    try assumption; lia.
Qed.

(** The same for every value that is at least zero. *)
Lemma SF64div_ge_nonneg (h : spec_float) (me : positive) (ee : Z) :
  valid_binary h = true -> Spec64.nonneg h = true ->
  bounded prec emax me ee = true ->
  SFleb (S754_finite false me ee) (S754_finite false 4503599627370496 (-52)) = true ->
  SFleb h (SF64div h (S754_finite false me ee)) = true.
Proof.
  intros Vh Nh Hb Hle.
  destruct h as [s | [ | ] | | [ | ] mh eh]; try discriminate Nh;
    try reflexivity.
  apply SF64div_ge_general; assumption.
Qed.
End Binary64Quotient.

(** ** Binary64: order, products and quotients on floats *)
Section Binary64Floats.
Open Scope float_scope.

(** A float above zero and below plus infinity is a positive finite
    number. *)
Lemma b64_positive_finite_repr (c : float) :
  (0 <? c) = true -> (c <? infinity) = true ->
  exists m e, Prim2SF c = S754_finite false m e /\ bounded prec emax m e = true.
Proof.
  intros H0 H1. pose proof (Prim2SF_valid c) as Hv.
  rewrite ltb_spec, b64_zero_repr in H0. rewrite ltb_spec, b64_infinity_repr in H1.
  destruct (Prim2SF c) as [[ | ] | [ | ] | | [ | ] m e];
    try discriminate H0; try discriminate H1.
  exists m, e. split; [reflexivity | exact Hv].
Qed.

Lemma b64_positive_nonneg (c : float) : (0 <? c) = true -> (0 <=? c) = true.
Proof. apply b64_ltb_leb. Qed.

Lemma b64_leb_trans (a b c : float) :
  (0 <=? a) = true -> (a <=? b) = true -> (b <=? c) = true -> (a <=? c) = true.
Proof.
  rewrite b64_nonneg_spec, !leb_spec. apply SFleb_trans_nonneg.
Qed.

Lemma b64_ltb_leb_trans (a b c : float) :
  (0 <=? a) = true -> (a <? b) = true -> (b <=? c) = true -> (a <? c) = true.
Proof.
  rewrite b64_nonneg_spec, !ltb_spec, leb_spec. apply SFltb_leb_trans_nonneg.
Qed.

Lemma b64_leb_ltb_trans (a b c : float) :
  (0 <=? a) = true -> (a <=? b) = true -> (b <? c) = true -> (a <? c) = true.
Proof.
  rewrite b64_nonneg_spec, !ltb_spec, leb_spec. apply SFleb_ltb_trans_nonneg.
Qed.

Lemma b64_leb_nonneg (a b : float) :
  (0 <=? a) = true -> (a <=? b) = true -> (0 <=? b) = true.
Proof.
  rewrite !b64_nonneg_spec, leb_spec. apply SFleb_nonneg.
Qed.

Lemma b64_leb_refl (a : float) : (0 <=? a) = true -> (a <=? a) = true.
Proof.
  rewrite b64_nonneg_spec, leb_spec.
  destruct (Prim2SF a) as [[ | ] | [ | ] | | [ | ] m e]; try discriminate;
    intros _; try reflexivity.
  apply SFleb_finite_iff. right. split; [reflexivity | apply Z.le_refl].
Qed.

Lemma b64_mul_comm (x y : float) : x * y = y * x.
Proof.
  rewrite <- (SF2Prim_Prim2SF (x * y)), <- (SF2Prim_Prim2SF (y * x)).
  rewrite !mul_spec, SF64mul_comm. reflexivity.
Qed.

(** A product of values that are at least zero is at least zero, unless it
    is NaN. *)
Lemma b64_mul_nonneg (x c : float) :
  (0 <=? x) = true -> (0 <? c) = true -> (c <? infinity) = true ->
  (0 <=? x * c) = true.
Proof.
  intros Hx H0 H1.
  destruct (b64_positive_finite_repr c H0 H1) as (m & e & Rc & Hb).
  rewrite b64_nonneg_spec in *. rewrite mul_spec, Rc.
  destruct (Prim2SF x) as [[ | ] | [ | ] | | [ | ] mx ex]; try discriminate Hx;
    try reflexivity.
  apply binary_round_aux_nonneg. lia.
Qed.

(** Multiplying by a positive finite float keeps the order of floats that
    are at least zero. *)
Lemma b64_mul_mono (x1 x2 c : float) :
  (0 <=? x1) = true -> (x1 <=? x2) = true ->
  (0 <? c) = true -> (c <? infinity) = true ->
  (x1 * c <=? x2 * c) = true.
Proof.
  intros H1 H12 H0 Hf.
  pose proof (b64_leb_nonneg x1 x2 H1 H12) as H2.
  pose proof (b64_mul_nonneg x1 c H1 H0 Hf) as P1.
  pose proof (b64_mul_nonneg x2 c H2 H0 Hf) as P2.
  apply b64_positive_nonneg in H0.
  rewrite b64_nonneg_spec in H0, H1, P1, P2.
  rewrite mul_spec in P1, P2. rewrite leb_spec in H12.
  rewrite leb_spec, !mul_spec.
  apply SF64mul_mono_nonneg; try apply Prim2SF_valid; try assumption.
  - intros E. rewrite E in P1. discriminate P1.
  - intros E. rewrite E in P2. discriminate P2.
Qed.

(** The same for any multiplier that is at least zero, when neither product
    is NaN. *)
Lemma b64_mul_mono_nonneg (x1 x2 c : float) :
  (0 <=? x1) = true -> (x1 <=? x2) = true -> (0 <=? c) = true ->
  (0 <=? x1 * c) = true -> (0 <=? x2 * c) = true ->
  (x1 * c <=? x2 * c) = true.
Proof.
  intros H1 H12 H0 P1 P2.
  rewrite b64_nonneg_spec in H0, H1, P1, P2.
  rewrite mul_spec in P1, P2. rewrite leb_spec in H12.
  rewrite leb_spec, !mul_spec.
  apply SF64mul_mono_nonneg; try apply Prim2SF_valid; try assumption.
  - intros E. rewrite E in P1. discriminate P1.
  - intros E. rewrite E in P2. discriminate P2.
Qed.

(** Dividing by a positive finite float keeps the order of floats that are
    at least zero. *)
Lemma b64_div_mono (x1 x2 c : float) :
  (0 <=? x1) = true -> (x1 <=? x2) = true ->
  (0 <? c) = true -> (c <? infinity) = true ->
  (x1 / c <=? x2 / c) = true.
Proof.
  intros H1 H12 H0 Hf.
  destruct (b64_positive_finite_repr c H0 Hf) as (m & e & Rc & Hb).
  rewrite b64_nonneg_spec in H1. rewrite leb_spec in H12.
  rewrite leb_spec, !div_spec, Rc.
  apply SF64div_mono_nonneg; try apply Prim2SF_valid; assumption.
Qed.

Lemma b64_div_nonneg (x c : float) :
  (0 <=? x) = true -> (0 <? c) = true -> (c <? infinity) = true ->
  (0 <=? x / c) = true.
Proof.
  intros Hx H0 H1.
  destruct (b64_positive_finite_repr c H0 H1) as (m & e & Rc & Hb).
  rewrite b64_nonneg_spec in *. rewrite div_spec, Rc.
  apply SF64div_nonneg. exact Hx.
Qed.

(** A float that is at least zero, divided by a larger positive finite
    divisor, does not give more. *)
Lemma b64_div_antitone_nonneg (h e1 e2 : float) :
  (0 <=? h) = true -> (0 <? e1) = true -> (e1 <=? e2) = true ->
  (e2 <? infinity) = true ->
  (h / e2 <=? h / e1) = true.
Proof.
  intros Hh H0 H12 Hf.
  assert (H02 : (0 <? e2) = true).
  { apply (b64_ltb_leb_trans 0 e1 e2); [reflexivity | exact H0 | exact H12]. }
  assert (Hf1 : (e1 <? infinity) = true).
  { apply (b64_leb_ltb_trans e1 e2 infinity);
      [apply b64_positive_nonneg; exact H0 | exact H12 | exact Hf]. }
  destruct (b64_positive_finite_repr e1 H0 Hf1) as (m1 & ee1 & R1 & Hb1).
  destruct (b64_positive_finite_repr e2 H02 Hf) as (m2 & ee2 & R2 & Hb2).
  rewrite b64_nonneg_spec in Hh. rewrite leb_spec, R1, R2 in H12.
  rewrite leb_spec, !div_spec, R1, R2.
  apply SF64div_antitone_nonneg; try apply Prim2SF_valid; assumption.
Qed.

(** A float that is at least zero, divided by a float in (0, 1], is not
    below itself. *)
Lemma b64_div_ge_nonneg (h e : float) :
  (0 <=? h) = true -> (0 <? e) = true -> (e <=? 1) = true ->
  (h <=? h / e) = true.
Proof.
  intros Hh H0 H1.
  destruct (b64_unit_interval_repr e H0 H1) as (m & ee & R & Hb & Hle).
  rewrite b64_nonneg_spec in Hh. rewrite leb_spec, div_spec, R.
  apply SF64div_ge_nonneg; try apply Prim2SF_valid; assumption.
Qed.
End Binary64Floats.

(** ** Binary64: the clamp of the efficiency *)
Section Binary64Clamp.
Open Scope float_scope.

(** Below or at a value that is at least zero: not above it. *)
Lemma SFleb_not_ltb (x y : spec_float) :
  Spec64.nonneg y = true -> SFleb x y = true -> SFltb y x = false.
Proof.
  intros Ny H.
  destruct y as [sy | [ | ] | | [ | ] my ey]; try discriminate Ny;
    destruct x as [sx | [ | ] | | [ | ] mx ex]; try discriminate H;
    try reflexivity.
  apply SFleb_finite_iff in H.
  destruct (SFltb (S754_finite false my ey) (S754_finite false mx ex)) eqn:E;
    [ | reflexivity].
  apply SFltb_finite_iff in E. lia.
Qed.

(** Below or at a value that is below another one: below the other one,
    whatever the sign of the first. *)
Lemma SFleb_ltb_trans_mid (x y z : spec_float) :
  Spec64.nonneg y = true ->
  SFleb x y = true -> SFltb y z = true -> SFltb x z = true.
Proof.
  intros Ny Hxy Hyz.
  destruct y as [sy | [ | ] | | [ | ] my ey]; try discriminate Ny;
    destruct z as [sz | [ | ] | | [ | ] mz ez]; try discriminate Hyz;
    destruct x as [sx | [ | ] | | [ | ] mx ex]; try discriminate Hxy;
    try reflexivity.
  apply SFleb_finite_iff in Hxy. apply SFltb_finite_iff in Hyz.
  apply SFltb_finite_iff. lia.
Qed.

Lemma b64_leb_not_ltb (x y : float) :
  (0 <=? y) = true -> (x <=? y) = true -> (y <? x) = false.
Proof.
  rewrite b64_nonneg_spec, leb_spec, ltb_spec. apply SFleb_not_ltb.
Qed.

Lemma b64_leb_ltb_trans_mid (x y z : float) :
  (0 <=? y) = true -> (x <=? y) = true -> (y <? z) = true -> (x <? z) = true.
Proof.
  rewrite b64_nonneg_spec, leb_spec, !ltb_spec. apply SFleb_ltb_trans_mid.
Qed.

(** The clamp of [to_fraction], case by case. *)
Lemma b64_clamp_inside (p : float) :
  (1e-6 <? p) = true -> (p <? 0.999999) = true ->
  Binary64.max 1e-6 (Binary64.min 0.999999 p) = p.
Proof.
  intros L U. unfold Binary64.max, Binary64.min. rewrite U, L. reflexivity.
Qed.

Lemma b64_clamp_low (p : float) :
  (p <=? 1e-6) = true -> Binary64.max 1e-6 (Binary64.min 0.999999 p) = 1e-6.
Proof.
  intros L. unfold Binary64.max, Binary64.min.
  rewrite (b64_leb_ltb_trans_mid p 1e-6 0.999999); [ | reflexivity | exact L | reflexivity].
  rewrite (b64_leb_not_ltb p 1e-6); [reflexivity | reflexivity | exact L].
Qed.

Lemma b64_clamp_high (p : float) :
  (p <? 0.999999) = false ->
  Binary64.max 1e-6 (Binary64.min 0.999999 p) = 0.999999.
Proof.
  intros U. unfold Binary64.max, Binary64.min. rewrite U. reflexivity.
Qed.

Lemma b64_clamp_idempotent (p : float) :
  let r := Binary64.max 1e-6 (Binary64.min 0.999999 p) in
  Binary64.max 1e-6 (Binary64.min 0.999999 r) = r.
Proof.
  unfold Binary64.max, Binary64.min.
  destruct (p <? 0.999999) eqn:U.
  - destruct (1e-6 <? p) eqn:L.
    + rewrite U, L. reflexivity.
    + reflexivity.
  - reflexivity.
Qed.

(** The clamp keeps the order of floats. *)
Lemma b64_clamp_mono (p1 p2 : float) :
  (0 <=? p1) = true -> (p1 <=? p2) = true ->
  (Binary64.max 1e-6 (Binary64.min 0.999999 p1)
   <=? Binary64.max 1e-6 (Binary64.min 0.999999 p2)) = true.
Proof.
  intros N1 H. unfold Binary64.max, Binary64.min.
  destruct (p2 <? 0.999999) eqn:U2.
  - rewrite (b64_leb_ltb_trans p1 p2 0.999999 N1 H U2).
    destruct (1e-6 <? p1) eqn:L1.
    + rewrite (b64_ltb_leb_trans 1e-6 p1 p2 eq_refl L1 H). exact H.
    + destruct (1e-6 <? p2) eqn:L2; [apply b64_ltb_leb; exact L2 | reflexivity].
  - destruct (p1 <? 0.999999) eqn:U1; [ | reflexivity].
    destruct (1e-6 <? p1) eqn:L1; [apply b64_ltb_leb; exact U1 | reflexivity].
Qed.

(** The clamp is above zero and at most one. *)
Lemma b64_clamp_unit_interval (p : float) :
  let r := Binary64.max 1e-6 (Binary64.min 0.999999 p) in
  (0 <? r) = true /\ (r <=? 0.999999) = true /\ (r <=? 1) = true /\
  (r <? infinity) = true.
Proof.
  intros r. destruct (b64_clamp_bounds p) as (B1 & B2 & _). fold r in B1, B2.
  assert (P : (0 <? r) = true)
    by (apply (b64_ltb_leb_trans 0 1e-6 r); [reflexivity | reflexivity | exact B1]).
  assert (N : (0 <=? r) = true) by (apply b64_ltb_leb; exact P).
  split; [exact P | ]. split; [exact B2 | ]. split.
  - apply (b64_leb_trans r 0.999999 1); [exact N | exact B2 | reflexivity].
  - apply (b64_leb_ltb_trans r 0.999999 infinity); [exact N | exact B2 | reflexivity].
Qed.
End Binary64Clamp.

(** ** The unit tables *)
Section Binary64Tables.
Open Scope float_scope.

(** A subscript returns a value the dict stores under the key. *)
Lemma py_getitem_pair {V : Type} (d : dict V) (k : string) (v : V) :
  getitem d k = Ok v -> In (k, v) d.
Proof.
  induction d as [ | [k' v'] d IH]; simpl; [discriminate | ].
  destruct (String.eqb_spec k' k) as [E | E].
  - intros H. apply py_Ok_inj in H. left. congruence.
  - intros H. right. auto.
Qed.

(** Every flow factor is positive and at most one: no unit is larger than
    the cubic metre per second. *)
Lemma b64_flow_factor_range (unit : string) (f : float) :
  getitem Binary64.FLOW_UNITS unit = Ok f ->
  (0 <? f) = true /\ (f <=? 1) = true /\ (f <? infinity) = true.
Proof.
  intros H. apply py_getitem_pair in H.
  repeat (destruct H as [H | H];
          [apply (f_equal snd) in H; cbn [snd] in H; subst f;
           repeat split; vm_compute; reflexivity | ]).
  destruct H.
Qed.

Lemma b64_head_factor_range (unit : string) (f : float) :
  getitem Binary64.HEAD_UNITS unit = Ok f ->
  (0 <? f) = true /\ (f <=? 1) = true /\ (f <? infinity) = true.
Proof.
  intros H. apply py_getitem_pair in H.
  repeat (destruct H as [H | H];
          [apply (f_equal snd) in H; cbn [snd] in H; subst f;
           repeat split; vm_compute; reflexivity | ]).
  destruct H.
Qed.

Lemma b64_eff_factor_range (unit : string) (f : float) :
  getitem Binary64.EFF_UNITS unit = Ok f ->
  (0 <? f) = true /\ (f <=? 1) = true /\ (f <? infinity) = true.
Proof.
  intros H. apply py_getitem_pair in H.
  repeat (destruct H as [H | H];
          [apply (f_equal snd) in H; cbn [snd] in H; subst f;
           repeat split; vm_compute; reflexivity | ]).
  destruct H.
Qed.

(** A converted value is at least zero, follows the order of the values and
    is not above the value, for any factor in (0, 1]. *)
Lemma b64_scale_mono (f v1 v2 : float) :
  (0 <? f) = true -> (f <=? 1) = true -> (f <? infinity) = true ->
  (0 <=? v1) = true -> (v1 <=? v2) = true ->
  (0 <=? v1 * f) = true /\ (v1 * f <=? v2 * f) = true /\ (v2 * f <=? v2) = true.
Proof.
  intros F0 F1 Ff N1 H.
  pose proof (b64_leb_nonneg v1 v2 N1 H) as N2.
  split; [apply b64_mul_nonneg; assumption | ].
  split; [apply b64_mul_mono; assumption | ].
  rewrite <- (b64_mul_one_r v2) at 2.
  rewrite (b64_mul_comm v2 f), (b64_mul_comm v2 1.0).
  apply b64_mul_mono_nonneg.
  - apply b64_ltb_leb. exact F0.
  - exact F1.
  - exact N2.
  - rewrite b64_mul_comm. apply b64_mul_nonneg; assumption.
  - rewrite b64_mul_comm, b64_mul_one_r. exact N2.
Qed.
End Binary64Tables.

(** ** Binary64: the products of the hydraulic power *)
Section Binary64Products.
Open Scope float_scope.

(** Multiplying values that are at least zero keeps the order in both
    factors at once, as long as neither product is NaN. *)
Lemma SF64mul_mono2 (x1 x2 c1 c2 : spec_float) :
  valid_binary x1 = true -> valid_binary x2 = true ->
  valid_binary c1 = true -> valid_binary c2 = true ->
  Spec64.nonneg x1 = true -> SFleb x1 x2 = true ->
  Spec64.nonneg c1 = true -> SFleb c1 c2 = true ->
  SF64mul x1 c1 <> S754_nan -> SF64mul x2 c2 <> S754_nan ->
  SFleb (SF64mul x1 c1) (SF64mul x2 c2) = true.
Proof.
  intros V1 V2 W1 W2 N1 Hx M1 Hc Hn1 Hn2.
  pose proof (SFleb_nonneg x1 x2 N1 Hx) as N2.
  pose proof (SFleb_nonneg c1 c2 M1 Hc) as M2.
  assert (P1 : Spec64.nonneg (SF64mul x1 c1) = true)
    by (destruct (SF64mul_nonneg x1 c1 N1 M1); [contradiction | assumption]).
  assert (P2 : Spec64.nonneg (SF64mul x2 c2) = true)
    by (destruct (SF64mul_nonneg x2 c2 N2 M2); [contradiction | assumption]).
  destruct (SF64mul_nonneg x2 c1 N2 M1) as [E | P].
  - (* the mixed product is NaN: zero times infinity *)
    destruct x2 as [s2 | [ | ] | | [ | ] m2 e2]; try discriminate N2;
      destruct c1 as [t1 | [ | ] | | [ | ] k1 f1]; try discriminate M1;
      try discriminate E;
      try (exfalso;
           pose proof (SF64mul_finite_nonneg _ _ N2 eq_refl M1 eq_refl) as F;
           rewrite E in F; discriminate F).
    + (* x2 is zero, c1 is plus infinity: then x1 is zero too *)
      destruct x1 as [s1 | [ | ] | | [ | ] m1 e1]; try discriminate N1;
        try discriminate Hx.
      exfalso. apply Hn1. reflexivity.
    + (* x2 is plus infinity, c1 is zero *)
      destruct x1 as [s1 | [ | ] | | [ | ] m1 e1]; try discriminate N1;
        try (exfalso; apply Hn1; reflexivity);
        apply SFleb_zero_nonneg; exact P2.
  - apply (SFleb_trans_nonneg _ (SF64mul x2 c1)); [exact P1 | | ].
    + apply SF64mul_mono_nonneg; try assumption.
      intros E. rewrite E in P. discriminate P.
    + rewrite (SF64mul_comm x2 c1), (SF64mul_comm x2 c2).
      apply SF64mul_mono_nonneg; try assumption.
      * rewrite SF64mul_comm. intros E. rewrite E in P. discriminate P.
      * rewrite SF64mul_comm. exact Hn2.
Qed.

Lemma b64_mul_mono2 (x1 x2 c1 c2 : float) :
  (0 <=? x1) = true -> (x1 <=? x2) = true ->
  (0 <=? c1) = true -> (c1 <=? c2) = true ->
  (0 <=? x1 * c1) = true -> (0 <=? x2 * c2) = true ->
  (x1 * c1 <=? x2 * c2) = true.
Proof.
  intros N1 Hx M1 Hc P1 P2.
  rewrite b64_nonneg_spec in N1, M1, P1, P2. rewrite mul_spec in P1, P2.
  rewrite leb_spec in Hx, Hc. rewrite leb_spec, !mul_spec.
  apply SF64mul_mono2; try apply Prim2SF_valid; try assumption.
  - intros E. rewrite E in P1. discriminate P1.
  - intros E. rewrite E in P2. discriminate P2.
Qed.

(** A product that is at least zero has no NaN factor: from factors that are
    at least zero or NaN, both are at least zero. *)
Lemma b64_mul_nonneg_inv (x c : float) :
  (0 <=? x) = true \/ Prim2SF x = S754_nan ->
  (0 <=? c) = true ->
  (0 <=? x * c) = true -> (0 <=? x) = true.
Proof.
  intros [N | E] _ P; [exact N | ].
  rewrite b64_nonneg_spec, mul_spec, E in P.
  destruct (Prim2SF c) as [s | s | | s m e]; discriminate P.
Qed.

Lemma b64_mul_nonneg_or_nan (x c : float) :
  (0 <=? x) = true -> (0 <=? c) = true ->
  (0 <=? x * c) = true \/ Prim2SF (x * c) = S754_nan.
Proof.
  intros Nx Nc. rewrite b64_nonneg_spec in *. rewrite mul_spec.
  destruct (SF64mul_nonneg _ _ Nx Nc); [right | left]; assumption.
Qed.

Lemma b64_div_nonneg_inv (x c : float) :
  (0 <=? x) = true \/ Prim2SF x = S754_nan ->
  (0 <=? x / c) = true -> (0 <=? x) = true.
Proof.
  intros [N | E] P; [exact N | ].
  rewrite b64_nonneg_spec, div_spec, E in P.
  destruct (Prim2SF c) as [s | s | | s m e]; discriminate P.
Qed.

(** The partial products of a hydraulic power that is at least zero. *)
Lemma b64_hydraulic_power_factors (rho g flow head : float) :
  (0 <=? rho) = true -> (0 <=? g) = true ->
  (0 <=? flow) = true -> (0 <=? head) = true ->
  (0 <=? Binary64.hydraulic_power_kw rho g flow head) = true ->
  (0 <=? rho * g) = true /\ (0 <=? rho * g * flow) = true /\
  (0 <=? rho * g * flow * head) = true.
Proof.
  intros Nr Ng Nq Nh P. unfold Binary64.hydraulic_power_kw in P.
  pose proof (b64_mul_nonneg_or_nan rho g Nr Ng) as A.
  assert (C : (0 <=? rho * g * flow * head) = true).
  { apply (b64_div_nonneg_inv (rho * g * flow * head) 1000.0); [ | exact P].
    destruct A as [A | A].
    - destruct (b64_mul_nonneg_or_nan _ flow A Nq) as [B | B].
      + apply b64_mul_nonneg_or_nan; assumption.
      + right. rewrite mul_spec, B.
        destruct (Prim2SF head) as [s | s | | s m e]; reflexivity.
    - right. rewrite !mul_spec. rewrite mul_spec in A. rewrite A.
      destruct (Prim2SF flow) as [s | s | | s m e];
        destruct (Prim2SF head) as [s' | s' | | s' m' e']; reflexivity. }
  assert (B : (0 <=? rho * g * flow) = true).
  { apply (b64_mul_nonneg_inv (rho * g * flow) head); [ | exact Nh | exact C].
    destruct A as [A | A]; [apply b64_mul_nonneg_or_nan; assumption | ].
    right. rewrite !mul_spec. rewrite mul_spec in A. rewrite A.
    destruct (Prim2SF flow) as [s | s | | s m e]; reflexivity. }
  split; [ | split; assumption].
  apply (b64_mul_nonneg_inv (rho * g) flow); assumption.
Qed.

(** The hydraulic power follows its four arguments, when they are at least
    zero and neither power is NaN. *)
Lemma b64_hydraulic_power_mono (rho1 rho2 g1 g2 q1 q2 h1 h2 : float) :
  (0 <=? rho1) = true -> (rho1 <=? rho2) = true ->
  (0 <=? g1) = true -> (g1 <=? g2) = true ->
  (0 <=? q1) = true -> (q1 <=? q2) = true ->
  (0 <=? h1) = true -> (h1 <=? h2) = true ->
  (0 <=? Binary64.hydraulic_power_kw rho1 g1 q1 h1) = true ->
  (0 <=? Binary64.hydraulic_power_kw rho2 g2 q2 h2) = true ->
  (Binary64.hydraulic_power_kw rho1 g1 q1 h1
   <=? Binary64.hydraulic_power_kw rho2 g2 q2 h2) = true.
Proof.
  intros Nr Hr Ng Hg Nq Hq Nh Hh P1 P2.
  pose proof (b64_leb_nonneg _ _ Nr Hr) as Nr2.
  pose proof (b64_leb_nonneg _ _ Ng Hg) as Ng2.
  pose proof (b64_leb_nonneg _ _ Nq Hq) as Nq2.
  pose proof (b64_leb_nonneg _ _ Nh Hh) as Nh2.
  destruct (b64_hydraulic_power_factors _ _ _ _ Nr Ng Nq Nh P1) as (A1 & B1 & C1).
  destruct (b64_hydraulic_power_factors _ _ _ _ Nr2 Ng2 Nq2 Nh2 P2) as (A2 & B2 & C2).
  unfold Binary64.hydraulic_power_kw.
  apply b64_div_mono; [exact C1 | | reflexivity | reflexivity].
  apply b64_mul_mono2; try assumption.
  apply b64_mul_mono2; try assumption.
  apply b64_mul_mono2; assumption.
Qed.
End Binary64Products.

(** ** What a run that returns has computed *)
Section Binary64Script.
Open Scope float_scope.

Lemma py_in_keys_dec {V : Type} (d : dict V) (k : string) :
  In k (keys d) \/ ~ In k (keys d).
Proof.
  destruct (in_dec string_dec k (keys d)); [left | right]; assumption.
Qed.

(** A run that returns has found its three unit tags and divided by the
    clamped efficiency. *)
Lemma b64_script_inv (i : Binary64.inputs) (o : Binary64.outputs) :
  Binary64.script i = Ok o ->
  exists fq fh fe : float,
    getitem Binary64.FLOW_UNITS (Binary64.Q_unit i) = Ok fq /\
    getitem Binary64.HEAD_UNITS (Binary64.H_unit i) = Ok fh /\
    getitem Binary64.EFF_UNITS (Binary64.eff_unit i) = Ok fe /\
    let e := Binary64.max 1e-6 (Binary64.min 0.999999 (Binary64.eff_val i * fe)) in
    let r := Binary64.density (Binary64.rho_override i) (Binary64.rho_custom i)
               (Binary64.sg i) in
    let p := Binary64.hydraulic_power_kw r (Binary64.g_val i)
               (Binary64.Q_val i * fq) (Binary64.H_val i * fh) in
    o = Binary64.mk_outputs (Binary64.Q_val i * fq) (Binary64.H_val i * fh) e r p
          (p / e) (Binary64.kw_to_hp p) (Binary64.kw_to_hp (p / e)).
Proof.
  unfold Binary64.script, Binary64.to_si_flow, Binary64.to_si_head,
    Binary64.to_fraction.
  destruct (getitem Binary64.FLOW_UNITS (Binary64.Q_unit i)) as [fq | x];
    [ | discriminate].
  destruct (getitem Binary64.HEAD_UNITS (Binary64.H_unit i)) as [fh | x];
    [ | discriminate].
  destruct (getitem Binary64.EFF_UNITS (Binary64.eff_unit i)) as [fe | x];
    [ | discriminate].
  cbn [bind]. unfold Binary64.shaft_power_kw.
  destruct (b64_clamp_bounds (Binary64.eff_val i * fe)) as (_ & _ & B).
  cbv zeta in B. rewrite B. cbn [bind].
  intros H. apply py_Ok_inj in H. subst o.
  exists fq, fh, fe. repeat split; reflexivity.
Qed.
End Binary64Script.

(** ** Binary64: zero factors *)
Section Binary64Zeros.
Open Scope float_scope.

(** A product with a zero factor is zero, or the NaN of zero times infinity
    or of a NaN factor. *)
Lemma SF64mul_zero_or_nan_l (x y : spec_float) :
  Spec64.zero x = true \/ x = S754_nan ->
  Spec64.zero (SF64mul x y) = true \/ SF64mul x y = S754_nan.
Proof.
  intros [Z | ->].
  - destruct x as [sx | sx | | sx mx ex]; try discriminate Z.
    destruct y as [sy | sy | | sy my ey]; cbn; auto.
  - right. destruct y as [sy | sy | | sy my ey]; reflexivity.
Qed.

Lemma SF64mul_zero_or_nan_r (x y : spec_float) :
  Spec64.zero y = true \/ y = S754_nan ->
  Spec64.zero (SF64mul x y) = true \/ SF64mul x y = S754_nan.
Proof.
  rewrite SF64mul_comm. apply SF64mul_zero_or_nan_l.
Qed.

Lemma SF64div_zero_or_nan (x : spec_float) (m : positive) (e : Z) :
  Spec64.zero x = true \/ x = S754_nan ->
  Spec64.zero (SF64div x (S754_finite false m e)) = true \/
  SF64div x (S754_finite false m e) = S754_nan.
Proof.
  intros [Z | ->]; [left; apply SF64div_zero; exact Z | right; reflexivity].
Qed.

(** A float that compares equal to itself is not NaN. *)
Lemma b64_self_eqb (x : float) : (x =? x) = true -> Prim2SF x <> S754_nan.
Proof.
  rewrite eqb_spec. intros H E. rewrite E in H. discriminate H.
Qed.

(** With a zero flow or a zero head the hydraulic power is zero, unless it
    is NaN. *)
Lemma b64_hydraulic_power_zero (rho g flow head : float) :
  (flow =? 0) = true \/ (head =? 0) = true ->
  Spec64.zero (Prim2SF (Binary64.hydraulic_power_kw rho g flow head)) = true \/
  Prim2SF (Binary64.hydraulic_power_kw rho g flow head) = S754_nan.
Proof.
  intros Hz. unfold Binary64.hydraulic_power_kw.
  rewrite div_spec, b64_thousand_repr, !mul_spec.
  apply SF64div_zero_or_nan.
  destruct Hz as [Z | Z]; apply b64_zero_spec in Z.
  - apply SF64mul_zero_or_nan_l. apply SF64mul_zero_or_nan_r. left. exact Z.
  - apply SF64mul_zero_or_nan_r. left. exact Z.
Qed.

(** A zero multiplied by a positive finite float, or divided by one, is a
    zero. *)
Lemma b64_zero_mul (x c : float) :
  (x =? 0) = true -> (0 <? c) = true -> (c <? infinity) = true ->
  (x * c =? 0) = true.
Proof.
  intros Z H0 H1.
  destruct (b64_positive_finite_repr c H0 H1) as (m & e & Rc & _).
  rewrite b64_zero_spec in *. rewrite mul_spec, Rc.
  apply SF64mul_zero_l; [exact Z | reflexivity].
Qed.

Lemma b64_zero_div (x c : float) :
  (x =? 0) = true -> (0 <? c) = true -> (c <? infinity) = true ->
  (x / c =? 0) = true.
Proof.
  intros Z H0 H1.
  destruct (b64_positive_finite_repr c H0 H1) as (m & e & Rc & _).
  rewrite b64_zero_spec in *. rewrite div_spec, Rc.
  apply SF64div_zero. exact Z.
Qed.
End Binary64Zeros.

(** ** Binary64: the density from the specific gravity *)
Section Binary64Density.
Open Scope float_scope.

(** The density derived from a specific gravity is at least [1e-3]. *)
Lemma b64_sg_to_density_floor (sg : float) :
  (1e-3 <=? Binary64.sg_to_density sg) = true.
Proof.
  unfold Binary64.sg_to_density, Binary64.max, Binary64.RHO_WATER_4C.
  destruct (1e-6 <? sg) eqn:L; [ | reflexivity].
  change 1e-3 with (1e-6 * 1000.0).
  apply b64_mul_mono; try reflexivity. apply b64_ltb_leb. exact L.
Qed.

Lemma b64_sg_to_density_mono (sg1 sg2 : float) :
  (sg1 <=? sg2) = true ->
  (Binary64.sg_to_density sg1 <=? Binary64.sg_to_density sg2) = true.
Proof.
  intros H.
  unfold Binary64.sg_to_density, Binary64.max, Binary64.RHO_WATER_4C.
  destruct (1e-6 <? sg1) eqn:L1.
  - rewrite (b64_ltb_leb_trans 1e-6 sg1 sg2 eq_refl L1 H).
    apply b64_mul_mono; try reflexivity; [ | exact H].
    apply (b64_leb_nonneg 1e-6); [reflexivity | apply b64_ltb_leb; exact L1].
  - destruct (1e-6 <? sg2) eqn:L2; [ | reflexivity].
    apply b64_mul_mono; try reflexivity. apply b64_ltb_leb. exact L2.
Qed.

(** The density the script uses is at least zero when the custom density
    is. *)
Lemma b64_density_nonneg (override : bool) (custom sg : float) :
  (override = true -> (0 <=? custom) = true) ->
  (0 <=? Binary64.density override custom sg) = true.
Proof.
  intros H. unfold Binary64.density. destruct override; [apply H; reflexivity | ].
  apply (b64_leb_nonneg 1e-3); [reflexivity | apply b64_sg_to_density_floor].
Qed.
End Binary64Density.

(** * Claims *)

(** ** The density handed to the power equation *)

(** On the specific-gravity path the density is positive: it is at least
    [1e-6 * 1000]. *)
Lemma density_from_sg_positive (custom specific_gravity : Q) :
  (0 < Exact.density false custom specific_gravity)%Q.
Proof.
  unfold Exact.density, Exact.sg_to_density, Exact.RHO_WATER_4C.
  destruct (exact_max_cases 1e-6 specific_gravity) as [[H ->] | [H ->]].
  - assert (0 < specific_gravity)%Q by (eapply Qlt_trans; [ | exact H]; reflexivity).
    apply Qmult_lt_0_compat; [assumption | reflexivity].
  - reflexivity.
Qed.

(** Claim C1.  With the override box ticked the custom density replaces the
    density derived from the specific gravity, whatever it is; the widget
    accepts [0.0], and then the density used by the power equation is [0],
    not positive: the override path has no floor, unlike [sg_to_density],
    which turns a specific gravity of [0] into [1e-3].
    Evaluated on binary64 and over the rationals at the initial values with
    the override ticked and a custom density of [0.0]. *)
Theorem zero_custom_density_is_used :
  Exact.widget_values (Exact.with_custom_density 0) /\
  (forall custom specific_gravity : float,
      Binary64.density true custom specific_gravity = custom) /\
  (forall custom specific_gravity : Q,
      Exact.density true custom specific_gravity = custom) /\
  (forall custom : float, Binary64.density false custom 0 = 1e-3%float) /\
  (forall custom : Q, (Exact.density false custom 0 == 1e-3)%Q) /\
  (exists o : Exact.outputs,
      Exact.script (Exact.with_custom_density 0) = Ok o /\
      (Exact.rho o == 0)%Q /\ ~ (0 < Exact.rho o)%Q /\
      (Exact.P_h_kw o == 0)%Q /\ (Exact.P_shaft_kw o == 0)%Q) /\
  (exists o : Binary64.outputs,
      Binary64.script (Binary64.with_custom_density 0) = Ok o /\
      Binary64.rho o = 0%float /\ (0 <? Binary64.rho o)%float = false /\
      Binary64.P_h_kw o = 0%float /\ Binary64.P_shaft_kw o = 0%float).
Proof.
  split.
  { unfold Exact.widget_values; simpl.
    repeat split; try discriminate; auto 10. }
  split; [reflexivity | ].
  split; [reflexivity | ].
  split; [intros custom; vm_compute; reflexivity | ].
  split; [reflexivity | ].
  split.
  - eexists. split; [vm_compute; reflexivity | ]. simpl.
    repeat split; try reflexivity. apply Qlt_irrefl.
  - eexists. split; [vm_compute; reflexivity | ]. simpl.
    repeat split; vm_compute; reflexivity.
Qed.

(** ** The default scenario *)

(** The horsepower the script computes for the scenario is not the claimed
    [13.148]: over the rationals it is not within half a unit of the last
    digit, and on binary64 it lies outside [13.1475, 13.1485]. *)
Lemma scenario_hydraulic_hp_is_not_13_148 :
  ~ (exists o : Exact.outputs,
        Exact.script Exact.scenario = Ok o /\
        (Exact.P_h_kw o == 9.80665)%Q /\
        (Qabs (Exact.P_shaft_kw o - 14.0095) <= 0.00005)%Q /\
        (Qabs (Exact.P_h_hp o - 13.148) <= 0.0005)%Q) /\
  ~ (exists o : Binary64.outputs,
        Binary64.script Binary64.scenario = Ok o /\
        (13.1475 <=? Binary64.P_h_hp o)%float = true /\
        (Binary64.P_h_hp o <=? 13.1485)%float = true).
Proof.
  split.
  - intros (o & E & _ & _ & H).
    vm_compute in E. injection E as <-.
    apply Qabs_Qle_condition in H. destruct H as [_ H].
    vm_compute in H. apply H. reflexivity.
  - intros (o & E & _ & H).
    vm_compute in E. injection E as <-.
    vm_compute in H. discriminate H.
Qed.

(** Claim C2 (amended).  For Q = 0.05 m3/s, H = 20 m, SG = 1.0,
    g = 9.80665 m/s2 and efficiency 0.70 the script computes a hydraulic
    power of exactly 9.80665 kW, a shaft power of 9.80665 / 0.70 = 14.0095 kW
    and a hydraulic power of 9.80665 * 1.34102209 = 13.1509342788985 HP
    (13.151 to three decimals).  Over the rationals the values are exact; on
    binary64 they are the floats nearest to them, also with the efficiency
    entered as 70 %. *)
Theorem scenario_powers :
  (exists o : Exact.outputs,
      Exact.script Exact.scenario = Ok o /\
      (Exact.rho o == 1000)%Q /\
      (Exact.P_h_kw o == (1000 * 9.80665 * 0.05 * 20) / 1000)%Q /\
      (Exact.P_h_kw o == 9.80665)%Q /\
      (Exact.P_shaft_kw o == 14.0095)%Q /\
      (Exact.P_h_hp o == 13.1509342788985)%Q) /\
  (exists o : Binary64.outputs,
      Binary64.script Binary64.scenario = Ok o /\
      Binary64.rho o = 1000%float /\
      Binary64.P_h_kw o = 9.80665%float /\
      Binary64.P_shaft_kw o = 14.009500000000001%float /\
      Binary64.P_h_hp o = 13.1509342788985%float) /\
  (exists o : Binary64.outputs,
      Binary64.script Binary64.defaults = Ok o /\
      Binary64.P_h_kw o = 9.80665%float /\
      Binary64.P_shaft_kw o = 14.009499999999997%float /\
      Binary64.P_h_hp o = 13.1509342788985%float).
Proof.
  split; [ | split].
  - eexists. split; [vm_compute; reflexivity | ]. simpl.
    repeat split; vm_compute; reflexivity.
  - eexists. split; [vm_compute; reflexivity | ]. simpl.
    repeat split; vm_compute; reflexivity.
  - eexists. split; [vm_compute; reflexivity | ]. simpl.
    repeat split; vm_compute; reflexivity.
Qed.

(** ** The efficiency clamp *)

(** Claim C3.  With either unit tag of the efficiency select box,
    [to_fraction] returns a value between [1e-6] and [0.999999] for every
    input value (negative values and values above 1000 % included), and
    [shaft_power_kw] applied to that value returns the quotient: it does not
    raise [ZeroDivisionError].  Over the rationals for every rational value;
    on binary64 for every float, infinities and NaN included. *)
Theorem to_fraction_within_clamp (unit : string) :
  unit = "%" \/ unit = "fraction" ->
  (forall value : Q, exists eta : Q,
      Exact.to_fraction value unit = Ok eta /\
      (1e-6 <= eta <= 0.999999)%Q /\
      forall p : Q, Exact.shaft_power_kw p eta = Ok (p / eta)%Q) /\
  (forall value : float, exists eta : float,
      Binary64.to_fraction value unit = Ok eta /\
      (1e-6 <=? eta)%float = true /\ (eta <=? 0.999999)%float = true /\
      forall p : float, Binary64.shaft_power_kw p eta = Ok (p / eta)%float).
Proof.
  intros Hunit. split.
  - intros value.
    assert (E : exists f, Exact.to_fraction value unit
                = Ok (Exact.max 1e-6 (Exact.min 0.999999 (value * f)))).
    { destruct Hunit as [-> | ->]; eexists; reflexivity. }
    destruct E as [f ->]. eexists. split; [reflexivity | ].
    pose proof (exact_clamp_bounds (value * f)) as B. split; [exact B | ].
    intros p. apply exact_shaft_defined. intro Z. rewrite Z in B.
    destruct B as [B _]. apply (Qle_not_lt _ _ B). reflexivity.
  - intros value.
    assert (E : exists f, Binary64.to_fraction value unit
                = Ok (Binary64.max 1e-6 (Binary64.min 0.999999 (value * f)))).
    { destruct Hunit as [-> | ->]; eexists; reflexivity. }
    destruct E as [f ->]. eexists. split; [reflexivity | ].
    destruct (b64_clamp_bounds (value * f)) as (B1 & B2 & B3).
    repeat split; try assumption.
    intros p. unfold Binary64.shaft_power_kw. now rewrite B3.
Qed.

(** The clamp at [-5 %] (rationals) and at [2000 %] (binary64). *)
Lemma to_fraction_within_clamp_witness :
  ("%" = "%" \/ "%" = "fraction") /\
  (exists eta : Q,
      Exact.to_fraction (-5) "%" = Ok eta /\
      (1e-6 <= eta <= 0.999999)%Q /\
      forall p : Q, Exact.shaft_power_kw p eta = Ok (p / eta)%Q) /\
  (exists eta : float,
      Binary64.to_fraction 2000 "%" = Ok eta /\
      (1e-6 <=? eta)%float = true /\ (eta <=? 0.999999)%float = true /\
      forall p : float, Binary64.shaft_power_kw p eta = Ok (p / eta)%float).
Proof.
  split; [left; reflexivity | ].
  destruct (to_fraction_within_clamp "%" (or_introl eq_refl)) as [HE HF].
  split; [exact (HE (-5)%Q) | exact (HF 2000%float)].
Defined.

(** ** The hydraulic power *)

(** On binary64 the product of two large non-negative inputs overflows to
    plus infinity, and infinity times a zero flow is NaN: the power is then
    neither zero nor at least zero. *)
Lemma hydraulic_power_kw_overflow_is_nan :
  (0 <=? 1e200)%float = true /\ (0 <=? 0)%float = true /\
  (0 <=? 1)%float = true /\ (0 =? 0)%float = true /\
  (0 <=? Binary64.hydraulic_power_kw 1e200 1e200 0 1)%float = false /\
  (Binary64.hydraulic_power_kw 1e200 1e200 0 1 =? 0)%float = false.
Proof. repeat split; vm_compute; reflexivity. Qed.

(** Claim C4 (amended).  [hydraulic_power_kw rho g Q H] is
    [(rho * g * Q * H) / 1000.0].  Over the rationals it is non-negative
    when the four inputs are, and zero as soon as [rho], [Q] or [H] is zero.
    On binary64 the same holds for non-negative inputs provided the head is
    finite and the product [rho * g * Q] has not overflowed. *)
Theorem hydraulic_power_kw_sign :
  (forall rho g flow head : Q,
      Exact.hydraulic_power_kw rho g flow head
      = ((rho * g * flow * head) / 1000.0)%Q /\
      ((0 <= rho)%Q -> (0 <= g)%Q -> (0 <= flow)%Q -> (0 <= head)%Q ->
       (0 <= Exact.hydraulic_power_kw rho g flow head)%Q) /\
      ((rho == 0)%Q \/ (flow == 0)%Q \/ (head == 0)%Q ->
       (Exact.hydraulic_power_kw rho g flow head == 0)%Q)) /\
  (forall rho g flow head : float,
      Binary64.hydraulic_power_kw rho g flow head
      = ((rho * g * flow * head) / 1000.0)%float /\
      ((0 <=? rho)%float = true -> (0 <=? g)%float = true ->
       (0 <=? flow)%float = true -> (0 <=? head)%float = true ->
       (rho * g * flow <? infinity)%float = true ->
       (head <? infinity)%float = true ->
       (0 <=? Binary64.hydraulic_power_kw rho g flow head)%float = true /\
       ((rho =? 0)%float = true \/ (flow =? 0)%float = true \/
        (head =? 0)%float = true ->
        (Binary64.hydraulic_power_kw rho g flow head =? 0)%float = true))).
Proof.
  split.
  - intros rho g flow head.
    split; [reflexivity | ]. unfold Exact.hydraulic_power_kw. split.
    + intros Hr Hg Hq Hh.
      apply exact_le_div; [reflexivity | ].
      rewrite Qmult_0_l.
      repeat apply Qmult_le_0_compat; assumption.
    + unfold Qdiv. intros [Z | [Z | Z]]; rewrite Z; ring.
  - intros rho g flow head. split; [reflexivity | ].
    apply b64_hydraulic_power_sign.
Qed.

(** Water under standard gravity with no flow: the power is zero, over the
    rationals and on binary64. *)
Lemma hydraulic_power_kw_sign_witness :
  ((0 <= Exact.hydraulic_power_kw 1000 9.80665 0 20)%Q /\
   (Exact.hydraulic_power_kw 1000 9.80665 0 20 == 0)%Q) /\
  ((0 <=? Binary64.hydraulic_power_kw 1000 9.80665 0 20)%float = true /\
   (Binary64.hydraulic_power_kw 1000 9.80665 0 20 =? 0)%float = true).
Proof.
  destruct hydraulic_power_kw_sign as [HE HF]. split.
  - destruct (HE 1000 9.80665 0 20)%Q as (_ & Hsign & Hzero).
    split.
    + apply Hsign; discriminate.
    + apply Hzero. right. left. reflexivity.
  - destruct (HF 1000 9.80665 0 20)%float as (_ & H).
    destruct H as [Hsign Hzero]; try reflexivity.
    split; [exact Hsign | ].
    apply Hzero. right. left. reflexivity.
Defined.

(** ** The shaft power *)

(** A positive divisor does not compare equal to zero. *)
Lemma b64_positive_nonzero (x : float) :
  (0 <? x)%float = true -> (x =? 0)%float = false.
Proof.
  rewrite ltb_spec, eqb_spec, b64_zero_repr. unfold SFltb, SFeqb.
  destruct (Prim2SF x) as [s | [ | ] | | [ | ] m e]; simpl; congruence.
Qed.

(** On binary64 two different efficiencies can give the same shaft power:
    the quotients of 1 kW by two neighbouring efficiencies round to the same
    float, and the quotients of 1e308 kW by 1 % and by 2 % both overflow to
    plus infinity. *)
Lemma shaft_power_kw_not_strictly_decreasing :
  ((0 <? 1)%float = true /\
   (0 <? 0.9000000000000002)%float = true /\
   (0.9000000000000002 <? 0.9000000000000003)%float = true /\
   Binary64.shaft_power_kw 1 0.9000000000000002 = Ok 1.1111111111111107%float /\
   Binary64.shaft_power_kw 1 0.9000000000000003 = Ok 1.1111111111111107%float) /\
  ((0 <? 1e308)%float = true /\
   (0 <? 0.01)%float = true /\ (0.01 <? 0.02)%float = true /\
   Binary64.shaft_power_kw 1e308 0.01 = Ok infinity /\
   Binary64.shaft_power_kw 1e308 0.02 = Ok infinity).
Proof. repeat split; vm_compute; reflexivity. Qed.

(** Claim C5 (amended).  [shaft_power_kw h e] is the quotient [h / e] for
    every efficiency [e > 0], on binary64 and over the rationals.  Over the
    rationals, for a fixed [h > 0], it strictly decreases as [e] increases
    and is at least [h] for [e] in (0, 1].  On binary64, for every [h > 0]
    (subnormal numbers and plus infinity included), it does not increase as
    a finite [e] increases, and it is at least [h] for [e] in (0, 1]. *)
Theorem shaft_power_kw_decreasing :
  (forall h : Q, (0 < h)%Q ->
     (forall e1 e2 : Q, (0 < e1)%Q -> (e1 < e2)%Q ->
        exists s1 s2 : Q,
          Exact.shaft_power_kw h e1 = Ok s1 /\
          Exact.shaft_power_kw h e2 = Ok s2 /\ (s2 < s1)%Q) /\
     (forall e : Q, (0 < e)%Q -> (e <= 1)%Q ->
        exists s : Q, Exact.shaft_power_kw h e = Ok s /\ (h <= s)%Q)) /\
  (forall h e : float, (0 <? e)%float = true ->
     Binary64.shaft_power_kw h e = Ok (h / e)%float) /\
  (forall h : float, (0 <? h)%float = true ->
     (forall e1 e2 : float,
        (0 <? e1)%float = true -> (e1 <? e2)%float = true ->
        (e2 <? infinity)%float = true ->
        exists s1 s2 : float,
          Binary64.shaft_power_kw h e1 = Ok s1 /\
          Binary64.shaft_power_kw h e2 = Ok s2 /\ (s2 <=? s1)%float = true) /\
     (forall e : float, (0 <? e)%float = true -> (e <=? 1)%float = true ->
        exists s : float,
          Binary64.shaft_power_kw h e = Ok s /\ (h <=? s)%float = true)).
Proof.
  assert (D : forall h e : float, (0 <? e)%float = true ->
                Binary64.shaft_power_kw h e = Ok (h / e)%float).
  { intros h e He. unfold Binary64.shaft_power_kw.
    now rewrite (b64_positive_nonzero e He). }
  split; [ | split; [exact D | ]].
  - intros h Hh. split.
    + intros e1 e2 H1 H12.
      assert (H2 : (0 < e2)%Q) by (eapply Qlt_trans; eassumption).
      exists (h / e1)%Q, (h / e2)%Q. repeat split.
      * apply exact_shaft_defined. intro Z. rewrite Z in H1. discriminate.
      * apply exact_shaft_defined. intro Z. rewrite Z in H2. discriminate.
      * now apply exact_div_antitone.
    + intros e He He1. exists (h / e)%Q. split.
      * apply exact_shaft_defined. intro Z. rewrite Z in He. discriminate.
      * apply exact_le_div; [assumption | ].
        rewrite <- (Qmult_1_r h) at 2.
        rewrite (Qmult_comm h e), (Qmult_comm h 1).
        apply Qmult_le_compat_r; [assumption | now apply Qlt_le_weak].
  - intros h Hh. apply b64_ltb_leb in Hh. split.
    + intros e1 e2 H1 H12 Hf.
      assert (H02 : (0 <? e2)%float = true) by (eapply b64_ltb_trans; eassumption).
      exists (h / e1)%float, (h / e2)%float.
      split; [apply D; exact H1 | ]. split; [apply D; exact H02 | ].
      apply b64_div_antitone_nonneg; try assumption.
      apply b64_ltb_leb. exact H12.
    + intros e H0 H1. exists (h / e)%float.
      split; [apply D; exact H0 | now apply b64_div_ge_nonneg].
Qed.

(** 9.80665 kW at 70 % against 80 %, and at 100 %; on binary64 also the
    smallest subnormal power at 70 % against 250 %. *)
Lemma shaft_power_kw_decreasing_witness :
  (0 < 9.80665)%Q /\
  (exists s1 s2 : Q,
      Exact.shaft_power_kw 9.80665 0.7 = Ok s1 /\
      Exact.shaft_power_kw 9.80665 0.8 = Ok s2 /\ (s2 < s1)%Q) /\
  (exists s : Q, Exact.shaft_power_kw 9.80665 1 = Ok s /\ (9.80665 <= s)%Q) /\
  (0 <? 0.7)%float = true /\
  Binary64.shaft_power_kw 9.80665 0.7 = Ok (9.80665 / 0.7)%float /\
  (0 <? 9.80665)%float = true /\
  (exists s1 s2 : float,
      Binary64.shaft_power_kw 9.80665 0.7 = Ok s1 /\
      Binary64.shaft_power_kw 9.80665 0.8 = Ok s2 /\ (s2 <=? s1)%float = true) /\
  (exists s : float,
      Binary64.shaft_power_kw 9.80665 1 = Ok s /\ (9.80665 <=? s)%float = true) /\
  (0 <? 5e-324)%float = true /\
  (exists s1 s2 : float,
      Binary64.shaft_power_kw 5e-324 0.7 = Ok s1 /\
      Binary64.shaft_power_kw 5e-324 2.5 = Ok s2 /\ (s2 <=? s1)%float = true).
Proof.
  split; [reflexivity | ].
  destruct shaft_power_kw_decreasing as (HE & HF & HB).
  destruct (HE 9.80665%Q eq_refl) as [Hdec Hge].
  destruct (HB 9.80665%float eq_refl) as [Bdec Bge].
  destruct (HB 5e-324%float eq_refl) as [Sdec _].
  split; [apply Hdec; reflexivity | ].
  split; [apply Hge; [reflexivity | discriminate] | ].
  split; [reflexivity | ].
  split; [apply HF; reflexivity | ].
  split; [reflexivity | ].
  split; [apply Bdec; reflexivity | ].
  split; [apply Bge; reflexivity | ].
  split; [reflexivity | apply Sdec; reflexivity].
Defined.

(** ** Unit factors *)

(** The factor the script applies to US gallons per minute is not the
    [0.0030785411784 / 60] of the claim, over the rationals or on binary64. *)
Lemma gpm_factor_is_not_0_0030785411784 :
  ~ (exists q : Q,
        Exact.to_si_flow 1 "gpm (US)" = Ok q /\
        (q == 1 * (0.0030785411784 / 60))%Q) /\
  Binary64.to_si_flow 1 "gpm (US)" <> Ok (1 * (0.0030785411784 / 60))%float.
Proof.
  split.
  - intros (q & E & H). vm_compute in E. injection E as <-.
    vm_compute in H. discriminate H.
  - intros E.
    apply (f_equal (fun r => match r with
                             | Ok x => (x <? 0.00006)%float
                             | Raise _ => false
                             end)) in E.
    vm_compute in E. discriminate E.
Qed.

(** Claim C6 (amended).  [to_si_flow] multiplies its value by the factor
    stored for the unit: [0.001] for L/s, [0.003785411784 / 60] for US gpm
    and [0.028316846592] for ft3/s, for every value (non-negative or not). *)
Theorem to_si_flow_factors :
  (forall value : Q,
      (exists q : Q, Exact.to_si_flow value "L/s" = Ok q /\
                     (q == value * 0.001)%Q) /\
      (exists q : Q, Exact.to_si_flow value "gpm (US)" = Ok q /\
                     (q == value * (0.003785411784 / 60))%Q) /\
      (exists q : Q, Exact.to_si_flow value "ft³/s" = Ok q /\
                     (q == value * 0.028316846592)%Q)) /\
  (forall value : float,
      Binary64.to_si_flow value "L/s" = Ok (value * 0.001)%float /\
      Binary64.to_si_flow value "gpm (US)"
        = Ok (value * (0.003785411784 / 60))%float /\
      Binary64.to_si_flow value "ft³/s" = Ok (value * 0.028316846592)%float).
Proof.
  split.
  - intros value. repeat split; eexists; (split; [reflexivity | ]);
      apply Qmult_comp; reflexivity.
  - intros value. repeat split; reflexivity.
Qed.

(** Claim C7.  A flow of 100 US gpm is converted to
    100 * 0.003785411784 / 60 = 0.00630901964 m3/s, which is 0.0063090 to
    the digits given; on binary64 the result is the float 0.00630901964. *)
Theorem to_si_flow_100_gpm :
  (exists q : Q,
      Exact.to_si_flow 100 "gpm (US)" = Ok q /\
      (q == 100 * 0.003785411784 / 60)%Q /\
      (q == 0.00630901964)%Q /\
      (Qabs (q - 0.0063090) <= 0.00000005)%Q) /\
  Binary64.to_si_flow 100 "gpm (US)" = Ok 0.00630901964%float /\
  (0.00630895 <? 100 * (0.003785411784 / 60))%float = true /\
  (100 * (0.003785411784 / 60) <? 0.00630905)%float = true.
Proof.
  split.
  - eexists. split; [reflexivity | ].
    repeat split; try reflexivity.
    apply Qabs_Qle_condition. split; vm_compute; discriminate.
  - repeat split; vm_compute; reflexivity.
Qed.

(** ** The density floor *)

(** Claim C8.  [sg_to_density sg] is [max(1e-6, sg) * 1000.0] for every
    [sg]: a specific gravity above [1e-6] is multiplied by [1000.0], any
    other one gives exactly 1e-3 kg/m3; zero and below (0 and -5 in
    particular) give 1e-3, a positive density, and nothing is raised.  Over
    the rationals, where the builtin [max] is compared with the mathematical
    maximum, and on binary64 for every float (a NaN is not above [1e-6] and
    gives 1e-3). *)
Theorem sg_to_density_floor :
  (forall sg : Q, (Exact.sg_to_density sg == Qmax 1e-6 sg * 1000.0)%Q) /\
  (forall sg : Q, (sg <= 0)%Q -> (Exact.sg_to_density sg == 1e-3)%Q) /\
  (Exact.sg_to_density 0 == 1e-3)%Q /\
  (Exact.sg_to_density (-5) == 1e-3)%Q /\
  (forall sg : float,
      Binary64.sg_to_density sg = (Binary64.max 1e-6 sg * 1000.0)%float) /\
  (forall sg : float,
      (sg <=? 0)%float = true -> Binary64.sg_to_density sg = 1e-3%float) /\
  Binary64.sg_to_density 0 = 1e-3%float /\
  Binary64.sg_to_density (-5) = 1e-3%float /\
  (forall sg : float,
      (1e-6 <? sg)%float = true ->
      Binary64.sg_to_density sg = (sg * 1000.0)%float) /\
  (forall sg : float,
      (1e-6 <? sg)%float = false -> Binary64.sg_to_density sg = 1e-3%float) /\
  (forall sg : float,
      (sg <=? 1e-6)%float = true -> Binary64.sg_to_density sg = 1e-3%float) /\
  Binary64.sg_to_density 1 = 1000%float /\
  Binary64.sg_to_density 1.025 = 1025%float.
Proof.
  repeat split; try reflexivity.
  - intros sg. unfold Exact.sg_to_density, Exact.RHO_WATER_4C.
    destruct (exact_max_cases 1e-6 sg) as [[H ->] | [H ->]].
    + rewrite Q.max_r; [reflexivity | now apply Qlt_le_weak].
    + rewrite Q.max_l; [reflexivity | assumption].
  - intros sg Hsg. unfold Exact.sg_to_density.
    destruct (exact_max_cases 1e-6 sg) as [[H ->] | [H ->]]; [ | reflexivity].
    exfalso. apply (Qlt_not_le _ _ H).
    eapply Qle_trans; [exact Hsg | discriminate].
  - intros sg Hsg. unfold Binary64.sg_to_density, Binary64.max.
    rewrite (b64_nonpositive_below_floor sg Hsg). vm_compute. reflexivity.
  - intros sg Hsg. unfold Binary64.sg_to_density, Binary64.max.
    rewrite Hsg. reflexivity.
  - intros sg Hsg. unfold Binary64.sg_to_density, Binary64.max.
    rewrite Hsg. vm_compute. reflexivity.
  - intros sg Hsg. unfold Binary64.sg_to_density, Binary64.max.
    rewrite (b64_leb_not_ltb sg 1e-6 eq_refl Hsg). vm_compute. reflexivity.
Qed.

(** The floor at a specific gravity of -5, and sea water above it. *)
Lemma sg_to_density_floor_witness :
  (-5 <= 0)%Q /\ (Exact.sg_to_density (-5) == 1e-3)%Q /\
  (-5 <=? 0)%float = true /\ Binary64.sg_to_density (-5) = 1e-3%float /\
  (1e-6 <? 1.025)%float = true /\
  Binary64.sg_to_density 1.025 = (1.025 * 1000.0)%float /\
  (1e-6 <? nan)%float = false /\ Binary64.sg_to_density nan = 1e-3%float /\
  (1e-7 <=? 1e-6)%float = true /\ Binary64.sg_to_density 1e-7 = 1e-3%float.
Proof.
  destruct sg_to_density_floor
    as (_ & HE & _ & _ & _ & HF & _ & _ & HA & HN & HL & _).
  split; [discriminate | ]. split; [apply HE; discriminate | ].
  split; [reflexivity | ]. split; [apply HF; reflexivity | ].
  split; [reflexivity | ]. split; [apply HA; reflexivity | ].
  split; [reflexivity | ]. split; [apply HN; reflexivity | ].
  split; [reflexivity | apply HL; reflexivity].
Defined.

(** ** Horsepower *)

(** Claim C9.  [kw_to_hp] multiplies by [1.34102209].  That factor is not
    the metric horsepower of 735.49875 W the comment next to it names: for
    every positive power the result is more than 1 % below
    [kw * 1000 / 735.49875]; the factor is the one of the mechanical
    horsepower of 745.69987158227022 W. *)
Theorem kw_to_hp_is_not_metric :
  (forall kw : Q, (Exact.kw_to_hp kw == kw * 1.34102209)%Q) /\
  (forall kw : Q, (0 < kw)%Q ->
      (Exact.kw_to_hp kw < 0.99 * (kw * 1000 / 735.49875))%Q) /\
  (Qabs (Exact.kw_to_hp 1 - 1 * 1000 / 745.69987158227022) <= 1e-9)%Q /\
  (forall kw : float, Binary64.kw_to_hp kw = (kw * 1.34102209)%float) /\
  Binary64.kw_to_hp 1 = 1.34102209%float /\
  (Binary64.kw_to_hp 1 <? 0.99 * (1 * 1000 / 735.49875))%float = true.
Proof.
  repeat split; try reflexivity.
  - intros kw Hkw. unfold Exact.kw_to_hp.
    assert (E : (0.99 * (kw * 1000 / 735.49875)
                 == kw * (0.99 * 1000 / 735.49875))%Q) by (field; discriminate).
    rewrite E. rewrite !(Qmult_comm kw).
    apply Qmult_lt_compat_r; [assumption | reflexivity].
  - apply Qabs_Qle_condition. split; vm_compute; discriminate.
Qed.

(** One kilowatt: 1.34102209 against 1.3596 metric horsepower. *)
Lemma kw_to_hp_is_not_metric_witness :
  (0 < 1)%Q /\ (Exact.kw_to_hp 1 < 0.99 * (1 * 1000 / 735.49875))%Q.
Proof.
  destruct kw_to_hp_is_not_metric as (_ & H & _).
  split; [reflexivity | apply H; reflexivity].
Defined.

(** ** Full efficiency *)

(** On binary64, at 100 % efficiency, a positive hydraulic power can equal
    the shaft power: with a custom density of 1e308 kg/m3 both are plus
    infinity, and with 1e-321 kg/m3 both are the same subnormal number. *)
Lemma full_efficiency_shaft_equals_hydraulic :
  (exists o : Binary64.outputs,
      Binary64.script (Binary64.full_efficiency_with_custom_density 1e308) = Ok o /\
      Binary64.eta o = 0.999999%float /\
      Binary64.P_h_kw o = infinity /\
      (0 <? Binary64.P_h_kw o)%float = true /\
      Binary64.P_shaft_kw o = Binary64.P_h_kw o /\
      (Binary64.P_h_kw o <? Binary64.P_shaft_kw o)%float = false) /\
  (exists o : Binary64.outputs,
      Binary64.script (Binary64.full_efficiency_with_custom_density 1e-321) = Ok o /\
      Binary64.eta o = 0.999999%float /\
      Binary64.P_h_kw o = 1e-323%float /\
      (0 <? Binary64.P_h_kw o)%float = true /\
      Binary64.P_shaft_kw o = Binary64.P_h_kw o /\
      (Binary64.P_h_kw o <? Binary64.P_shaft_kw o)%float = false).
Proof.
  split; eexists; (split; [vm_compute; reflexivity | ]); simpl;
    repeat split; vm_compute; reflexivity.
Qed.

(** Claim C10 (amended).  An efficiency of exactly 100 % (100 with "%", or
    1.0 with "fraction") is clamped to 0.999999, on binary64 and over the
    rationals, and the script runs to the end with a shaft power that is the
    hydraulic power divided by 0.999999.  On binary64 the shaft power is
    strictly greater than the hydraulic power whenever the hydraulic power
    is a positive normal number (finite and at least 2^-1022); over the
    rationals, whenever it is positive. *)
Theorem full_efficiency_shaft_exceeds_hydraulic :
  Binary64.to_fraction 100 "%" = Ok 0.999999%float /\
  Binary64.to_fraction 1.0 "fraction" = Ok 0.999999%float /\
  Exact.to_fraction 100 "%" = Ok 0.999999%Q /\
  Exact.to_fraction 1.0 "fraction" = Ok 0.999999%Q /\
  (forall i : Binary64.inputs,
      Binary64.widget_units i -> Binary64.full_efficiency i ->
      exists o : Binary64.outputs,
        Binary64.script i = Ok o /\
        Binary64.eta o = 0.999999%float /\
        Binary64.P_shaft_kw o = (Binary64.P_h_kw o / 0.999999)%float /\
        (classify (Binary64.P_h_kw o) = PNormal ->
         (Binary64.P_h_kw o <? Binary64.P_shaft_kw o)%float = true)) /\
  (forall i : Exact.inputs,
      Exact.widget_values i -> Exact.full_efficiency i ->
      exists o : Exact.outputs,
        Exact.script i = Ok o /\
        Exact.eta o = 0.999999%Q /\
        (Exact.P_shaft_kw o == Exact.P_h_kw o / 0.999999)%Q /\
        ((0 < Exact.P_h_kw o)%Q ->
         (Exact.P_h_kw o < Exact.P_shaft_kw o)%Q /\
         ~ (Exact.P_shaft_kw o == Exact.P_h_kw o)%Q)).
Proof.
  repeat split; try reflexivity.
  - intros i Hu Hfull.
    destruct (b64_script_runs i Hu) as (q & h & e & Ee & Es).
    rewrite (b64_full_efficiency_fraction i Hfull) in Ee.
    apply py_Ok_inj in Ee. subst e.
    eexists. split; [exact Es | ]. simpl.
    split; [reflexivity | ]. split; [reflexivity | ].
    apply b64_div_clamp_gt.
  - intros i Hw Hfull.
    destruct (exact_script_runs i Hw) as (q & h & e & _ & _ & Ee & _ & Es).
    rewrite (exact_full_efficiency_fraction i Hfull) in Ee.
    apply py_Ok_inj in Ee. subst e.
    eexists. split; [exact Es | ]. simpl.
    split; [reflexivity | ]. split; [reflexivity | ].
    set (p := Exact.hydraulic_power_kw _ _ _ _). intros Hp.
    assert (L : (p < p / 0.999999)%Q).
    { apply exact_lt_div; [reflexivity | ]. lra. }
    split; [exact L | ].
    intros E. rewrite E in L. exact (Qlt_irrefl _ L).
Qed.

(** The initial values with the efficiency raised to 100 %: on binary64
    (with the override ticked and water's density) and over the rationals
    the hydraulic power is 9.80665 kW and the shaft power is greater. *)
Lemma full_efficiency_shaft_exceeds_hydraulic_witness :
  (Binary64.widget_units (Binary64.full_efficiency_with_custom_density 1000) /\
   Binary64.full_efficiency (Binary64.full_efficiency_with_custom_density 1000) /\
   exists o : Binary64.outputs,
     Binary64.script (Binary64.full_efficiency_with_custom_density 1000) = Ok o /\
     classify (Binary64.P_h_kw o) = PNormal /\
     (Binary64.P_h_kw o <? Binary64.P_shaft_kw o)%float = true) /\
  (Exact.widget_values Exact.at_full_efficiency /\
   Exact.full_efficiency Exact.at_full_efficiency /\
   exists o : Exact.outputs,
     Exact.script Exact.at_full_efficiency = Ok o /\
     (0 < Exact.P_h_kw o)%Q /\
     (Exact.P_h_kw o < Exact.P_shaft_kw o)%Q).
Proof.
  assert (Hu : Binary64.widget_units
                 (Binary64.full_efficiency_with_custom_density 1000)).
  { unfold Binary64.widget_units; simpl. auto 10. }
  assert (Hg : Binary64.full_efficiency
                 (Binary64.full_efficiency_with_custom_density 1000)).
  { left. split; reflexivity. }
  assert (Hw : Exact.widget_values Exact.at_full_efficiency).
  { unfold Exact.widget_values; simpl.
    repeat split; try discriminate; auto 10. }
  assert (Hf : Exact.full_efficiency Exact.at_full_efficiency).
  { left. split; reflexivity. }
  destruct full_efficiency_shaft_exceeds_hydraulic as (_ & _ & _ & _ & HB & HE).
  split.
  - split; [exact Hu | ]. split; [exact Hg | ].
    destruct (HB _ Hu Hg) as (o & Es & _ & _ & Hgt).
    exists o. split; [exact Es | ].
    assert (Hn : classify (Binary64.P_h_kw o) = PNormal).
    { pose proof Es as E. vm_compute in E. apply py_Ok_inj in E.
      rewrite <- E. vm_compute. reflexivity. }
    split; [exact Hn | exact (Hgt Hn)].
  - split; [exact Hw | ]. split; [exact Hf | ].
    destruct (HE _ Hw Hf) as (o & Es & _ & _ & Hgt).
    exists o. split; [exact Es | ].
    assert (Hp : (0 < Exact.P_h_kw o)%Q).
    { pose proof Es as E. vm_compute in E. apply py_Ok_inj in E.
      rewrite <- E. vm_compute. reflexivity. }
    split; [exact Hp | exact (proj1 (Hgt Hp))].
Defined.

(** * Further properties of the code *)

(** ** Unit conversions *)

(** Property X1.  [to_si_head] leaves a head in metres unchanged, for every float
    (infinities, NaN and the negative zero included), multiplies a head in
    feet by [0.3048], and raises [KeyError] with the unit for any other unit
    tag. *)
Theorem to_si_head_units (value : float) :
  Binary64.to_si_head value "m" = Ok value /\
  Binary64.to_si_head value "ft" = Ok (value * 0.3048)%float /\
  forall unit : string,
    unit <> "m" -> unit <> "ft" ->
    Binary64.to_si_head value unit = Raise (KeyError unit).
Proof.
  split; [ | split; [reflexivity | ]].
  - unfold Binary64.to_si_head. cbn [getitem Binary64.HEAD_UNITS String.eqb Ascii.eqb Bool.eqb bind].
    rewrite b64_mul_one_r. reflexivity.
  - intros unit Hm Hf. unfold Binary64.to_si_head.
    rewrite py_getitem_missing; [reflexivity | ].
    intros [E | [E | []]]; [apply Hm | apply Hf]; symmetry; exact E.
Qed.

Lemma to_si_head_units_witness :
  "cm" <> "m" /\ "cm" <> "ft" /\
  Binary64.to_si_head 250 "cm" = Raise (KeyError "cm").
Proof.
  assert (A : "cm" <> "m") by discriminate.
  assert (B : "cm" <> "ft") by discriminate.
  split; [exact A | ]. split; [exact B | ].
  exact (proj2 (proj2 (to_si_head_units 250)) "cm" A B).
Defined.

(** Property X2.  [to_si_flow] leaves a flow in cubic metres per second
    unchanged, for every float.  Each of the six unit tags of the table has
    one factor, positive and at most one, by which every value is
    multiplied; the two factors the table computes by a division that no
    other statement pins are [1.6666666666666667e-05] for L/min and
    [0.0002777777777777778] for m3/h.  For any other unit tag [to_si_flow]
    raises [KeyError] with that tag, whatever the value. *)
Theorem to_si_flow_lookup (unit : string) :
  (forall value : float, Binary64.to_si_flow value "m³/s" = Ok value) /\
  (forall value : float,
      Binary64.to_si_flow value "L/min"
      = Ok (value * 1.6666666666666667e-05)%float /\
      Binary64.to_si_flow value "m³/h"
      = Ok (value * 0.0002777777777777778)%float) /\
  (In unit ["m³/s"; "L/s"; "L/min"; "m³/h"; "gpm (US)"; "ft³/s"] ->
   exists f : float,
     (0 <? f)%float = true /\ (f <=? 1)%float = true /\
     forall value : float,
       Binary64.to_si_flow value unit = Ok (value * f)%float) /\
  (~ In unit ["m³/s"; "L/s"; "L/min"; "m³/h"; "gpm (US)"; "ft³/s"] ->
   forall value : float,
     Binary64.to_si_flow value unit = Raise (KeyError unit)).
Proof.
  split; [ | split; [ | split]].
  - intros value. unfold Binary64.to_si_flow.
    change (getitem Binary64.FLOW_UNITS "m³/s") with (Ok 1.0%float).
    cbn [bind]. rewrite b64_mul_one_r. reflexivity.
  - intros value. split; reflexivity.
  - intros Hin.
    destruct (py_getitem_in Binary64.FLOW_UNITS unit Hin) as [f Hf].
    destruct (b64_flow_factor_range unit f Hf) as (F0 & F1 & _).
    exists f. split; [exact F0 | ]. split; [exact F1 | ].
    intros value. unfold Binary64.to_si_flow. rewrite Hf. reflexivity.
  - intros Hout value. unfold Binary64.to_si_flow.
    rewrite py_getitem_missing; [reflexivity | exact Hout].
Qed.

Lemma to_si_flow_lookup_witness :
  In "L/min" ["m³/s"; "L/s"; "L/min"; "m³/h"; "gpm (US)"; "ft³/s"] /\
  (exists f : float,
     (0 <? f)%float = true /\ (f <=? 1)%float = true /\
     forall value : float,
       Binary64.to_si_flow value "L/min" = Ok (value * f)%float) /\
  ~ In "l/s" ["m³/s"; "L/s"; "L/min"; "m³/h"; "gpm (US)"; "ft³/s"] /\
  Binary64.to_si_flow 90 "l/s" = Raise (KeyError "l/s").
Proof.
  assert (A : In "L/min" ["m³/s"; "L/s"; "L/min"; "m³/h"; "gpm (US)"; "ft³/s"])
    by (right; right; left; reflexivity).
  assert (B : ~ In "l/s" ["m³/s"; "L/s"; "L/min"; "m³/h"; "gpm (US)"; "ft³/s"]).
  { intros H. repeat (destruct H as [H | H]; [discriminate H | ]). exact H. }
  split; [exact A | ].
  split; [exact (proj1 (proj2 (proj2 (to_si_flow_lookup "L/min"))) A) | ].
  split; [exact B | ].
  exact (proj2 (proj2 (proj2 (to_si_flow_lookup "l/s"))) B 90%float).
Defined.

(** Property X3.  For every unit tag of their tables, [to_si_flow] and [to_si_head]
    keep the order of values that are at least zero, return a value that is
    at least zero, and never return more than the value they are given. *)
Theorem to_si_conversions_monotone (unit : string) (v1 v2 : float) :
  (0 <=? v1)%float = true -> (v1 <=? v2)%float = true ->
  (In unit (keys Binary64.FLOW_UNITS) ->
   exists q1 q2 : float,
     Binary64.to_si_flow v1 unit = Ok q1 /\ Binary64.to_si_flow v2 unit = Ok q2 /\
     (0 <=? q1)%float = true /\ (q1 <=? q2)%float = true /\
     (q2 <=? v2)%float = true) /\
  (In unit (keys Binary64.HEAD_UNITS) ->
   exists h1 h2 : float,
     Binary64.to_si_head v1 unit = Ok h1 /\ Binary64.to_si_head v2 unit = Ok h2 /\
     (0 <=? h1)%float = true /\ (h1 <=? h2)%float = true /\
     (h2 <=? v2)%float = true).
Proof.
  intros N1 H. split; intros Hin.
  - destruct (py_getitem_in Binary64.FLOW_UNITS unit Hin) as [f Hf].
    destruct (b64_flow_factor_range unit f Hf) as (F0 & F1 & Ff).
    exists (v1 * f)%float, (v2 * f)%float.
    unfold Binary64.to_si_flow. rewrite Hf.
    split; [reflexivity | ]. split; [reflexivity | ].
    apply b64_scale_mono; assumption.
  - destruct (py_getitem_in Binary64.HEAD_UNITS unit Hin) as [f Hf].
    destruct (b64_head_factor_range unit f Hf) as (F0 & F1 & Ff).
    exists (v1 * f)%float, (v2 * f)%float.
    unfold Binary64.to_si_head. rewrite Hf.
    split; [reflexivity | ]. split; [reflexivity | ].
    apply b64_scale_mono; assumption.
Qed.

Lemma to_si_conversions_monotone_witness :
  (0 <=? 100)%float = true /\ (100 <=? 250)%float = true /\
  In "gpm (US)" (keys Binary64.FLOW_UNITS) /\
  (exists q1 q2 : float,
     Binary64.to_si_flow 100 "gpm (US)" = Ok q1 /\
     Binary64.to_si_flow 250 "gpm (US)" = Ok q2 /\
     (0 <=? q1)%float = true /\ (q1 <=? q2)%float = true /\
     (q2 <=? 250)%float = true).
Proof.
  assert (A : In "gpm (US)" (keys Binary64.FLOW_UNITS)) by (simpl; auto 10).
  split; [reflexivity | ]. split; [reflexivity | ]. split; [exact A | ].
  exact (proj1 (to_si_conversions_monotone "gpm (US)" 100 250 eq_refl eq_refl) A).
Defined.

(** ** The efficiency fraction *)

(** Property X4.  [to_fraction] returns the scaled efficiency [p] itself when [p] is
    strictly between the two literals, [1e-6] when [p] is at most [1e-6]
    (negative values and minus infinity included) and [0.999999] when [p] is
    not below [0.999999]: at or above it, plus infinity, or NaN.  With the
    unit ["fraction"] the scaled efficiency is the value itself, with ["%"]
    it is [value * 0.01]; any other unit raises [KeyError]. *)
Theorem to_fraction_saturates (value : float) :
  (forall (unit : string) (p : float),
      (unit = "fraction" /\ p = value) \/
      (unit = "%" /\ p = (value * 0.01)%float) ->
      ((1e-6 <? p)%float = true -> (p <? 0.999999)%float = true ->
       Binary64.to_fraction value unit = Ok p) /\
      ((p <=? 1e-6)%float = true ->
       Binary64.to_fraction value unit = Ok 1e-6%float) /\
      ((p <? 0.999999)%float = false ->
       Binary64.to_fraction value unit = Ok 0.999999%float)) /\
  Binary64.to_fraction nan "fraction" = Ok 0.999999%float /\
  Binary64.to_fraction nan "%" = Ok 0.999999%float /\
  (forall unit : string,
      unit <> "%" -> unit <> "fraction" ->
      Binary64.to_fraction value unit = Raise (KeyError unit)).
Proof.
  split; [ | split; [reflexivity | split; [reflexivity | ]]].
  - intros unit p Hp.
    assert (E : Binary64.to_fraction value unit
                = Ok (Binary64.max 1e-6 (Binary64.min 0.999999 p))).
    { destruct Hp as [[-> ->] | [-> ->]]; unfold Binary64.to_fraction.
      - change (getitem Binary64.EFF_UNITS "fraction") with (Ok 1.0%float).
        cbn [bind]. rewrite b64_mul_one_r. reflexivity.
      - reflexivity. }
    rewrite E. split; [ | split].
    + intros L U. rewrite b64_clamp_inside; [reflexivity | exact L | exact U].
    + intros L. rewrite b64_clamp_low; [reflexivity | exact L].
    + intros U. rewrite b64_clamp_high; [reflexivity | exact U].
  - intros unit Hp Hf. unfold Binary64.to_fraction.
    rewrite py_getitem_missing; [reflexivity | ].
    intros [E | [E | []]]; [apply Hp | apply Hf]; symmetry; exact E.
Qed.

Lemma to_fraction_saturates_witness :
  (1e-6 <? 0.7)%float = true /\ (0.7 <? 0.999999)%float = true /\
  Binary64.to_fraction 0.7 "fraction" = Ok 0.7%float /\
  (-5 * 0.01 <=? 1e-6)%float = true /\
  Binary64.to_fraction (-5) "%" = Ok 1e-6%float /\
  (150 * 0.01 <? 0.999999)%float = false /\
  Binary64.to_fraction 150 "%" = Ok 0.999999%float /\
  "percent" <> "%" /\ "percent" <> "fraction" /\
  Binary64.to_fraction 70 "percent" = Raise (KeyError "percent").
Proof.
  assert (A : "percent" <> "%") by discriminate.
  assert (B : "percent" <> "fraction") by discriminate.
  split; [reflexivity | ]. split; [reflexivity | ].
  split.
  { exact (proj1 (proj1 (to_fraction_saturates 0.7) "fraction" 0.7%float
                    (or_introl (conj eq_refl eq_refl))) eq_refl eq_refl). }
  split; [reflexivity | ].
  split.
  { exact (proj1 (proj2 (proj1 (to_fraction_saturates (-5)) "%" (-5 * 0.01)%float
                           (or_intror (conj eq_refl eq_refl)))) eq_refl). }
  split; [reflexivity | ].
  split.
  { exact (proj2 (proj2 (proj1 (to_fraction_saturates 150) "%" (150 * 0.01)%float
                           (or_intror (conj eq_refl eq_refl)))) eq_refl). }
  split; [exact A | ]. split; [exact B | ].
  exact (proj2 (proj2 (proj2 (to_fraction_saturates 70))) "percent" A B).
Defined.

(** Property X5.  A fraction that [to_fraction] has returned is a fixed point: fed
    back with the unit ["fraction"] it comes out unchanged, whatever value
    and unit produced it. *)
Theorem to_fraction_idempotent (value : float) (unit : string) (eta : float) :
  Binary64.to_fraction value unit = Ok eta ->
  Binary64.to_fraction eta "fraction" = Ok eta.
Proof.
  unfold Binary64.to_fraction at 1.
  destruct (getitem Binary64.EFF_UNITS unit) as [f | e]; [ | discriminate].
  cbn [bind]. intros H. apply py_Ok_inj in H. subst eta.
  unfold Binary64.to_fraction.
  change (getitem Binary64.EFF_UNITS "fraction") with (Ok 1.0%float).
  cbn [bind]. rewrite b64_mul_one_r.
  f_equal. apply b64_clamp_idempotent.
Qed.

Lemma to_fraction_idempotent_witness :
  Binary64.to_fraction 70 "%" = Ok 0.70000000000000007%float /\
  Binary64.to_fraction 0.70000000000000007 "fraction" = Ok 0.70000000000000007%float.
Proof.
  assert (A : Binary64.to_fraction 70 "%" = Ok 0.70000000000000007%float)
    by reflexivity.
  split; [exact A | ].
  exact (to_fraction_idempotent 70 "%" 0.70000000000000007%float A).
Defined.

(** Property X6.  For either unit tag [to_fraction] keeps the order of efficiencies
    that are at least zero: a larger entry never gives a smaller fraction. *)
Theorem to_fraction_monotone (unit : string) (v1 v2 : float) :
  unit = "%" \/ unit = "fraction" ->
  (0 <=? v1)%float = true -> (v1 <=? v2)%float = true ->
  exists eta1 eta2 : float,
    Binary64.to_fraction v1 unit = Ok eta1 /\
    Binary64.to_fraction v2 unit = Ok eta2 /\
    (eta1 <=? eta2)%float = true.
Proof.
  intros Hu N1 H.
  assert (Hin : In unit (keys Binary64.EFF_UNITS))
    by (destruct Hu as [-> | ->]; simpl; auto).
  destruct (py_getitem_in Binary64.EFF_UNITS unit Hin) as [f Hf].
  destruct (b64_eff_factor_range unit f Hf) as (F0 & F1 & Ff).
  destruct (b64_scale_mono f v1 v2 F0 F1 Ff N1 H) as (P1 & P12 & _).
  unfold Binary64.to_fraction. rewrite Hf. cbn [bind].
  eexists _, _. split; [reflexivity | ]. split; [reflexivity | ].
  apply b64_clamp_mono; assumption.
Qed.

Lemma to_fraction_monotone_witness :
  ("%" = "%" \/ "%" = "fraction") /\
  (0 <=? 55)%float = true /\ (55 <=? 80)%float = true /\
  exists eta1 eta2 : float,
    Binary64.to_fraction 55 "%" = Ok eta1 /\
    Binary64.to_fraction 80 "%" = Ok eta2 /\
    (eta1 <=? eta2)%float = true.
Proof.
  split; [left; reflexivity | ]. split; [reflexivity | ]. split; [reflexivity | ].
  exact (to_fraction_monotone "%" 55 80 (or_introl eq_refl) eq_refl eq_refl).
Defined.

(** ** The density from the specific gravity *)

(** Property X7.  [sg_to_density] returns at least [1e-3] kg/m3, hence a positive
    density that is not NaN, for every float it is given (NaN and negative
    values included), and it keeps the order of specific gravities. *)
Theorem sg_to_density_positive_monotone :
  (forall sg : float,
      (1e-3 <=? Binary64.sg_to_density sg)%float = true /\
      (0 <? Binary64.sg_to_density sg)%float = true) /\
  Binary64.sg_to_density nan = 1e-3%float /\
  (forall sg1 sg2 : float,
      (sg1 <=? sg2)%float = true ->
      (Binary64.sg_to_density sg1 <=? Binary64.sg_to_density sg2)%float = true).
Proof.
  split; [ | split; [reflexivity | exact b64_sg_to_density_mono]].
  intros sg. split; [apply b64_sg_to_density_floor | ].
  apply (b64_ltb_leb_trans 0 1e-3);
    [reflexivity | reflexivity | apply b64_sg_to_density_floor].
Qed.

Lemma sg_to_density_positive_monotone_witness :
  (0.85 <=? 1.025)%float = true /\
  (Binary64.sg_to_density 0.85 <=? Binary64.sg_to_density 1.025)%float = true.
Proof.
  split; [reflexivity | ].
  exact (proj2 (proj2 sg_to_density_positive_monotone) 0.85%float 1.025%float eq_refl).
Defined.

(** ** Horsepower *)

(** Property X8.  [kw_to_hp] keeps the order of powers that are at least zero, and
    the horsepower figure of such a power is at least zero and not below the
    kilowatt figure. *)
Theorem kw_to_hp_monotone (kw1 kw2 : float) :
  (0 <=? kw1)%float = true -> (kw1 <=? kw2)%float = true ->
  (0 <=? Binary64.kw_to_hp kw1)%float = true /\
  (Binary64.kw_to_hp kw1 <=? Binary64.kw_to_hp kw2)%float = true /\
  (kw1 <=? Binary64.kw_to_hp kw1)%float = true.
Proof.
  intros N1 H. unfold Binary64.kw_to_hp.
  split; [apply b64_mul_nonneg; [exact N1 | reflexivity | reflexivity] | ].
  split; [apply b64_mul_mono; [exact N1 | exact H | reflexivity | reflexivity] | ].
  rewrite <- (b64_mul_one_r kw1) at 1.
  rewrite (b64_mul_comm kw1 1.0), (b64_mul_comm kw1 1.34102209).
  apply b64_mul_mono_nonneg.
  - reflexivity.
  - reflexivity.
  - exact N1.
  - rewrite b64_mul_comm, b64_mul_one_r. exact N1.
  - rewrite b64_mul_comm. apply b64_mul_nonneg; [exact N1 | reflexivity | reflexivity].
Qed.

Lemma kw_to_hp_monotone_witness :
  (0 <=? 9.80665)%float = true /\ (9.80665 <=? 14.0095)%float = true /\
  (0 <=? Binary64.kw_to_hp 9.80665)%float = true /\
  (Binary64.kw_to_hp 9.80665 <=? Binary64.kw_to_hp 14.0095)%float = true /\
  (9.80665 <=? Binary64.kw_to_hp 9.80665)%float = true.
Proof.
  split; [reflexivity | ]. split; [reflexivity | ].
  exact (kw_to_hp_monotone 9.80665 14.0095 eq_refl eq_refl).
Defined.

(** ** The power equations *)

(** Property X9.  On binary64, for every hydraulic power that is at least zero
    (zero, subnormal numbers and plus infinity included) and every pair of
    positive finite efficiencies [e1 <= e2], [shaft_power_kw] returns two
    quotients, the one by [e2] is not above the one by [e1], and it is at
    least zero; when [e2] is at most one it is not below the hydraulic
    power. *)
Theorem shaft_power_kw_antitone_in_efficiency (h e1 e2 : float) :
  (0 <=? h)%float = true -> (0 <? e1)%float = true ->
  (e1 <=? e2)%float = true -> (e2 <? infinity)%float = true ->
  exists s1 s2 : float,
    Binary64.shaft_power_kw h e1 = Ok s1 /\
    Binary64.shaft_power_kw h e2 = Ok s2 /\
    (s2 <=? s1)%float = true /\ (0 <=? s2)%float = true /\
    ((e2 <=? 1)%float = true -> (h <=? s2)%float = true).
Proof.
  intros Nh H0 H12 Hf.
  assert (H02 : (0 <? e2)%float = true)
    by (apply (b64_ltb_leb_trans 0 e1 e2); [reflexivity | exact H0 | exact H12]).
  exists (h / e1)%float, (h / e2)%float.
  unfold Binary64.shaft_power_kw.
  rewrite (b64_positive_nonzero e1 H0), (b64_positive_nonzero e2 H02).
  split; [reflexivity | ]. split; [reflexivity | ].
  split; [apply b64_div_antitone_nonneg; assumption | ].
  split; [apply b64_div_nonneg; assumption | ].
  intros H1. apply b64_div_ge_nonneg; assumption.
Qed.

Lemma shaft_power_kw_antitone_in_efficiency_witness :
  (0 <=? 5e-324)%float = true /\ (0 <? 0.5)%float = true /\
  (0.5 <=? 0.75)%float = true /\ (0.75 <? infinity)%float = true /\
  exists s1 s2 : float,
    Binary64.shaft_power_kw 5e-324 0.5 = Ok s1 /\
    Binary64.shaft_power_kw 5e-324 0.75 = Ok s2 /\
    (s2 <=? s1)%float = true /\ (0 <=? s2)%float = true /\
    ((0.75 <=? 1)%float = true -> (5e-324 <=? s2)%float = true).
Proof.
  split; [reflexivity | ]. split; [reflexivity | ].
  split; [reflexivity | ]. split; [reflexivity | ].
  exact (shaft_power_kw_antitone_in_efficiency 5e-324 0.5 0.75
           eq_refl eq_refl eq_refl eq_refl).
Defined.

(** Property X10.  For a positive finite efficiency, [shaft_power_kw] keeps the order
    of hydraulic powers that are at least zero. *)
Theorem shaft_power_kw_monotone_in_power (h1 h2 e : float) :
  (0 <=? h1)%float = true -> (h1 <=? h2)%float = true ->
  (0 <? e)%float = true -> (e <? infinity)%float = true ->
  exists s1 s2 : float,
    Binary64.shaft_power_kw h1 e = Ok s1 /\
    Binary64.shaft_power_kw h2 e = Ok s2 /\
    (0 <=? s1)%float = true /\ (s1 <=? s2)%float = true.
Proof.
  intros N1 H H0 Hf.
  exists (h1 / e)%float, (h2 / e)%float.
  unfold Binary64.shaft_power_kw. rewrite (b64_positive_nonzero e H0).
  split; [reflexivity | ]. split; [reflexivity | ].
  split; [apply b64_div_nonneg; assumption | apply b64_div_mono; assumption].
Qed.

Lemma shaft_power_kw_monotone_in_power_witness :
  (0 <=? 9.80665)%float = true /\ (9.80665 <=? 12.5)%float = true /\
  (0 <? 0.7)%float = true /\ (0.7 <? infinity)%float = true /\
  exists s1 s2 : float,
    Binary64.shaft_power_kw 9.80665 0.7 = Ok s1 /\
    Binary64.shaft_power_kw 12.5 0.7 = Ok s2 /\
    (0 <=? s1)%float = true /\ (s1 <=? s2)%float = true.
Proof.
  split; [reflexivity | ]. split; [reflexivity | ].
  split; [reflexivity | ]. split; [reflexivity | ].
  exact (shaft_power_kw_monotone_in_power 9.80665 12.5 0.7
           eq_refl eq_refl eq_refl eq_refl).
Defined.

(** Property X11.  [hydraulic_power_kw] follows its four arguments: when density,
    gravity, flow and head are at least zero and none of them decreases,
    the power does not decrease, provided neither power is NaN (the NaN of
    an overflowed product times zero). *)
Theorem hydraulic_power_kw_monotone (rho1 rho2 g1 g2 q1 q2 h1 h2 : float) :
  (0 <=? rho1)%float = true -> (rho1 <=? rho2)%float = true ->
  (0 <=? g1)%float = true -> (g1 <=? g2)%float = true ->
  (0 <=? q1)%float = true -> (q1 <=? q2)%float = true ->
  (0 <=? h1)%float = true -> (h1 <=? h2)%float = true ->
  (0 <=? Binary64.hydraulic_power_kw rho1 g1 q1 h1)%float = true ->
  (0 <=? Binary64.hydraulic_power_kw rho2 g2 q2 h2)%float = true ->
  (Binary64.hydraulic_power_kw rho1 g1 q1 h1
   <=? Binary64.hydraulic_power_kw rho2 g2 q2 h2)%float = true.
Proof. apply b64_hydraulic_power_mono. Qed.

Lemma hydraulic_power_kw_monotone_witness :
  (0 <=? 850)%float = true /\ (850 <=? 1000)%float = true /\
  (0 <=? 9.80665)%float = true /\ (9.80665 <=? 9.80665)%float = true /\
  (0 <=? 0.05)%float = true /\ (0.05 <=? 0.08)%float = true /\
  (0 <=? 20)%float = true /\ (20 <=? 35)%float = true /\
  (0 <=? Binary64.hydraulic_power_kw 850 9.80665 0.05 20)%float = true /\
  (0 <=? Binary64.hydraulic_power_kw 1000 9.80665 0.08 35)%float = true /\
  (Binary64.hydraulic_power_kw 850 9.80665 0.05 20
   <=? Binary64.hydraulic_power_kw 1000 9.80665 0.08 35)%float = true.
Proof.
  repeat (split; [reflexivity | ]).
  exact (hydraulic_power_kw_monotone 850 1000 9.80665 9.80665 0.05 0.08 20 35
           eq_refl eq_refl eq_refl eq_refl eq_refl eq_refl eq_refl eq_refl
           eq_refl eq_refl).
Defined.

(** ** The script as a whole *)

(** Property X12.  The script body raises nothing but [KeyError]: it runs to the end
    exactly when its three unit tags are keys of their tables, it reports the
    first missing tag in the order flow, head, efficiency, and it never
    raises [ZeroDivisionError], whatever floats and strings it is given. *)
Theorem script_raises_only_key_errors (i : Binary64.inputs) :
  (In (Binary64.Q_unit i) (keys Binary64.FLOW_UNITS) ->
   In (Binary64.H_unit i) (keys Binary64.HEAD_UNITS) ->
   In (Binary64.eff_unit i) (keys Binary64.EFF_UNITS) ->
   exists o : Binary64.outputs, Binary64.script i = Ok o) /\
  (~ In (Binary64.Q_unit i) (keys Binary64.FLOW_UNITS) ->
   Binary64.script i = Raise (KeyError (Binary64.Q_unit i))) /\
  (In (Binary64.Q_unit i) (keys Binary64.FLOW_UNITS) ->
   ~ In (Binary64.H_unit i) (keys Binary64.HEAD_UNITS) ->
   Binary64.script i = Raise (KeyError (Binary64.H_unit i))) /\
  (In (Binary64.Q_unit i) (keys Binary64.FLOW_UNITS) ->
   In (Binary64.H_unit i) (keys Binary64.HEAD_UNITS) ->
   ~ In (Binary64.eff_unit i) (keys Binary64.EFF_UNITS) ->
   Binary64.script i = Raise (KeyError (Binary64.eff_unit i))) /\
  Binary64.script i <> Raise ZeroDivisionError.
Proof.
  assert (R : In (Binary64.Q_unit i) (keys Binary64.FLOW_UNITS) ->
              In (Binary64.H_unit i) (keys Binary64.HEAD_UNITS) ->
              In (Binary64.eff_unit i) (keys Binary64.EFF_UNITS) ->
              exists o : Binary64.outputs, Binary64.script i = Ok o).
  { intros HQ HH HE.
    destruct (b64_script_runs i (conj HQ (conj HH HE))) as (q & h & e & _ & S).
    eexists. exact S. }
  assert (KQ : ~ In (Binary64.Q_unit i) (keys Binary64.FLOW_UNITS) ->
               Binary64.script i = Raise (KeyError (Binary64.Q_unit i))).
  { intros HQ. unfold Binary64.script, Binary64.to_si_flow.
    rewrite (py_getitem_missing _ _ HQ). reflexivity. }
  assert (KH : In (Binary64.Q_unit i) (keys Binary64.FLOW_UNITS) ->
               ~ In (Binary64.H_unit i) (keys Binary64.HEAD_UNITS) ->
               Binary64.script i = Raise (KeyError (Binary64.H_unit i))).
  { intros HQ HH. destruct (py_getitem_in _ _ HQ) as [fq Eq].
    unfold Binary64.script, Binary64.to_si_flow, Binary64.to_si_head.
    rewrite Eq, (py_getitem_missing _ _ HH). reflexivity. }
  assert (KE : In (Binary64.Q_unit i) (keys Binary64.FLOW_UNITS) ->
               In (Binary64.H_unit i) (keys Binary64.HEAD_UNITS) ->
               ~ In (Binary64.eff_unit i) (keys Binary64.EFF_UNITS) ->
               Binary64.script i = Raise (KeyError (Binary64.eff_unit i))).
  { intros HQ HH HE. destruct (py_getitem_in _ _ HQ) as [fq Eq].
    destruct (py_getitem_in _ _ HH) as [fh Eh].
    unfold Binary64.script, Binary64.to_si_flow, Binary64.to_si_head,
      Binary64.to_fraction.
    rewrite Eq, Eh, (py_getitem_missing _ _ HE). reflexivity. }
  split; [exact R | ]. split; [exact KQ | ]. split; [exact KH | ].
  split; [exact KE | ].
  destruct (py_in_keys_dec Binary64.FLOW_UNITS (Binary64.Q_unit i)) as [HQ | HQ];
    [ | rewrite (KQ HQ); discriminate].
  destruct (py_in_keys_dec Binary64.HEAD_UNITS (Binary64.H_unit i)) as [HH | HH];
    [ | rewrite (KH HQ HH); discriminate].
  destruct (py_in_keys_dec Binary64.EFF_UNITS (Binary64.eff_unit i)) as [HE | HE];
    [ | rewrite (KE HQ HH HE); discriminate].
  destruct (R HQ HH HE) as [o ->]. discriminate.
Qed.

Lemma script_raises_only_key_errors_witness :
  (exists o : Binary64.outputs, Binary64.script Binary64.defaults = Ok o) /\
  Binary64.script
    (Binary64.mk_inputs 0.05 "m3/s" 20.0 "m" 1.0 false 1000.0 70.0 "%" 9.80665)
  = Raise (KeyError "m3/s") /\
  Binary64.script
    (Binary64.mk_inputs 0.05 "L/s" 20.0 "yd" 1.0 false 1000.0 70.0 "%" 9.80665)
  = Raise (KeyError "yd") /\
  Binary64.script
    (Binary64.mk_inputs 0.05 "L/s" 20.0 "ft" 1.0 false 1000.0 70.0 "pct" 9.80665)
  = Raise (KeyError "pct").
Proof.
  assert (D : forall (l : list string) (k : string),
             (if in_dec string_dec k l then True else False) -> In k l).
  { intros l k. destruct (in_dec string_dec k l); [auto | intros []]. }
  assert (N : forall (l : list string) (k : string),
             (if in_dec string_dec k l then False else True) -> ~ In k l).
  { intros l k. destruct (in_dec string_dec k l); [intros [] | auto]. }
  split.
  { apply (proj1 (script_raises_only_key_errors Binary64.defaults));
      apply D; exact I. }
  split.
  { apply (proj1 (proj2 (script_raises_only_key_errors
             (Binary64.mk_inputs 0.05 "m3/s" 20.0 "m" 1.0 false 1000.0 70.0 "%" 9.80665)))).
    apply N. exact I. }
  split.
  { apply (proj1 (proj2 (proj2 (script_raises_only_key_errors
             (Binary64.mk_inputs 0.05 "L/s" 20.0 "yd" 1.0 false 1000.0 70.0 "%" 9.80665))))).
    - apply D. exact I.
    - apply N. exact I. }
  apply (proj1 (proj2 (proj2 (proj2 (script_raises_only_key_errors
           (Binary64.mk_inputs 0.05 "L/s" 20.0 "ft" 1.0 false 1000.0 70.0 "pct" 9.80665)))))).
  - apply D. exact I.
  - apply D. exact I.
  - apply N. exact I.
Defined.

(** Property X13.  On every run that returns, whatever efficiency was entered (0,
    150 %, NaN), the fraction used is above zero and at most [0.999999], and
    a hydraulic power that is at least zero gives a shaft power that is not
    below it, in kW and in HP; the shaft power is strictly above a positive
    normal hydraulic power. *)
Theorem script_shaft_not_below_hydraulic (i : Binary64.inputs) (o : Binary64.outputs) :
  Binary64.script i = Ok o ->
  (0 <? Binary64.eta o)%float = true /\
  (Binary64.eta o <=? 0.999999)%float = true /\
  ((0 <=? Binary64.P_h_kw o)%float = true ->
   (Binary64.P_h_kw o <=? Binary64.P_shaft_kw o)%float = true /\
   (Binary64.P_h_hp o <=? Binary64.P_shaft_hp o)%float = true) /\
  (classify (Binary64.P_h_kw o) = PNormal ->
   (Binary64.P_h_kw o <? Binary64.P_shaft_kw o)%float = true).
Proof.
  intros S. destruct (b64_script_inv i o S) as (fq & fh & fe & _ & _ & _ & ->).
  cbn [Binary64.eta Binary64.P_h_kw Binary64.P_shaft_kw Binary64.P_h_hp
       Binary64.P_shaft_hp].
  set (e := Binary64.max 1e-6 (Binary64.min 0.999999 (Binary64.eff_val i * fe))).
  set (p := Binary64.hydraulic_power_kw _ _ _ _).
  destruct (b64_clamp_unit_interval (Binary64.eff_val i * fe)%float)
    as (E0 & EU & E1 & Ef). fold e in E0, EU, E1, Ef.
  split; [exact E0 | ]. split; [exact EU | ]. split.
  - intros Np.
    assert (G : (p <=? p / e)%float = true) by (apply b64_div_ge_nonneg; assumption).
    split; [exact G | ].
    unfold Binary64.kw_to_hp.
    apply b64_mul_mono; [exact Np | exact G | reflexivity | reflexivity].
  - intros Hn.
    assert (Np : (0 <=? p)%float = true).
    { destruct (b64_normal_repr p Hn) as (m & ee & R & _ & _).
      apply b64_nonneg_spec. rewrite R. reflexivity. }
    apply (b64_ltb_leb_trans p (p / 0.999999)%float); [exact Np | | ].
    + apply b64_div_clamp_gt. exact Hn.
    + apply b64_div_antitone_nonneg; [exact Np | exact E0 | exact EU | reflexivity].
Qed.

Lemma script_shaft_not_below_hydraulic_witness :
  exists o : Binary64.outputs,
    Binary64.script Binary64.defaults = Ok o /\
    (0 <? Binary64.eta o)%float = true /\
    (Binary64.eta o <=? 0.999999)%float = true /\
    (0 <=? Binary64.P_h_kw o)%float = true /\
    (Binary64.P_h_kw o <=? Binary64.P_shaft_kw o)%float = true /\
    (Binary64.P_h_hp o <=? Binary64.P_shaft_hp o)%float = true /\
    classify (Binary64.P_h_kw o) = PNormal /\
    (Binary64.P_h_kw o <? Binary64.P_shaft_kw o)%float = true.
Proof.
  eexists. split; [vm_compute; reflexivity | ].
  destruct (script_shaft_not_below_hydraulic Binary64.defaults _ eq_refl)
    as (A & B & C & D).
  split; [exact A | ]. split; [exact B | ].
  split; [reflexivity | ].
  split; [exact (proj1 (C eq_refl)) | ].
  split; [exact (proj2 (C eq_refl)) | ].
  split; [reflexivity | exact (D eq_refl)].
Defined.

(** Property X14.  Two runs that differ only in the efficiency entered, both at
    least zero: the larger entry gives the same hydraulic power, a fraction
    that is not smaller and, when the hydraulic power is at least zero, a
    shaft power that is not larger, in kW and in HP. *)
Theorem script_efficiency_monotone
    (q h sg rc g e1 e2 : float) (qu hu eu : string) (ov : bool)
    (o1 o2 : Binary64.outputs) :
  (0 <=? e1)%float = true -> (e1 <=? e2)%float = true ->
  Binary64.script (Binary64.mk_inputs q qu h hu sg ov rc e1 eu g) = Ok o1 ->
  Binary64.script (Binary64.mk_inputs q qu h hu sg ov rc e2 eu g) = Ok o2 ->
  Binary64.P_h_kw o2 = Binary64.P_h_kw o1 /\
  (Binary64.eta o1 <=? Binary64.eta o2)%float = true /\
  ((0 <=? Binary64.P_h_kw o1)%float = true ->
   (Binary64.P_shaft_kw o2 <=? Binary64.P_shaft_kw o1)%float = true /\
   (Binary64.P_shaft_hp o2 <=? Binary64.P_shaft_hp o1)%float = true).
Proof.
  intros N1 H S1 S2.
  destruct (b64_script_inv _ o1 S1) as (fq & fh & fe & Gq & Gh & Ge & ->).
  destruct (b64_script_inv _ o2 S2) as (fq' & fh' & fe' & Gq' & Gh' & Ge' & ->).
  cbn [Binary64.Q_unit Binary64.H_unit Binary64.eff_unit Binary64.Q_val
       Binary64.H_val Binary64.eff_val Binary64.rho_override Binary64.rho_custom
       Binary64.sg Binary64.g_val] in *.
  rewrite Gq in Gq'. apply py_Ok_inj in Gq'. subst fq'.
  rewrite Gh in Gh'. apply py_Ok_inj in Gh'. subst fh'.
  rewrite Ge in Ge'. apply py_Ok_inj in Ge'. subst fe'.
  cbn [Binary64.eta Binary64.P_h_kw Binary64.P_shaft_kw Binary64.P_shaft_hp].
  set (p := Binary64.hydraulic_power_kw _ _ _ _).
  destruct (b64_eff_factor_range eu fe Ge) as (F0 & F1 & Ff).
  destruct (b64_scale_mono fe e1 e2 F0 F1 Ff N1 H) as (P1 & P12 & _).
  pose proof (b64_clamp_mono _ _ P1 P12) as M.
  destruct (b64_clamp_unit_interval (e1 * fe)%float) as (A0 & _ & _ & _).
  destruct (b64_clamp_unit_interval (e2 * fe)%float) as (B0 & _ & _ & Bf).
  set (eta1 := Binary64.max 1e-6 (Binary64.min 0.999999 (e1 * fe))) in *.
  set (eta2 := Binary64.max 1e-6 (Binary64.min 0.999999 (e2 * fe))) in *.
  split; [reflexivity | ]. split; [exact M | ].
  intros Np.
  assert (D : (p / eta2 <=? p / eta1)%float = true)
    by (apply b64_div_antitone_nonneg; assumption).
  split; [exact D | ].
  unfold Binary64.kw_to_hp.
  apply b64_mul_mono; [ | exact D | reflexivity | reflexivity].
  apply b64_div_nonneg; assumption.
Qed.

Lemma script_efficiency_monotone_witness :
  exists o1 o2 : Binary64.outputs,
    (0 <=? 70)%float = true /\ (70 <=? 85)%float = true /\
    Binary64.script (Binary64.mk_inputs 0.05 "m³/s" 20 "m" 1 false 1000 70 "%" 9.80665)
    = Ok o1 /\
    Binary64.script (Binary64.mk_inputs 0.05 "m³/s" 20 "m" 1 false 1000 85 "%" 9.80665)
    = Ok o2 /\
    Binary64.P_h_kw o2 = Binary64.P_h_kw o1 /\
    (Binary64.eta o1 <=? Binary64.eta o2)%float = true /\
    (0 <=? Binary64.P_h_kw o1)%float = true /\
    (Binary64.P_shaft_kw o2 <=? Binary64.P_shaft_kw o1)%float = true /\
    (Binary64.P_shaft_hp o2 <=? Binary64.P_shaft_hp o1)%float = true.
Proof.
  eexists _, _.
  split; [reflexivity | ]. split; [reflexivity | ].
  split; [vm_compute; reflexivity | ]. split; [vm_compute; reflexivity | ].
  pose proof (script_efficiency_monotone 0.05 20 1 1000 9.80665 70 85
                "m³/s" "m" "%" false _ _ eq_refl eq_refl eq_refl eq_refl)
    as (A & B & C).
  split; [exact A | ]. split; [exact B | ].
  split; [reflexivity | ]. exact (C eq_refl).
Defined.

(** Property X15.  Two runs with the same units, fluid, gravity and efficiency, whose
    flow and head are at least zero and do not decrease: none of the four
    powers decreases, provided the custom density (if used) and the gravity
    are at least zero and neither hydraulic power is NaN. *)
Theorem script_power_monotone
    (q1 q2 h1 h2 sg rc g e : float) (qu hu eu : string) (ov : bool)
    (o1 o2 : Binary64.outputs) :
  (0 <=? q1)%float = true -> (q1 <=? q2)%float = true ->
  (0 <=? h1)%float = true -> (h1 <=? h2)%float = true ->
  (0 <=? g)%float = true ->
  (ov = true -> (0 <=? rc)%float = true) ->
  Binary64.script (Binary64.mk_inputs q1 qu h1 hu sg ov rc e eu g) = Ok o1 ->
  Binary64.script (Binary64.mk_inputs q2 qu h2 hu sg ov rc e eu g) = Ok o2 ->
  (0 <=? Binary64.P_h_kw o1)%float = true ->
  (0 <=? Binary64.P_h_kw o2)%float = true ->
  (Binary64.P_h_kw o1 <=? Binary64.P_h_kw o2)%float = true /\
  (Binary64.P_shaft_kw o1 <=? Binary64.P_shaft_kw o2)%float = true /\
  (Binary64.P_h_hp o1 <=? Binary64.P_h_hp o2)%float = true /\
  (Binary64.P_shaft_hp o1 <=? Binary64.P_shaft_hp o2)%float = true.
Proof.
  intros Nq Hq Nh Hh Ng Nr S1 S2.
  destruct (b64_script_inv _ o1 S1) as (fq & fh & fe & Gq & Gh & Ge & ->).
  destruct (b64_script_inv _ o2 S2) as (fq' & fh' & fe' & Gq' & Gh' & Ge' & ->).
  cbn [Binary64.Q_unit Binary64.H_unit Binary64.eff_unit Binary64.Q_val
       Binary64.H_val Binary64.eff_val Binary64.rho_override Binary64.rho_custom
       Binary64.sg Binary64.g_val] in *.
  rewrite Gq in Gq'. apply py_Ok_inj in Gq'. subst fq'.
  rewrite Gh in Gh'. apply py_Ok_inj in Gh'. subst fh'.
  rewrite Ge in Ge'. apply py_Ok_inj in Ge'. subst fe'.
  cbn [Binary64.P_h_kw Binary64.P_shaft_kw Binary64.P_h_hp Binary64.P_shaft_hp].
  intros P1 P2.
  destruct (b64_flow_factor_range qu fq Gq) as (Q0 & Q1 & Qf).
  destruct (b64_head_factor_range hu fh Gh) as (H0 & H1 & Hf).
  destruct (b64_scale_mono fq q1 q2 Q0 Q1 Qf Nq Hq) as (Aq & Bq & _).
  destruct (b64_scale_mono fh h1 h2 H0 H1 Hf Nh Hh) as (Ah & Bh & _).
  pose proof (b64_density_nonneg ov rc sg Nr) as Nrho.
  destruct (b64_clamp_unit_interval (e * fe)%float) as (E0 & _ & _ & Ef).
  set (eta := Binary64.max 1e-6 (Binary64.min 0.999999 (e * fe))) in *.
  set (r := Binary64.density ov rc sg) in *.
  assert (M : (Binary64.hydraulic_power_kw r g (q1 * fq) (h1 * fh)
               <=? Binary64.hydraulic_power_kw r g (q2 * fq) (h2 * fh))%float = true).
  { apply b64_hydraulic_power_mono; try assumption; apply b64_leb_refl; assumption. }
  set (p1 := Binary64.hydraulic_power_kw r g (q1 * fq) (h1 * fh)) in *.
  set (p2 := Binary64.hydraulic_power_kw r g (q2 * fq) (h2 * fh)) in *.
  assert (D : (p1 / eta <=? p2 / eta)%float = true)
    by (apply b64_div_mono; assumption).
  split; [exact M | ]. split; [exact D | ].
  unfold Binary64.kw_to_hp. split.
  - apply b64_mul_mono; [exact P1 | exact M | reflexivity | reflexivity].
  - apply b64_mul_mono; [ | exact D | reflexivity | reflexivity].
    apply b64_div_nonneg; assumption.
Qed.

Lemma script_power_monotone_witness :
  exists o1 o2 : Binary64.outputs,
    (0 <=? 100)%float = true /\ (100 <=? 250)%float = true /\
    (0 <=? 60)%float = true /\ (60 <=? 60)%float = true /\
    (0 <=? 9.80665)%float = true /\
    (false = true -> (0 <=? 1000)%float = true) /\
    Binary64.script
      (Binary64.mk_inputs 100 "gpm (US)" 60 "ft" 0.85 false 1000 70 "%" 9.80665)
    = Ok o1 /\
    Binary64.script
      (Binary64.mk_inputs 250 "gpm (US)" 60 "ft" 0.85 false 1000 70 "%" 9.80665)
    = Ok o2 /\
    (0 <=? Binary64.P_h_kw o1)%float = true /\
    (0 <=? Binary64.P_h_kw o2)%float = true /\
    (Binary64.P_h_kw o1 <=? Binary64.P_h_kw o2)%float = true /\
    (Binary64.P_shaft_kw o1 <=? Binary64.P_shaft_kw o2)%float = true /\
    (Binary64.P_h_hp o1 <=? Binary64.P_h_hp o2)%float = true /\
    (Binary64.P_shaft_hp o1 <=? Binary64.P_shaft_hp o2)%float = true.
Proof.
  eexists _, _.
  split; [reflexivity | ]. split; [reflexivity | ].
  split; [reflexivity | ]. split; [reflexivity | ].
  split; [reflexivity | ]. split; [discriminate | ].
  split; [vm_compute; reflexivity | ]. split; [vm_compute; reflexivity | ].
  split; [reflexivity | ]. split; [reflexivity | ].
  apply (script_power_monotone 100 250 60 60 0.85 1000 9.80665 70
           "gpm (US)" "ft" "%" false _ _
           eq_refl eq_refl eq_refl eq_refl eq_refl); reflexivity.
Defined.

(** Property X16.  A run with a zero flow or a zero head (of either sign) shows four
    zero powers, unless the hydraulic power is NaN (an overflowed or NaN
    factor times that zero). *)
Theorem script_zero_flow_or_head (i : Binary64.inputs) (o : Binary64.outputs) :
  Binary64.script i = Ok o ->
  (Binary64.Q_val i =? 0)%float = true \/ (Binary64.H_val i =? 0)%float = true ->
  (Binary64.P_h_kw o =? Binary64.P_h_kw o)%float = true ->
  (Binary64.P_h_kw o =? 0)%float = true /\
  (Binary64.P_shaft_kw o =? 0)%float = true /\
  (Binary64.P_h_hp o =? 0)%float = true /\
  (Binary64.P_shaft_hp o =? 0)%float = true.
Proof.
  intros S Hz.
  destruct (b64_script_inv i o S) as (fq & fh & fe & Gq & Gh & Ge & ->).
  cbn [Binary64.P_h_kw Binary64.P_shaft_kw Binary64.P_h_hp Binary64.P_shaft_hp].
  destruct (b64_flow_factor_range _ fq Gq) as (Q0 & _ & Qf).
  destruct (b64_head_factor_range _ fh Gh) as (H0 & _ & Hf).
  destruct (b64_clamp_unit_interval (Binary64.eff_val i * fe)%float)
    as (E0 & _ & _ & Ef).
  set (eta := Binary64.max 1e-6 (Binary64.min 0.999999 (Binary64.eff_val i * fe))) in *.
  assert (Hz' : (Binary64.Q_val i * fq =? 0)%float = true \/
                (Binary64.H_val i * fh =? 0)%float = true).
  { destruct Hz as [Z | Z]; [left | right]; apply b64_zero_mul; assumption. }
  pose proof (b64_hydraulic_power_zero
                (Binary64.density (Binary64.rho_override i) (Binary64.rho_custom i)
                   (Binary64.sg i))
                (Binary64.g_val i) _ _ Hz') as ZN.
  set (p := Binary64.hydraulic_power_kw _ _ _ _) in *.
  intros Hn. apply b64_self_eqb in Hn.
  assert (Zp : (p =? 0)%float = true).
  { apply b64_zero_spec. destruct ZN as [Z | Z]; [exact Z | contradiction]. }
  assert (Zs : (p / eta =? 0)%float = true) by (apply b64_zero_div; assumption).
  split; [exact Zp | ]. split; [exact Zs | ].
  unfold Binary64.kw_to_hp.
  split; apply b64_zero_mul; try assumption; reflexivity.
Qed.

Lemma script_zero_flow_or_head_witness :
  exists o : Binary64.outputs,
    Binary64.script
      (Binary64.mk_inputs 0 "L/s" 20 "m" 1 false 1000 70 "%" 9.80665) = Ok o /\
    (0 =? 0)%float = true /\
    (Binary64.P_h_kw o =? Binary64.P_h_kw o)%float = true /\
    (Binary64.P_h_kw o =? 0)%float = true /\
    (Binary64.P_shaft_kw o =? 0)%float = true /\
    (Binary64.P_h_hp o =? 0)%float = true /\
    (Binary64.P_shaft_hp o =? 0)%float = true.
Proof.
  eexists. split; [vm_compute; reflexivity | ].
  split; [reflexivity | ]. split; [reflexivity | ].
  apply (script_zero_flow_or_head
           (Binary64.mk_inputs 0 "L/s" 20 "m" 1 false 1000 70 "%" 9.80665));
    [vm_compute; reflexivity | left; reflexivity | reflexivity].
Defined.

(** Property X17.  A run on entries that are at least zero (flow, head, gravity, and
    the custom density when it is used) converts them to values that are at
    least zero, uses a density that is at least zero, and shows no negative
    power: each of the four powers is at least zero, unless the hydraulic
    power is NaN. *)
Theorem script_powers_nonneg (i : Binary64.inputs) (o : Binary64.outputs) :
  Binary64.script i = Ok o ->
  (0 <=? Binary64.Q_val i)%float = true ->
  (0 <=? Binary64.H_val i)%float = true ->
  (0 <=? Binary64.g_val i)%float = true ->
  (Binary64.rho_override i = true -> (0 <=? Binary64.rho_custom i)%float = true) ->
  (0 <=? Binary64.Q_si o)%float = true /\
  (0 <=? Binary64.H_si o)%float = true /\
  (0 <=? Binary64.rho o)%float = true /\
  ((Binary64.P_h_kw o =? Binary64.P_h_kw o)%float = true ->
   (0 <=? Binary64.P_h_kw o)%float = true /\
   (0 <=? Binary64.P_shaft_kw o)%float = true /\
   (0 <=? Binary64.P_h_hp o)%float = true /\
   (0 <=? Binary64.P_shaft_hp o)%float = true).
Proof.
  intros S Nq Nh Ng Nr.
  destruct (b64_script_inv i o S) as (fq & fh & fe & Gq & Gh & Ge & ->).
  cbn [Binary64.Q_si Binary64.H_si Binary64.rho Binary64.P_h_kw
       Binary64.P_shaft_kw Binary64.P_h_hp Binary64.P_shaft_hp].
  destruct (b64_flow_factor_range _ fq Gq) as (Q0 & _ & Qf).
  destruct (b64_head_factor_range _ fh Gh) as (H0 & _ & Hf).
  destruct (b64_clamp_unit_interval (Binary64.eff_val i * fe)%float)
    as (E0 & _ & _ & Ef).
  set (eta := Binary64.max 1e-6 (Binary64.min 0.999999 (Binary64.eff_val i * fe))) in *.
  pose proof (b64_mul_nonneg _ fq Nq Q0 Qf) as Aq.
  pose proof (b64_mul_nonneg _ fh Nh H0 Hf) as Ah.
  pose proof (b64_density_nonneg _ _ (Binary64.sg i) Nr) as Nrho.
  set (r := Binary64.density _ _ _) in *.
  split; [exact Aq | ]. split; [exact Ah | ]. split; [exact Nrho | ].
  intros Hn. apply b64_self_eqb in Hn.
  assert (Np : (0 <=? Binary64.hydraulic_power_kw r (Binary64.g_val i)
                        (Binary64.Q_val i * fq) (Binary64.H_val i * fh))%float = true).
  { unfold Binary64.hydraulic_power_kw in *.
    destruct (b64_mul_nonneg_or_nan r (Binary64.g_val i) Nrho Ng) as [A | A].
    - destruct (b64_mul_nonneg_or_nan _ (Binary64.Q_val i * fq)%float A Aq) as [B | B].
      + destruct (b64_mul_nonneg_or_nan _ (Binary64.H_val i * fh)%float B Ah) as [C | C].
        * apply b64_div_nonneg; [exact C | reflexivity | reflexivity].
        * exfalso. apply Hn. rewrite div_spec, C. reflexivity.
      + exfalso. apply Hn. rewrite div_spec, mul_spec, B.
        destruct (Prim2SF (Binary64.H_val i * fh)) as [s | s | | s m e]; reflexivity.
    - exfalso. apply Hn. rewrite div_spec, !mul_spec.
      rewrite mul_spec in A. rewrite A.
      destruct (SF64mul (Prim2SF (Binary64.Q_val i)) (Prim2SF fq)) as [s | s | | s m e];
        destruct (SF64mul (Prim2SF (Binary64.H_val i)) (Prim2SF fh))
          as [s' | s' | | s' m' e']; reflexivity. }
  set (p := Binary64.hydraulic_power_kw _ _ _ _) in *.
  assert (Ns : (0 <=? p / eta)%float = true) by (apply b64_div_nonneg; assumption).
  split; [exact Np | ]. split; [exact Ns | ].
  unfold Binary64.kw_to_hp.
  split; apply b64_mul_nonneg; try assumption; reflexivity.
Qed.

Lemma script_powers_nonneg_witness :
  exists o : Binary64.outputs,
    Binary64.script Binary64.defaults = Ok o /\
    (0 <=? Binary64.Q_val Binary64.defaults)%float = true /\
    (0 <=? Binary64.H_val Binary64.defaults)%float = true /\
    (0 <=? Binary64.g_val Binary64.defaults)%float = true /\
    (0 <=? Binary64.Q_si o)%float = true /\
    (0 <=? Binary64.H_si o)%float = true /\
    (0 <=? Binary64.rho o)%float = true /\
    (Binary64.P_h_kw o =? Binary64.P_h_kw o)%float = true /\
    (0 <=? Binary64.P_h_kw o)%float = true /\
    (0 <=? Binary64.P_shaft_kw o)%float = true /\
    (0 <=? Binary64.P_h_hp o)%float = true /\
    (0 <=? Binary64.P_shaft_hp o)%float = true.
Proof.
  eexists. split; [vm_compute; reflexivity | ].
  split; [reflexivity | ]. split; [reflexivity | ]. split; [reflexivity | ].
  destruct (script_powers_nonneg Binary64.defaults _ eq_refl eq_refl eq_refl eq_refl)
    as (A & B & C & D).
  - discriminate.
  - split; [exact A | ]. split; [exact B | ]. split; [exact C | ].
    split; [reflexivity | ]. exact (D eq_refl).
Defined.

(** A zero of either sign is not above the floor of the clamp. *)
Lemma b64_zero_below_floor (x : float) :
  (x =? 0)%float = true -> (x <=? 1e-6)%float = true.
Proof.
  rewrite b64_zero_spec, leb_spec, b64_floor_repr.
  destruct (Prim2SF x) as [s | s | | s m e]; try discriminate; reflexivity.
Qed.

(** Property X18.  An efficiency entry of zero does not divide by zero: the
    fraction used is [1e-6] and the shaft power is the hydraulic power
    divided by [1e-6].  Whatever the entry, the shaft power of a run is at
    most that quotient when the hydraulic power is at least zero. *)
Theorem script_zero_efficiency (i : Binary64.inputs) (o : Binary64.outputs) :
  Binary64.script i = Ok o ->
  ((Binary64.eff_val i =? 0)%float = true ->
   Binary64.eta o = 1e-6%float /\
   Binary64.P_shaft_kw o = (Binary64.P_h_kw o / 1e-6)%float) /\
  ((0 <=? Binary64.P_h_kw o)%float = true ->
   (Binary64.P_shaft_kw o <=? Binary64.P_h_kw o / 1e-6)%float = true).
Proof.
  intros S. destruct (b64_script_inv i o S) as (fq & fh & fe & _ & _ & Ge & ->).
  cbn [Binary64.eta Binary64.P_h_kw Binary64.P_shaft_kw].
  destruct (b64_eff_factor_range _ fe Ge) as (F0 & _ & Ff).
  split.
  - intros Z.
    assert (E : Binary64.max 1e-6 (Binary64.min 0.999999 (Binary64.eff_val i * fe))
                = 1e-6%float).
    { apply b64_clamp_low. apply b64_zero_below_floor.
      apply b64_zero_mul; assumption. }
    rewrite E. split; reflexivity.
  - intros Np.
    destruct (b64_clamp_bounds (Binary64.eff_val i * fe)%float) as (B1 & _ & _).
    destruct (b64_clamp_unit_interval (Binary64.eff_val i * fe)%float)
      as (_ & _ & _ & Ef).
    apply b64_div_antitone_nonneg; [exact Np | reflexivity | exact B1 | exact Ef].
Qed.

Lemma script_zero_efficiency_witness :
  exists o : Binary64.outputs,
    Binary64.script
      (Binary64.mk_inputs 0.05 "m³/s" 20 "m" 1 false 1000 0 "%" 9.80665) = Ok o /\
    (0 =? 0)%float = true /\
    Binary64.eta o = 1e-6%float /\
    Binary64.P_shaft_kw o = (Binary64.P_h_kw o / 1e-6)%float /\
    (0 <=? Binary64.P_h_kw o)%float = true /\
    (Binary64.P_shaft_kw o <=? Binary64.P_h_kw o / 1e-6)%float = true.
Proof.
  eexists. split; [vm_compute; reflexivity | ].
  destruct (script_zero_efficiency
              (Binary64.mk_inputs 0.05 "m³/s" 20 "m" 1 false 1000 0 "%" 9.80665)
              _ eq_refl) as (A & B).
  split; [reflexivity | ].
  split; [exact (proj1 (A eq_refl)) | ].
  split; [exact (proj2 (A eq_refl)) | ].
  split; [reflexivity | exact (B eq_refl)].
Defined.
